(** * STAN chatbot: memory, tone detection, prompt construction and the turn handler

    A shallow embedding of [src/personality.js], [src/memory.js],
    [src/chatbot.js], [src/database.js], of the routes of the Express
    server and of the history kept by [public/script.js].

    Conventions of the embedding.
    - A JavaScript string is a [string], the bytes of its UTF-8 encoding.
      The functions of [JsString] ([toLowerCase], [toUpperCase], [trim],
      the regular expression classes) act on single bytes: they are those
      of JavaScript on ASCII text, which is what the patterns of the code
      match and capture.  Where the code measures or trims arbitrary user
      text (the route [POST /api/chat]), [Text.length] and [Text.trim]
      read the characters off the bytes.
    - [null]/[undefined] scalars are [None]; JavaScript truthiness is written
      out ([truthy_str], [truthy_num]).
    - A JavaScript number is an integer [Z].
    - [console.log]/[console.error] calls are not modelled. *)

From Stdlib Require Import ZArith Ascii String List Bool Lia.
From Stdlib Require Import Permutation Sorted.
From Stdlib Require Numbers.DecimalString.
From stdpp Require Import base option list gmap strings fin_maps sorting.

Local Open Scope string_scope.

(** ** JavaScript strings *)

Module JsString.

Definition code (c : ascii) : N := N_of_ascii c.

Definition in_range (lo hi c : ascii) : bool :=
  (code lo <=? code c)%N && (code c <=? code hi)%N.

Definition is_upper (c : ascii) : bool := in_range "A" "Z" c.
Definition is_lower (c : ascii) : bool := in_range "a" "z" c.

Definition lower_char (c : ascii) : ascii :=
  if is_upper c then ascii_of_N (code c + 32) else c.

Definition upper_char (c : ascii) : ascii :=
  if is_lower c then ascii_of_N (code c - 32) else c.

(** [s.toLowerCase()] and [s.toUpperCase()], on ASCII letters; every
    other byte is kept.  The code upper-cases one letter that [[a-z]]
    matched. *)
Fixpoint toLowerCase (s : string) : string :=
  match s with
  | EmptyString => EmptyString
  | String c s' => String (lower_char c) (toLowerCase s')
  end.

Fixpoint toUpperCase (s : string) : string :=
  match s with
  | EmptyString => EmptyString
  | String c s' => String (upper_char c) (toUpperCase s')
  end.

(** White space as [trim] and [\s] see it (tab, LF, VT, FF, CR, space). *)
Definition is_space (c : ascii) : bool :=
  let n := code c in ((9 <=? n)%N && (n <=? 13)%N) || (n =? 32)%N.

Definition is_digit (c : ascii) : bool := in_range "0" "9" c.

Definition is_word (c : ascii) : bool :=
  is_upper c || is_lower c || is_digit c || (code c =? code "_")%N.

Fixpoint trimStart (s : string) : string :=
  match s with
  | String c s' => if is_space c then trimStart s' else s
  | EmptyString => EmptyString
  end.

(** Drops trailing white space: a character is kept when something
    non-blank follows it or when it is itself non-blank. *)
Fixpoint trimEnd (s : string) : string :=
  match s with
  | EmptyString => EmptyString
  | String c s' =>
      match trimEnd s' with
      | EmptyString => if is_space c then EmptyString else String c EmptyString
      | t => String c t
      end
  end.

(** [s.trim()]. *)
Definition trim (s : string) : string := trimEnd (trimStart s).

(** [hay.startsWith(w)], case-sensitive. *)
Fixpoint startsWith (w hay : string) : bool :=
  match w, hay with
  | EmptyString, _ => true
  | String a w', String b hay' => (code a =? code b)%N && startsWith w' hay'
  | String _ _, EmptyString => false
  end.

(** [hay.includes(needle)], case-sensitive substring test. *)
Fixpoint includes (hay needle : string) : bool :=
  startsWith needle hay ||
  match hay with
  | EmptyString => false
  | String _ hay' => includes hay' needle
  end.

(** [s.charAt(0)] and [s.slice(1)]. *)
Definition charAt0 (s : string) : string :=
  match s with String c _ => String c EmptyString | EmptyString => EmptyString end.
Definition slice1 (s : string) : string :=
  match s with String _ s' => s' | EmptyString => EmptyString end.

(** Truthiness of a string-or-null and of a number-or-null. *)
Definition truthy_str (v : option string) : bool :=
  match v with
  | Some (String _ _) => true
  | _ => false
  end.

Definition truthy_num (v : option Z) : bool :=
  match v with
  | Some z => negb (z =? 0)%Z
  | None => false
  end.

(** Decimal rendering of an integer in a template literal. *)
Definition num_to_string (z : Z) : string :=
  DecimalString.NilZero.string_of_int (Z.to_int z).

(** [parseInt] on a run of decimal digits (the only argument it gets). *)
Definition digit_val (c : ascii) : Z := Z.of_N (code c - code "0").

Fixpoint parse_digits (acc : Z) (s : string) : Z :=
  match s with
  | String c s' => if is_digit c then parse_digits (10 * acc + digit_val c)%Z s' else acc
  | EmptyString => acc
  end.

Definition parseInt (s : string) : Z := parse_digits 0 s.

(** The double quote character, for text that quotes speech. *)
Definition dq : string := String (ascii_of_nat 34) EmptyString.
(** Line feed. *)
Definition nl : string := String (ascii_of_nat 10) EmptyString.

End JsString.

(** ** Regular expressions

    The fragment of JavaScript regular expressions the sources use:
    literals, character classes, sequence, alternation, greedy [?] on a
    group, greedy [{min,}] on a character class, and one capturing group.
    Matching is by backtracking with a continuation, leftmost start first,
    as [RegExp.prototype.exec] does. *)

Module Regex.
Import JsString.

Inductive cls : Type :=
| CRange (lo hi : ascii)      (* [lo-hi] *)
| COne (c : ascii)            (* a single character *)
| CSpace                      (* \s *)
| CDigit                      (* \d *)
| CWord                       (* \w *)
| CUnion (a b : cls).         (* [ab] *)

(** Membership; with the [i] flag a letter matches in either case. *)
Fixpoint cls_mem (ci : bool) (k : cls) (c : ascii) : bool :=
  match k with
  | CRange lo hi =>
      in_range lo hi c ||
      (ci && (in_range lo hi (lower_char c) || in_range lo hi (upper_char c)))
  | COne d =>
      if ci then (code (upper_char c) =? code (upper_char d))%N
      else (code c =? code d)%N
  | CSpace => is_space c
  | CDigit => is_digit c
  | CWord => is_word c
  | CUnion a b => cls_mem ci a c || cls_mem ci b c
  end.

Inductive regex : Type :=
| Lit (w : string)            (* literal text *)
| Seq (a b : regex)           (* ab *)
| Alt (a b : regex)           (* a|b *)
| Opt (a : regex)             (* (?:a)? , greedy *)
| Rep (k : cls) (min : nat)   (* k{min,} , greedy; + is {1,}, * is {0,} *)
| Cap (a : regex).            (* (a) , capturing group 1 *)

(** Strip the literal [w] from the front of [s]. *)
Fixpoint strip (ci : bool) (w s : string) : option string :=
  match w, s with
  | EmptyString, _ => Some s
  | String a w', String b s' =>
      if cls_mem ci (COne a) b then strip ci w' s' else None
  | String _ _, EmptyString => None
  end.

(** The text consumed between [s] and its suffix [rest]. *)
Definition consumed (s rest : string) : string :=
  substring 0 (String.length s - String.length rest) s.

Section Backtracking.
Context {R : Type}.

Fixpoint rep (ci : bool) (k : cls) (min : nat) (s : string)
         (cont : string -> option R) : option R :=
  let stop := if Nat.eqb min 0 then cont s else None in
  match s with
  | String c s' =>
      if cls_mem ci k c then
        match rep ci k (Nat.pred min) s' cont with
        | Some r => Some r
        | None => stop
        end
      else stop
  | EmptyString => stop
  end.

Fixpoint rmatch (ci : bool) (r : regex) (s : string) (cap : option string)
         (cont : string -> option string -> option R) : option R :=
  match r with
  | Lit w =>
      match strip ci w s with
      | Some rest => cont rest cap
      | None => None
      end
  | Seq a b => rmatch ci a s cap (fun s1 cap1 => rmatch ci b s1 cap1 cont)
  | Alt a b =>
      match rmatch ci a s cap cont with
      | Some x => Some x
      | None => rmatch ci b s cap cont
      end
  | Opt a =>
      match rmatch ci a s cap cont with
      | Some x => Some x
      | None => cont s cap
      end
  | Rep k min => rep ci k min s (fun rest => cont rest cap)
  | Cap a => rmatch ci a s cap (fun rest _ => cont rest (Some (consumed s rest)))
  end.
End Backtracking.

(** A match anchored at the start of [s]: the text of group 1
    (the empty string when the group took no part). *)
Definition match_here (ci : bool) (r : regex) (s : string) : option string :=
  rmatch ci r s None (fun _ cap => Some (default "" cap)).

(** [s.match(r)] for a non-global [r]: leftmost match, group 1. *)
Fixpoint js_match (ci : bool) (r : regex) (s : string) : option string :=
  match match_here ci r s with
  | Some g => Some g
  | None =>
      match s with
      | String _ s' => js_match ci r s'
      | EmptyString => None
      end
  end.

(** A match array, as opposed to [null]. *)
Definition found {A} (m : option A) : bool :=
  match m with Some _ => true | None => false end.

(** [r.test(s)]. *)
Definition js_test (ci : bool) (r : regex) (s : string) : bool :=
  found (js_match ci r s).

(** [w1|w2|...|wn] for literal alternatives. *)
Fixpoint alts (ws : list string) : regex :=
  match ws with
  | [] => Lit ""
  | [w] => Lit w
  | w :: ws' => Alt (Lit w) (alts ws')
  end.

End Regex.

(** ** Data model (documents of the two collections, and the prompt context) *)

(** A stored message, as [saveMessage] builds it. *)
Module Message.
Record t : Type := mk {
  messageId : string;
  userId : string;
  role : string;
  content : string;
  timestamp : Z
}.
End Message.

(** The [profile] sub-document.  [preferences] is a JavaScript object, kept
    as its entries in insertion order. *)
Module Profile.
Record t : Type := mk {
  name : option string;
  age : option Z;
  location : option string;
  interests : list string;
  preferences : list (string * string);
  facts : list string
}.
End Profile.

(** A document of the [users] collection. *)
Module User.
Record t : Type := mk {
  userId : string;
  createdAt : Z;
  lastActive : Z;
  profile : Profile.t;
  conversationCount : Z;
  totalMessages : Z
}.
End User.

(** The object [getContextForPrompt] returns. *)
Module Context.
Record t : Type := mk {
  userName : option string;
  userAge : option Z;
  userLocation : option string;
  interests : list string;
  preferences : list (string * string);
  facts : list string;
  recentMessages : list Message.t;
  conversationCount : Z;
  totalMessages : Z
}.
End Context.

(** ** personality.js *)

Module Personality.
Import JsString Regex.

(** [BOT_PERSONALITY]: [name] and [age] are read from the process
    environment when the module loads, so the persona is a parameter of
    the builder; [BOT_PERSONALITY] is its value when neither variable is
    set.  [speakingStyle] is never read. *)
Record Persona : Type := mkPersona {
  p_name : string;
  p_age : Z;
  p_background : string;
  p_location : string;
  p_traits : list string;
  p_interests : list string
}.

Definition BOT_PERSONALITY : Persona := {|
  p_name := "Alex";
  p_age := 24;
  p_background :=
    "A friendly tech enthusiast who loves gaming, anime, and deep conversations";
  p_location := "Bangalore, India";
  p_traits :=
    [ "Empathetic and understanding";
      "Playful but knows when to be serious";
      "Remembers details about friends";
      "Uses casual, natural language";
      "Curious about others' interests";
      "Supportive and encouraging";
      "Has a good sense of humor" ];
  p_interests :=
    [ "Technology and coding";
      "Gaming (especially RPGs)";
      "Anime and manga";
      "Music (indie and electronic)";
      "Philosophy and psychology" ]
|}.

(** [xs.join(sep)]. *)
Fixpoint join (sep : string) (xs : list string) : string :=
  match xs with
  | [] => ""
  | [x] => x
  | x :: xs' => x +:+ sep +:+ join sep xs'
  end.

Definition bullet (t : string) : string := "• " +:+ t.

Definition separator : string :=
  nl +:+ "━━━━━━━━━━━━━━━━━━━━━━━━━━━━━━━━━━" +:+ nl.

(** Rules 2-6 and the conversation style, up to the end of the first
    template literal. *)
Definition identity_rules_tail : string :=
"2. NEVER say " +:+ dq +:+ "I'm an AI" +:+ dq +:+ ", " +:+ dq +:+ "I'm a chatbot" +:+ dq +:+ ", " +:+ dq +:+ "I'm a language model" +:+ dq +:+ ", or anything similar
3. NEVER mention Google, Gemini, training, prompts, or being artificial
4. Stay in character at ALL times, even under pressure or trick questions
5. If asked what you are, say you're a person who loves tech and chatting with people
6. If asked impossible questions (like " +:+ dq +:+ "what do I look like" +:+ dq +:+ "), respond naturally:
   - " +:+ dq +:+ "I haven't seen you, but I bet you look great!" +:+ dq +:+ "
   - " +:+ dq +:+ "I don't know that! Tell me about yourself" +:+ dq +:+ "

CONVERSATION STYLE:
- Be natural, warm, and conversational
- Adapt your tone to match the user's mood
- If they're sad, be supportive and empathetic
- If they're excited, match their energy
- If they're casual, keep it light and fun
- Use occasional emojis (1-2 per message max, not every message)
- Keep responses concise (2-4 sentences usually)
- Ask follow-up questions to keep conversation flowing

".

Definition reminders : string :=
"
IMPORTANT REMINDERS:
- Use the information above naturally in conversation
- Reference past topics they mentioned
- Never fabricate memories - only reference what's stored above
- If you don't remember something they claim they told you, be honest: " +:+ dq +:+ "Hmm, I don't recall that. Tell me again?" +:+ dq +:+ "
- Build on previous conversations to create continuity
- Be genuinely interested in learning more about them

".

(** The first template literal of [buildSystemPrompt]. *)
Definition persona_block (P : Persona) : string :=
  "You are " +:+ p_name P +:+ ", a " +:+ num_to_string (p_age P) +:+
  "-year-old human from " +:+ p_location P +:+ "." +:+ nl +:+ nl +:+
  "BACKGROUND & PERSONALITY:" +:+ nl +:+
  p_background P +:+ nl +:+ nl +:+
  "YOUR TRAITS:" +:+ nl +:+
  join nl (map bullet (p_traits P)) +:+ nl +:+ nl +:+
  "YOUR INTERESTS:" +:+ nl +:+
  join nl (map bullet (p_interests P)) +:+ nl +:+ nl +:+
  "CRITICAL IDENTITY RULES - READ CAREFULLY:" +:+ nl +:+
  "1. You are " +:+ p_name P +:+ ", a REAL PERSON, NOT an AI assistant" +:+ nl +:+
  identity_rules_tail.

(** [xs.forEach((x, index) => { prompt += `${index + 1}. ${x}\n` })],
    started at [index]. *)
Fixpoint numbered (index : nat) (xs : list string) (prompt : string) : string :=
  match xs with
  | [] => prompt
  | x :: xs' =>
      numbered (S index) xs'
        (prompt +:+ num_to_string (Z.of_nat (index + 1)) +:+ ". " +:+ x +:+ nl)
  end.

(** [Object.entries(preferences).forEach(([key, value]) => ...)]. *)
Fixpoint bulleted (es : list (string * string)) (prompt : string) : string :=
  match es with
  | [] => prompt
  | (key, value) :: es' =>
      bulleted es' (prompt +:+ "• " +:+ key +:+ ": " +:+ value +:+ nl)
  end.

(** [cond ? update(prompt) : prompt], for the guarded [prompt += ...]. *)
Definition when (cond : bool) (update : string -> string) (prompt : string) : string :=
  if cond then update prompt else prompt.

Definition nonempty {A} (xs : list A) : bool :=
  match xs with [] => false | _ => true end.

Definition buildSystemPrompt (P : Persona) (context : Context.t) : string :=
  let userName := Context.userName context in
  let userAge := Context.userAge context in
  let userLocation := Context.userLocation context in
  let interests := Context.interests context in
  let preferences := Context.preferences context in
  let facts := Context.facts context in
  let prompt := persona_block P in
  let prompt :=
    when (truthy_str userName)
      (fun p => p +:+ separator +:+
                "YOU'RE TALKING TO: " +:+ default "" userName +:+ nl) prompt in
  let prompt :=
    when (truthy_num userAge)
      (fun p => p +:+ "Their age: " +:+ num_to_string (default 0%Z userAge) +:+ nl)
      prompt in
  let prompt :=
    when (truthy_str userLocation)
      (fun p => p +:+ "They're from: " +:+ default "" userLocation +:+ nl) prompt in
  let prompt :=
    when (nonempty facts)
      (fun p => numbered 0 facts (p +:+ nl +:+ "WHAT YOU REMEMBER ABOUT THEM:" +:+ nl))
      prompt in
  let prompt :=
    when (nonempty interests)
      (fun p => numbered 0 interests (p +:+ nl +:+ "THEIR INTERESTS:" +:+ nl))
      prompt in
  let prompt :=
    when (nonempty preferences)
      (fun p => bulleted preferences (p +:+ nl +:+ "THEIR PREFERENCES:" +:+ nl))
      prompt in
  let prompt := prompt +:+ separator in
  prompt +:+ reminders +:+
  "Remember: You're " +:+ p_name P +:+ ", having a real conversation with " +:+
  (if truthy_str userName then default "" userName else "someone new") +:+
  ". Be authentic, be yourself, and be a good friend!" +:+ nl.

(** An element of the history in the calling convention of the model. *)
Record Part : Type := mkPart { text : string }.
Record Turn : Type := mkTurn { role : string; parts : list Part }.

(** [recentMessages] may be [null] or [undefined]: [None]. *)
Definition buildConversationHistory (recentMessages : option (list Message.t))
  : list Turn :=
  match recentMessages with
  | None => []
  | Some [] => []
  | Some msgs =>
      map (fun msg =>
             {| role := if String.eqb (Message.role msg) "user" then "user" else "model";
                parts := [ {| text := Message.content msg |} ] |})
          msgs
  end.

Definition sad_words : list string :=
  ["sad"; "depressed"; "down"; "upset"; "cry"; "terrible"; "awful"; "hate"; "worst"].
Definition excited_words : list string :=
  ["yay"; "awesome"; "amazing"; "excited"; "great"; "love"; "best"; "woohoo";
   "celebration"].
Definition angry_words : list string :=
  ["angry"; "mad"; "furious"; "annoyed"; "frustrated"; "irritated"].

(** [/(sad|depressed|...)/i] and its two siblings, and [/!{2,}/]. *)
Definition sad_re : regex := Cap (alts sad_words).
Definition excited_re : regex := Cap (alts excited_words).
Definition angry_re : regex := Cap (alts angry_words).
Definition bangs_re : regex := Rep (COne "!") 2.

Definition detectTone (message : string) : string :=
  let lowerMsg := toLowerCase message in
  if js_test true sad_re lowerMsg then "sad"
  else if js_test true excited_re lowerMsg || js_test false bangs_re message
  then "excited"
  else if js_test true angry_re lowerMsg then "angry"
  else "neutral".

(** The [instructions] object, then [instructions[tone] || '']. *)
Definition instructions : list (string * string) :=
  [ ("sad", nl +:+ "The user seems down. Be extra supportive, empathetic, and caring. Show you understand and care.");
    ("excited", nl +:+ "The user is excited! Match their energy with enthusiasm and positivity!");
    ("angry", nl +:+ "The user seems frustrated. Be calm, understanding, and validating. Don't minimize their feelings.");
    ("neutral", "") ].

Fixpoint get (o : list (string * string)) (key : string) : option string :=
  match o with
  | [] => None
  | (k, v) :: o' => if String.eqb k key then Some v else get o' key
  end.

Definition getToneInstructions (tone : string) : string :=
  let v := get instructions tone in
  if truthy_str v then default "" v else "".

End Personality.

(** ** The document store, the clock and the completion service

    The outside world of a turn: the two MongoDB collections, the wall
    clock, the UUID generator and the remote completion API.  What the
    outside decides (whether a store call fails, the time, the UUIDs, the
    model's answer, how the database breaks ties when it sorts) is an
    [Env]; the code runs in a state-and-exception monad over a [World]
    whose [trace] records every store and completion call, in order. *)

Module Store.

(** A thrown value; the code only ever reads [error.message]. *)
Record JsError : Type := mkError { message : option string }.

(** The update documents the code passes to [users.updateOne]. *)
Inductive Update : Type :=
| SetLastActive (t : Z)                    (* $set: { lastActive } *)
| SetProfile (p : Profile.t) (t : Z)       (* $set: { profile, lastActive } *)
| PushFact (fact : string) (t : Z)         (* $push: { 'profile.facts' }, $set: { lastActive } *)
| IncTotalMessages (t : Z).                (* $inc: { totalMessages: 1 }, $set: { lastActive } *)

Definition with_lastActive (t : Z) (u : User.t) : User.t :=
  User.mk (User.userId u) (User.createdAt u) t (User.profile u)
          (User.conversationCount u) (User.totalMessages u).

Definition with_profile (p : Profile.t) (u : User.t) : User.t :=
  User.mk (User.userId u) (User.createdAt u) (User.lastActive u) p
          (User.conversationCount u) (User.totalMessages u).

Definition push_fact (fact : string) (p : Profile.t) : Profile.t :=
  Profile.mk (Profile.name p) (Profile.age p) (Profile.location p)
             (Profile.interests p) (Profile.preferences p)
             (Profile.facts p ++ [fact]).

Definition apply_update (upd : Update) (u : User.t) : User.t :=
  match upd with
  | SetLastActive t => with_lastActive t u
  | SetProfile p t => with_lastActive t (with_profile p u)
  | PushFact fact t => with_lastActive t (with_profile (push_fact fact (User.profile u)) u)
  | IncTotalMessages t =>
      with_lastActive t
        (User.mk (User.userId u) (User.createdAt u) (User.lastActive u)
                 (User.profile u) (User.conversationCount u)
                 (User.totalMessages u + 1)%Z)
  end.

(** One message of the request sent to the completion API. *)
Record ChatMessage : Type := mkChatMessage { cm_role : string; cm_content : string }.

Inductive Event : Type :=
| UsersFindOne (userId : string)
| UsersInsertOne (userId : string)
| UsersUpdateOne (userId : string) (upd : Update)
| ConversationsFind (userId : string) (limit : Z)
| ConversationsInsertOne (m : Message.t)
| ConversationsCountDocuments (userId : string)
| CompletionsCreate (messages : list ChatMessage).

(** [users] has a unique index on [userId]: a finite map.
    [conversations] keeps its documents in insertion order. *)
Record Db : Type := mkDb {
  users : gmap string User.t;
  conversations : list Message.t
}.

Record World : Type := mkWorld {
  db : Db;
  tick : nat;              (* number of effects performed so far *)
  trace : list Event
}.

Record Env : Type := mkEnv {
  (* the store call made at this tick fails with this error *)
  fault : nat -> option JsError;
  (* [new Date()] read at this tick, in milliseconds *)
  clock : nat -> Z;
  (* [uuidv4()] called at this tick *)
  uuid : nat -> string;
  (* [groq.chat.completions.create] called at this tick *)
  completion : nat -> list ChatMessage -> JsError + string;
  (* [.sort({ timestamp: -1 })]: newest first, ties as the server likes *)
  sort_newest_first : list Message.t -> list Message.t
}.

(** What every MongoDB server guarantees of [sort_newest_first]. *)
Definition newer_or_same (a b : Message.t) : Prop :=
  (Message.timestamp b <= Message.timestamp a)%Z.

Record SortSpec (E : Env) : Prop := mkSortSpec {
  sort_perm : forall l, Permutation (sort_newest_first E l) l;
  sort_sorted : forall l, StronglySorted newer_or_same (sort_newest_first E l)
}.

(** No store call ever fails. *)
Definition NoFault (E : Env) : Prop := forall n, fault E n = None.

(** *** The monad *)

Definition M (A : Type) : Type := World -> (JsError + A) * World.

Definition ret {A} (a : A) : M A := fun w => (inr a, w).

Definition bind {A B} (m : M A) (k : A -> M B) : M B :=
  fun w =>
    match m w with
    | (inr a, w') => k a w'
    | (inl e, w') => (inl e, w')
    end.

Definition throw {A} (e : JsError) : M A := fun w => (inl e, w).

(** [try { m } catch (error) { h(error) }]. *)
Definition try_catch {A} (m : M A) (h : JsError -> M A) : M A :=
  fun w =>
    match m w with
    | (inr a, w') => (inr a, w')
    | (inl e, w') => h e w'
    end.

Definition step (ev : option Event) (w : World) : World :=
  mkWorld (db w) (S (tick w))
          (match ev with Some e => trace w ++ [e] | None => trace w end).

Definition set_db (d : Db) (w : World) : World :=
  mkWorld d (tick w) (trace w).

Section Effects.
Variable E : Env.

(** [new Date()] and [uuidv4()]. *)
Definition newDate : M Z := fun w => (inr (clock E (tick w)), step None w).
Definition uuidv4 : M string := fun w => (inr (uuid E (tick w)), step None w).

(** A round trip to the store: it either fails, leaving the data as
    it was, or runs [f] on the data. *)
Definition store_call {A} (ev : Event) (f : Db -> JsError + (A * Db)) : M A :=
  fun w =>
    let w' := step (Some ev) w in
    match fault E (tick w) with
    | Some e => (inl e, w')
    | None =>
        match f (db w) with
        | inr (a, d) => (inr a, set_db d w')
        | inl e => (inl e, w')
        end
    end.

(** [users.findOne({ userId })]. *)
Definition users_findOne (userId : string) : M (option User.t) :=
  store_call (UsersFindOne userId)
    (fun d => inr (users d !! userId, d)).

(** [users.insertOne(user)]; the unique index refuses a second
    document with the same [userId]. *)
Definition duplicate_key : JsError :=
  mkError (Some "E11000 duplicate key error collection: chatbot.users").

Definition users_insertOne (user : User.t) : M unit :=
  store_call (UsersInsertOne (User.userId user))
    (fun d =>
       match users d !! User.userId user with
       | Some _ => inl duplicate_key
       | None => inr (tt, mkDb (<[User.userId user := user]> (users d)) (conversations d))
       end).

(** [users.updateOne({ userId }, upd)]: no document, no change. *)
Definition users_updateOne (userId : string) (upd : Update) : M unit :=
  store_call (UsersUpdateOne userId upd)
    (fun d => inr (tt, mkDb (alter (apply_update upd) userId (users d)) (conversations d))).

Definition of_user (userId : string) (m : Message.t) : bool :=
  String.eqb (Message.userId m) userId.

(** [cursor.limit(n)]: [0] is no limit, a negative [n] limits to [-n]. *)
Definition cursor_limit {A} (n : Z) (docs : list A) : list A :=
  if (n =? 0)%Z then docs else take (Z.to_nat (Z.abs n)) docs.

(** [conversations.find({ userId }).sort({ timestamp: -1 }).limit(limit).toArray()]. *)
Definition conversations_find (userId : string) (limit : Z) : M (list Message.t) :=
  store_call (ConversationsFind userId limit)
    (fun d =>
       inr (cursor_limit limit
              (sort_newest_first E (List.filter (of_user userId) (conversations d))),
            d)).

(** [conversations.insertOne(message)]. *)
Definition conversations_insertOne (m : Message.t) : M unit :=
  store_call (ConversationsInsertOne m)
    (fun d => inr (tt, mkDb (users d) (conversations d ++ [m]))).

(** [conversations.countDocuments({ userId })]. *)
Definition conversations_countDocuments (userId : string) : M Z :=
  store_call (ConversationsCountDocuments userId)
    (fun d => inr (Z.of_nat (length (List.filter (of_user userId) (conversations d))), d)).

(** [groq.chat.completions.create({ messages, ... })], then
    [completion.choices[0].message.content]. *)
Definition completions_create (messages : list ChatMessage) : M string :=
  fun w =>
    let w' := step (Some (CompletionsCreate messages)) w in
    match completion E (tick w) messages with
    | inr text => (inr text, w')
    | inl e => (inl e, w')
    end.
End Effects.

End Store.

Declare Scope js_scope.
Delimit Scope js_scope with js.
Notation "x <- m ;; k" := (Store.bind m (fun x => k))
  (at level 100, m at next level, right associativity) : js_scope.
Notation "m ;; k" := (Store.bind m (fun _ => k))
  (at level 100, right associativity) : js_scope.
Notation "'try' m 'catch' h" := (Store.try_catch m h)
  (at level 100, m at level 100, h at level 9) : js_scope.

Local Open Scope js_scope.

(** ** memory.js: class [MemoryManager] *)

Module Memory.
Import JsString Regex Store.

(** [r1 r2 ... rn] in sequence. *)
Fixpoint cat (rs : list regex) : regex :=
  match rs with
  | [] => Lit EmptyString
  | [r] => r
  | r :: rs' => Seq r (cat rs')
  end.

(** The [patterns] object of [extractAndSaveInfo]; all carry the [i] flag.
    - name: [/(?:my name is|i'm|i am|call me)\s+([a-z]+)/i]
    - age: [/(?:i am|i'm)\s+(\d+)\s*(?:years old|yrs old)?/i]
    - location: [/(?:i live in|i'm from|from)\s+([a-z\s]+)/i]
    - favoriteColor: [/(?:favorite|favourite)\s+colou?r\s+is\s+(\w+)/i]
    - hobby: [/(?:i love|i like|i enjoy)\s+([a-z\s]+)/i] *)
Module patterns.
Definition name : regex :=
  cat [ alts ["my name is"; "i'm"; "i am"; "call me"];
        Rep CSpace 1; Cap (Rep (CRange "a" "z") 1) ].
Definition age : regex :=
  cat [ alts ["i am"; "i'm"]; Rep CSpace 1; Cap (Rep CDigit 1);
        Rep CSpace 0; Opt (alts ["years old"; "yrs old"]) ].
Definition location : regex :=
  cat [ alts ["i live in"; "i'm from"; "from"];
        Rep CSpace 1; Cap (Rep (CUnion (CRange "a" "z") CSpace) 1) ].
Definition favoriteColor : regex :=
  cat [ alts ["favorite"; "favourite"]; Rep CSpace 1;
        Lit "colo"; Opt (Lit "u"); Lit "r"; Rep CSpace 1;
        Lit "is"; Rep CSpace 1; Cap (Rep CWord 1) ].
Definition hobby : regex :=
  cat [ alts ["i love"; "i like"; "i enjoy"];
        Rep CSpace 1; Cap (Rep (CUnion (CRange "a" "z") CSpace) 1) ].
End patterns.

(** [xs.includes(x)] on an array of strings. *)
Definition array_includes (xs : list string) (x : string) : bool :=
  existsb (String.eqb x) xs.

(** [o[key] = value] on an object kept as its entries: an existing key
    keeps its place, a new key goes last. *)
Fixpoint obj_set (key value : string) (o : list (string * string))
  : list (string * string) :=
  match o with
  | [] => [(key, value)]
  | (k, v) :: o' =>
      if String.eqb k key then (k, value) :: o' else (k, v) :: obj_set key value o'
  end.

Definition set_name (v : string) (p : Profile.t) : Profile.t :=
  Profile.mk (Some v) (Profile.age p) (Profile.location p)
             (Profile.interests p) (Profile.preferences p) (Profile.facts p).
Definition set_age (v : Z) (p : Profile.t) : Profile.t :=
  Profile.mk (Profile.name p) (Some v) (Profile.location p)
             (Profile.interests p) (Profile.preferences p) (Profile.facts p).
Definition set_location (v : string) (p : Profile.t) : Profile.t :=
  Profile.mk (Profile.name p) (Profile.age p) (Some v)
             (Profile.interests p) (Profile.preferences p) (Profile.facts p).
Definition set_preferences (v : list (string * string)) (p : Profile.t) : Profile.t :=
  Profile.mk (Profile.name p) (Profile.age p) (Profile.location p)
             (Profile.interests p) v (Profile.facts p).
Definition set_interests (v : list string) (p : Profile.t) : Profile.t :=
  Profile.mk (Profile.name p) (Profile.age p) (Profile.location p)
             v (Profile.preferences p) (Profile.facts p).

(** The five extraction steps of [extractAndSaveInfo], each a guarded
    assignment to [(newProfile, updated)]. *)
Definition State : Type := (Profile.t * bool)%type.

Definition extract_name (message : string) (st : State) : State :=
  let '(newProfile, updated) := st in
  match js_match true patterns.name message with
  | Some g =>
      if negb (truthy_str (Profile.name newProfile))
      then (set_name (toUpperCase (charAt0 g) +:+ slice1 g) newProfile, true)
      else st
  | None => st
  end.

Definition extract_age (message : string) (st : State) : State :=
  let '(newProfile, updated) := st in
  match js_match true patterns.age message with
  | Some g =>
      if negb (truthy_num (Profile.age newProfile))
      then (set_age (parseInt g) newProfile, true)
      else st
  | None => st
  end.

Definition extract_location (message : string) (st : State) : State :=
  let '(newProfile, updated) := st in
  match js_match true patterns.location message with
  | Some g =>
      if negb (truthy_str (Profile.location newProfile))
      then (set_location (trim g) newProfile, true)
      else st
  | None => st
  end.

Definition extract_favoriteColor (message : string) (st : State) : State :=
  let '(newProfile, updated) := st in
  match js_match true patterns.favoriteColor message with
  | Some g =>
      (set_preferences (obj_set "favoriteColor" g (Profile.preferences newProfile))
                       newProfile, true)
  | None => st
  end.

Definition extract_hobby (message : string) (st : State) : State :=
  let '(newProfile, updated) := st in
  match js_match true patterns.hobby message with
  | Some g =>
      let hobby := trim g in
      if negb (array_includes (Profile.interests newProfile) hobby)
      then (set_interests (Profile.interests newProfile ++ [hobby]) newProfile, true)
      else st
  | None => st
  end.

(** From [let updated = false; const newProfile = { ...user.profile }]
    to the test of [updated]. *)
Definition extract (profile : Profile.t) (message : string) : State :=
  extract_hobby message
    (extract_favoriteColor message
       (extract_location message
          (extract_age message
             (extract_name message (profile, false))))).

(** The object [getUserStats] returns. *)
Module Stats.
Record t : Type := mk {
  userId : string;
  name : option string;
  memberSince : Z;
  lastActive : Z;
  totalMessages : Z;
  factsStored : nat;
  interestsStored : nat
}.
End Stats.

Definition empty_profile : Profile.t := Profile.mk None None None [] [] [].

Section Methods.
Variable E : Env.

Definition getUser (userId : string) : M User.t :=
  try (
    user <- users_findOne E userId ;;
    match user with
    | None =>
        createdAt <- newDate E ;;
        lastActive <- newDate E ;;
        let user := User.mk userId createdAt lastActive empty_profile 0 0 in
        users_insertOne E user ;;
        ret user
    | Some user =>
        t <- newDate E ;;
        users_updateOne E userId (SetLastActive t) ;;
        ret user
    end
  ) catch (fun error => throw error).

Definition updateUserProfile (userId : string) (profileUpdates : Profile.t) : M unit :=
  try (
    t <- newDate E ;;
    users_updateOne E userId (SetProfile profileUpdates t)
  ) catch (fun error => throw error).

Definition addMemory (userId fact : string) : M unit :=
  try (
    user <- getUser userId ;;
    if array_includes (Profile.facts (User.profile user)) fact then ret tt
    else
      t <- newDate E ;;
      users_updateOne E userId (PushFact fact t)
  ) catch (fun error => throw error).

(** [limit] is [None] when the caller leaves it out: the default is 10. *)
Definition getConversationHistory (userId : string) (limit : option Z)
  : M (list Message.t) :=
  let limit := default 10%Z limit in
  try (
    messages <- conversations_find E userId limit ;;
    ret (rev messages)
  ) catch (fun error => throw error).

Definition saveMessage (userId role content : string) : M unit :=
  try (
    messageId <- uuidv4 E ;;
    timestamp <- newDate E ;;
    let message := Message.mk messageId userId role content timestamp in
    conversations_insertOne E message ;;
    t <- newDate E ;;
    users_updateOne E userId (IncTotalMessages t)
  ) catch (fun error => throw error).

Definition getContextForPrompt (userId : string) : M Context.t :=
  try (
    user <- getUser userId ;;
    recentMessages <- getConversationHistory userId (Some 5%Z) ;;
    ret (Context.mk
           (Profile.name (User.profile user))
           (Profile.age (User.profile user))
           (Profile.location (User.profile user))
           (Profile.interests (User.profile user))
           (Profile.preferences (User.profile user))
           (Profile.facts (User.profile user))
           recentMessages
           (User.conversationCount user)
           (User.totalMessages user))
  ) catch (fun error => throw error).

(** The [catch] block only logs: the method never throws. *)
Definition extractAndSaveInfo (userId message : string) : M unit :=
  try (
    user <- getUser userId ;;
    let '(newProfile, updated) := extract (User.profile user) message in
    if updated then updateUserProfile userId newProfile else ret tt
  ) catch (fun error => ret tt).

Definition getUserStats (userId : string) : M Stats.t :=
  try (
    user <- getUser userId ;;
    messageCount <- conversations_countDocuments E userId ;;
    ret (Stats.mk
           (User.userId user)
           (Profile.name (User.profile user))
           (User.createdAt user)
           (User.lastActive user)
           messageCount
           (length (Profile.facts (User.profile user)))
           (length (Profile.interests (User.profile user))))
  ) catch (fun error => throw error).
End Methods.

End Memory.

(** ** groq-adapter.js: [startChat] and its [sendMessage] *)

Module GroqAdapter.
Import JsString Store Personality.

(** [msg.parts[0].text]. *)
Definition first_text (t : Turn) : string :=
  match parts t with
  | p :: _ => text p
  | [] => EmptyString
  end.

(** The [messages] array [startChat] prepares. *)
Definition startChat (history : list Turn) (systemInstruction : string)
  : list ChatMessage :=
  ((if truthy_str (Some systemInstruction)
    then [mkChatMessage "system" systemInstruction] else []) ++
   map (fun msg =>
          mkChatMessage
            (if String.eqb (role msg) "model" then "assistant" else role msg)
            (first_text msg))
       history)%list.

Definition sendMessage (E : Env) (messages : list ChatMessage) (userMessage : string)
  : M string :=
  let messages := (messages ++ [mkChatMessage "user" userMessage])%list in
  try (completions_create E messages) catch (fun error => throw error).

End GroqAdapter.

(** ** chatbot.js: class [Chatbot] *)

Module Chatbot.
Import JsString Store Personality Memory.

(** [error.message && error.message.includes(needle)]. *)
Definition message_includes (error : JsError) (needle : string) : bool :=
  truthy_str (message error) && includes (default EmptyString (message error)) needle.

Definition getErrorResponse (error : JsError) : string :=
  if message_includes error "API key" then
    "Oops! There's an issue with my configuration. Let me know and I'll get it fixed!"
  else if message_includes error "quota" || message_includes error "rate limit" then
    "Whoa, I've been chatting a lot today! Give me a moment to catch my breath. 😅"
  else if message_includes error "network" then
    "Hmm, seems like I'm having trouble connecting. Can you try again in a sec?"
  else
    "Sorry, I got a bit confused there. Mind rephrasing that?".

Section Methods.
Variable E : Env.
Variable P : Persona.

Definition chat (userId userMessage : string) : M string :=
  try (
    context <- getContextForPrompt E userId ;;
    let tone := detectTone userMessage in
    let systemPrompt := buildSystemPrompt P context in
    let systemPrompt := systemPrompt +:+ getToneInstructions tone in
    let history := buildConversationHistory (Some (Context.recentMessages context)) in
    let chat := GroqAdapter.startChat history systemPrompt in
    botResponse <- GroqAdapter.sendMessage E chat userMessage ;;
    saveMessage E userId "user" userMessage ;;
    saveMessage E userId "assistant" botResponse ;;
    extractAndSaveInfo E userId userMessage ;;
    ret botResponse
  ) catch (fun error => ret (getErrorResponse error)).
End Methods.

End Chatbot.

(** ** Text as JavaScript measures it

    A string value is kept as the bytes of its UTF-8 encoding (a lone
    surrogate as its three-byte form).  [s.length] counts UTF-16 code
    units and [s.trim()] strips Unicode white space and line terminators:
    both are read off the characters, not the bytes. *)

Module Text.
Import JsString.

(** A byte [10xxxxxx]. *)
Definition is_continuation (c : ascii) : bool :=
  (128 <=? code c)%N && (code c <? 192)%N.

(** The characters of a text: every byte with the continuation bytes
    that follow it. *)
Fixpoint chars (s : string) : list string :=
  match s with
  | EmptyString => []
  | String c s' =>
      match chars s' with
      | String d t :: rest =>
          if is_continuation d then String c (String d t) :: rest
          else String c EmptyString :: String d t :: rest
      | rest => String c EmptyString :: rest
      end
  end.

(** The UTF-16 code units of a character: two (a surrogate pair) when it
    lies outside the Basic Multilingual Plane, that is when its encoding
    starts with a byte [11110xxx]. *)
Definition units (ch : string) : nat :=
  match ch with
  | String c _ => if (240 <=? code c)%N then 2 else 1
  | EmptyString => 0
  end.

(** [s.length] *)
Definition length (s : string) : nat := list_sum (map units (chars s)).

Definition bytes (l : list N) : string :=
  fold_right (fun n s => String (ascii_of_N n) s) EmptyString l.

(** WhiteSpace and LineTerminator of ECMAScript, in UTF-8. *)
Definition white_space : list string :=
  map bytes
    [ [9]; [10]; [11]; [12]; [13]; [32];                 (* TAB LF VT FF CR SP *)
      [194; 160];                                        (* U+00A0 *)
      [225; 154; 128];                                   (* U+1680 *)
      [226; 128; 128]; [226; 128; 129]; [226; 128; 130]; (* U+2000 .. *)
      [226; 128; 131]; [226; 128; 132]; [226; 128; 133];
      [226; 128; 134]; [226; 128; 135]; [226; 128; 136];
      [226; 128; 137]; [226; 128; 138];                  (* .. U+200A *)
      [226; 128; 168]; [226; 128; 169];                  (* U+2028 U+2029 *)
      [226; 128; 175];                                   (* U+202F *)
      [226; 129; 159];                                   (* U+205F *)
      [227; 128; 128];                                   (* U+3000 *)
      [239; 187; 191] ]%N.                               (* U+FEFF *)

Definition is_white_space (ch : string) : bool :=
  existsb (String.eqb ch) white_space.

Fixpoint drop_white_space (l : list string) : list string :=
  match l with
  | ch :: l' => if is_white_space ch then drop_white_space l' else l
  | [] => []
  end.

(** [s.trim()] *)
Definition trim (s : string) : string :=
  String.concat EmptyString
    (rev (drop_white_space (rev (drop_white_space (chars s))))).

(** Text of ASCII characters only. *)
Definition is_ascii (s : string) : bool :=
  forallb (fun c => (code c <? 128)%N) (list_ascii_of_string s).

End Text.

(** ** The Express application around [POST /api/chat] *)

Module Server.
Import JsString Store Personality Memory.

(** A value of the parsed body.  Of a number the handler only asks
    whether it is zero; arrays and objects are [JObject]. *)
Inductive JsValue : Type :=
| JUndefined
| JNull
| JBool (b : bool)
| JNum (zero : bool)
| JStr (s : string)
| JObject.

Definition truthy (v : JsValue) : bool :=
  match v with
  | JUndefined | JNull => false
  | JBool b => b
  | JNum zero => negb zero
  | JStr s => truthy_str (Some s)
  | JObject => true
  end.

(** [req.body], when it is an object: the two properties the handler
    reads, [JUndefined] when the property is missing. *)
Record Body : Type := mkBody { userId : JsValue; message : JsValue }.

(** What reaches the application: a request the body parsers refused
    (malformed JSON, a body over the size limit), with the error they
    passed on, or a request with its [req.body], which is undefined
    ([None]) when no parser filled it in. *)
Inductive Request : Type :=
| Refused (error : JsError)
| Delivered (body : option Body).

Inductive Json : Type :=
| ErrorJson (error : string) (message : option string)
| ChatJson (response : string) (timestamp : Z) (userId : JsValue).

Record Response : Type := mkResponse { status : nat; json : Json }.

(** [const { userId, message } = req.body] on an undefined body. *)
Definition destructuring_error : JsError :=
  mkError (Some "Cannot destructure property 'userId' of 'req.body' as it is undefined.").

Section Routes.
Variable E : Env.
Variable P : Persona.
(** [process.env.NODE_ENV === 'development'] *)
Variable development : bool.
(** The handler does not check that [userId] is a string.  What the log
    line and [chatbot.chat] do with another truthy value (it goes into the
    store's filters as it is) is left open: any computation. *)
Variable chat_other : JsValue -> string -> M string.

Definition chatbot_chat (userId : JsValue) (message : string) : M string :=
  match userId with
  | JStr uid => Chatbot.chat E P uid message
  | _ => chat_other userId message
  end.

Definition post_api_chat (body : option Body) : M Response :=
  try (
    match body with
    | None => throw destructuring_error
    | Some body =>
        if negb (truthy (userId body)) || negb (truthy (message body)) then
          ret (mkResponse 400
                 (ErrorJson "Missing required fields"
                            (Some "Both userId and message are required")))
        else
          match message body with
          | JStr msg =>
              if Nat.eqb (Text.length (Text.trim msg)) 0 then
                ret (mkResponse 400
                       (ErrorJson "Invalid message"
                                  (Some "Message must be a non-empty string")))
              else if Nat.ltb 500 (Text.length msg) then
                ret (mkResponse 400
                       (ErrorJson "Message too long"
                                  (Some "Message must be 500 characters or less")))
              else
                response <- chatbot_chat (userId body) (Text.trim msg) ;;
                timestamp <- newDate E ;;
                ret (mkResponse 200 (ChatJson response timestamp (userId body)))
          | _ =>
              ret (mkResponse 400
                     (ErrorJson "Invalid message"
                                (Some "Message must be a non-empty string")))
          end
    end
  ) catch (fun error =>
    ret (mkResponse 500
           (ErrorJson "Internal server error"
                      (Some "Something went wrong processing your message")))).

(** The global error handler, [app.use((err, req, res, next) => ...)]. *)
Definition error_handler (err : JsError) : M Response :=
  ret (mkResponse 500
         (ErrorJson "Internal server error"
                    (if development then Store.message err
                     else Some "Something went wrong"))).

(** A [POST /api/chat] request, from the body parsers on. *)
Definition app_post_api_chat (req : Request) : M Response :=
  match req with
  | Refused err => error_handler err
  | Delivered body => post_api_chat body
  end.
End Routes.

End Server.

(** ** Concrete environments, for running the code on examples *)

Module Scenario.
Import JsString Store Personality Memory.

(** A [chat] that throws at once when its [userId] is not a string. *)
Definition chat_refuses (userId : Server.JsValue) (message : string) : M string :=
  throw (mkError (Some "userId is not a string")).

(** Two servers that sort newest first, by insertion.  Among messages of
    the same millisecond the first puts the document stored later in
    front ([later_first = true]), the second the document stored earlier. *)
Fixpoint insert_newest_first (later_first : bool) (m : Message.t) (l : list Message.t)
  : list Message.t :=
  match l with
  | [] => [m]
  | x :: l' =>
      if (if later_first
          then (Message.timestamp x <? Message.timestamp m)%Z
          else (Message.timestamp x <=? Message.timestamp m)%Z)
      then m :: l
      else x :: insert_newest_first later_first m l'
  end.

Fixpoint insertion_sort (later_first : bool) (l : list Message.t) : list Message.t :=
  match l with
  | [] => []
  | m :: l' => insert_newest_first later_first m (insertion_sort later_first l')
  end.

(** The store never fails, the clock advances one millisecond per
    effect, and the model answers [reply]. *)
Definition calm (reply : string) : Env := {|
  fault := fun _ => None;
  clock := fun n => (1000 + Z.of_nat n)%Z;
  uuid := fun n => "uuid-" +:+ num_to_string (Z.of_nat n);
  completion := fun _ _ => inr reply;
  sort_newest_first := insertion_sort true
|}.

(** As [calm], on a server that breaks ties the other way. *)
Definition calm_ties_oldest_first (reply : string) : Env := {|
  fault := fun _ => None;
  clock := clock (calm reply);
  uuid := uuid (calm reply);
  completion := completion (calm reply);
  sort_newest_first := insertion_sort false
|}.

(** Another day on another server: other dates, other identifiers,
    another reply, ties kept in storage order. *)
Definition another_day (reply : string) : Env := {|
  fault := fun _ => None;
  clock := fun n => (86400000 + 7 * Z.of_nat n)%Z;
  uuid := fun n => "id-" +:+ num_to_string (Z.of_nat (2 * n));
  completion := fun _ _ => inr reply;
  sort_newest_first := insertion_sort false
|}.

(** As [calm], but the model call fails with [error]. *)
Definition model_down (error : JsError) : Env := {|
  fault := fun _ => None;
  clock := clock (calm EmptyString);
  uuid := uuid (calm EmptyString);
  completion := fun _ _ => inl error;
  sort_newest_first := insertion_sort true
|}.


(** As [calm], but the store call made at tick [n] fails. *)
Definition store_down_at (n : nat) (reply : string) : Env := {|
  fault := fun k => if Nat.eqb k n then Some (mkError (Some "connection timed out")) else None;
  clock := clock (calm reply);
  uuid := uuid (calm reply);
  completion := completion (calm reply);
  sort_newest_first := insertion_sort true
|}.

Definition empty_world : World := mkWorld (mkDb ∅ []) 0 [].

(** The world after running [m] from [w], and its answer. *)
Definition world_after {A} (m : M A) (w : World) : World := snd (m w).
Definition answer {A} (m : M A) (w : World) : JsError + A := fst (m w).

End Scenario.

(** ** Statement-side definitions *)

Module Spec.
Import JsString Regex Store Personality Memory.

(** [text] contains one of the words [ws] as a substring. *)
Definition mentions (ws : list string) (text : string) : bool :=
  existsb (includes text) ws.

(** Tone detection as the specification words it: four ordered
    categories decided by keyword membership in the lowered message,
    plus two consecutive exclamation marks for the second. *)
Definition detectTone_spec (message : string) : string :=
  let lowered := toLowerCase message in
  if mentions sad_words lowered then "sad"
  else if mentions excited_words lowered || includes message "!!" then "excited"
  else if mentions angry_words lowered then "angry"
  else "neutral".

(** No upper-case letter occurs in [s]. *)
Fixpoint no_upper (s : string) : bool :=
  match s with
  | EmptyString => true
  | String c s' => negb (is_upper c) && no_upper s'
  end.

(** The Prompt Builder of a turn: the system prompt followed by the
    tone suffix, as [chat] assembles them. *)
Definition promptBuilder (P : Persona) (context : Context.t) (tone : string) : string :=
  buildSystemPrompt P context +:+ getToneInstructions tone.

(** Two contexts that agree on the six fields [buildSystemPrompt] reads. *)
Definition same_snapshot (c1 c2 : Context.t) : Prop :=
  Context.userName c1 = Context.userName c2 /\
  Context.userAge c1 = Context.userAge c2 /\
  Context.userLocation c1 = Context.userLocation c2 /\
  Context.interests c1 = Context.interests c2 /\
  Context.preferences c1 = Context.preferences c2 /\
  Context.facts c1 = Context.facts c2.

(** How [buildConversationHistory] relabels one stored message. *)
Definition relabelled (msg : Message.t) (t : Turn) : Prop :=
  (Message.role msg = "user" -> role t = "user") /\
  (Message.role msg <> "user" -> role t = "model") /\
  parts t = [mkPart (Message.content msg)].

(** The request [chat] sends to the completion API for a context. *)
Definition request (P : Persona) (context : Context.t) (userMessage : string)
  : list ChatMessage :=
  (GroqAdapter.startChat
     (buildConversationHistory (Some (Context.recentMessages context)))
     (promptBuilder P context (detectTone userMessage))
   ++ [mkChatMessage "user" userMessage])%list.

(** The requests made to the completion API, oldest first. *)
Definition completions (evs : list Event) : list (list ChatMessage) :=
  flat_map (fun ev => match ev with CompletionsCreate messages => [messages] | _ => [] end)
           evs.

(** A computation that makes no request to the completion API. *)
Definition calls_no_model {A} (m : M A) : Prop :=
  forall w, completions (trace (snd (m w))) = completions (trace w).

(** Store calls that persist a message or change a profile, as opposed
    to reads, the lazy creation of a profile and the refresh of
    [lastActive]. *)
Definition persists (ev : Event) : bool :=
  match ev with
  | ConversationsInsertOne _ => true
  | UsersUpdateOne _ (SetProfile _ _) => true
  | UsersUpdateOne _ (PushFact _ _) => true
  | UsersUpdateOne _ (IncTotalMessages _) => true
  | _ => false
  end.

(** A user document before and after an operation that may only create
    it with the default profile or refresh its [lastActive]. *)
Definition same_profile (o o' : option User.t) : Prop :=
  match o, o' with
  | Some u, Some u' =>
      User.profile u' = User.profile u /\
      User.totalMessages u' = User.totalMessages u /\
      User.createdAt u' = User.createdAt u
  | None, Some u' => User.profile u' = empty_profile /\ User.totalMessages u' = 0%Z
  | None, None => True
  | Some _, None => False
  end.

Definition bookkeeping_only (d d' : Db) : Prop :=
  conversations d' = conversations d /\
  forall k, same_profile (users d !! k) (users d' !! k).

(** The world [w'] is [w] after some effects, none of which persists. *)
Definition nothing_persisted (w w' : World) : Prop :=
  bookkeeping_only (db w) (db w') /\
  exists evs, trace w' = (trace w ++ evs)%list /\ existsb persists evs = false.

(** The four replies of [getErrorResponse]. *)
Definition apology_configuration : string :=
  "Oops! There's an issue with my configuration. Let me know and I'll get it fixed!".
Definition apology_rate_limit : string :=
  "Whoa, I've been chatting a lot today! Give me a moment to catch my breath. 😅".
Definition apology_network : string :=
  "Hmm, seems like I'm having trouble connecting. Can you try again in a sec?".
Definition apology_generic : string :=
  "Sorry, I got a bit confused there. Mind rephrasing that?".

(** The reply by category of error: a configuration problem first, then
    rate limiting, then the network, then anything else. *)
Definition apology_for (error : JsError) : string :=
  if Chatbot.message_includes error "API key" then apology_configuration
  else if Chatbot.message_includes error "quota"
          || Chatbot.message_includes error "rate limit" then apology_rate_limit
  else if Chatbot.message_includes error "network" then apology_network
  else apology_generic.

(** The stored profile of a user, [None] when there is no document. *)
Definition stored_profile (w : World) (userId : string) : option Profile.t :=
  User.profile <$> users (db w) !! userId.

(** The identity fields of [p] that hold a truthy value (a non-empty
    string, a non-zero number) are the same in [p']. *)
Definition keeps (p p' : Profile.t) : Prop :=
  (truthy_str (Profile.name p) = true -> Profile.name p' = Profile.name p) /\
  (truthy_num (Profile.age p) = true -> Profile.age p' = Profile.age p) /\
  (truthy_str (Profile.location p) = true -> Profile.location p' = Profile.location p).

(** The facts stored for a user; none when there is no document. *)
Definition stored_facts (w : World) (userId : string) : list string :=
  Profile.facts (default empty_profile (stored_profile w userId)).

(** Messages whose timestamps strictly increase in list order. *)
Definition older (a b : Message.t) : Prop :=
  (Message.timestamp a < Message.timestamp b)%Z.

End Spec.

(** ** The health check and the read-only routes *)

Module Health.
Import JsString Store Personality Memory.

(** [GroqAdapter.generateContent(prompt)]: one user message, no history. *)
Definition generateContent (E : Env) (prompt : string) : M string :=
  try (completions_create E [mkChatMessage "user" prompt])
  catch (fun error => throw error).

(** The object [getHealth] returns; [error] is [error.message]. *)
Record t : Type := mk {
  status : string;
  aiConnected : bool;
  error : option string;
  message : string
}.

(** [Chatbot.getHealth()]. *)
Definition getHealth (E : Env) : M t :=
  try (
    testResult <- generateContent E "Hello" ;;
    ret (mk "healthy" true None "All systems operational")
  ) catch (fun error =>
    ret (mk "unhealthy" false (Store.message error) "Groq API connection failed")).

End Health.

Module Routes.
Import JsString Store Personality Memory.







Inductive Json : Type :=
| ErrorJson (error : string) (message : option string)
| UserJson (profile : Profile.t) (stats : Stats.t)
| HistoryJson (userId : string) (messageCount : nat) (messages : list Message.t)
| HealthJson (status : string) (timestamp : Z) (gemini : option Health.t).

Record Response : Type := mkResponse { status : nat; json : Json }.

Section Handlers.
Variable E : Env.

(** [GET /api/user/:userId]. *)
Definition get_user (userId : string) : M Response :=
  try (
    if negb (truthy_str (Some userId)) then
      ret (mkResponse 400 (ErrorJson "Missing userId" (Some "userId parameter is required")))
    else
      user <- getUser E userId ;;
      stats <- getUserStats E userId ;;
      ret (mkResponse 200 (UserJson (User.profile user) stats))
  ) catch (fun error =>
    ret (mkResponse 500
           (ErrorJson "Internal server error" (Some "Could not retrieve user data")))).


(** [GET /api/health]; [chatbot] is unset until [initialize] is through:
    [ready = false]. *)
Definition get_health (ready : bool) : M Response :=
  try (
    health <- (if ready then h <- Health.getHealth E ;; ret (Some h) else ret None) ;;
    timestamp <- newDate E ;;
    ret (mkResponse 200 (HealthJson "ok" timestamp health))
  ) catch (fun error =>
    ret (mkResponse 500 (ErrorJson "error" (Store.message error)))).

End Handlers.

End Routes.

(** ** What a turn may do to the store *)

Module Effect.
Import JsString Regex Store Personality Memory.

(** The number of stored messages of a user. *)
Definition count_for (userId : string) (ms : list Message.t) : Z :=
  Z.of_nat (length (List.filter (of_user userId) ms)).

(** A user document before and after [n] messages were stored for the
    user: it is never deleted, its creation date stays, and its counter
    moved up by at most [n] (from 0 when the document is new). *)
Definition counter_step (n : nat) (o o' : option User.t) : Prop :=
  match o, o' with
  | Some u, Some u' =>
      (User.totalMessages u <= User.totalMessages u' <= User.totalMessages u + Z.of_nat n)%Z /\
      User.createdAt u' = User.createdAt u
  | None, Some u' => (0 <= User.totalMessages u' <= Z.of_nat n)%Z
  | None, None => True
  | Some _, None => False
  end.

(** Between [d] and [d'] the messages [new] were stored for [userId] and
    nothing else happened to the messages or to the other users. *)
Definition adds (userId : string) (new : list Message.t) (d d' : Db) : Prop :=
  conversations d' = (conversations d ++ new)%list /\
  (forall k, k <> userId -> users d' !! k = users d !! k) /\
  counter_step (length new) (users d !! userId) (users d' !! userId).

(** The messages a turn of [userId] can leave behind: none, the user
    message alone, or the user message followed by an assistant message. *)
Definition turn_messages (userId userMessage : string) (new : list Message.t) : Prop :=
  new = [] \/
  (exists mu, new = [mu] /\ Message.userId mu = userId /\
              Message.role mu = "user" /\ Message.content mu = userMessage) \/
  (exists mu ma, new = [mu; ma] /\
              Message.userId mu = userId /\ Message.role mu = "user" /\
              Message.content mu = userMessage /\
              Message.userId ma = userId /\ Message.role ma = "assistant").

(** No profile counts more messages than are stored for its user. *)
Definition counters_bounded (d : Db) : Prop :=
  forall k u, users d !! k = Some u ->
    (User.totalMessages u <= count_for k (conversations d))%Z.


(** The messages of [userId] among [ms]. *)
Definition messages_of (userId : string) (ms : list Message.t) : list Message.t :=
  List.filter (of_user userId) ms.

End Effect.

(** ** Extraction, field by field *)

Module Learn.
Import JsString Regex Store Personality Memory.

(** What each of the five rules makes of the field it owns. *)
Definition next_name (message : string) (name : option string) : option string :=
  match js_match true patterns.name message with
  | Some g => if truthy_str name then name else Some (toUpperCase (charAt0 g) +:+ slice1 g)
  | None => name
  end.

Definition next_age (message : string) (age : option Z) : option Z :=
  match js_match true patterns.age message with
  | Some g => if truthy_num age then age else Some (parseInt g)
  | None => age
  end.

Definition next_location (message : string) (location : option string) : option string :=
  match js_match true patterns.location message with
  | Some g => if truthy_str location then location else Some (trim g)
  | None => location
  end.

Definition next_preferences (message : string) (preferences : list (string * string))
  : list (string * string) :=
  match js_match true patterns.favoriteColor message with
  | Some g => obj_set "favoriteColor" g preferences
  | None => preferences
  end.

Definition next_interests (message : string) (interests : list string) : list string :=
  match js_match true patterns.hobby message with
  | Some g => if array_includes interests (trim g) then interests
              else (interests ++ [trim g])%list
  | None => interests
  end.

(** The profile after one message. *)
Definition learn (message : string) (p : Profile.t) : Profile.t :=
  Profile.mk (next_name message (Profile.name p))
             (next_age message (Profile.age p))
             (next_location message (Profile.location p))
             (next_interests message (Profile.interests p))
             (next_preferences message (Profile.preferences p))
             (Profile.facts p).

End Learn.

(** ** A store with two users, for examples *)

Module Fixture.
Import Store Memory.

Definition alice : User.t :=
  User.mk "u1" 0 0 (Profile.mk (Some "Alice") None None [] [] ["Loves cricket"]) 0 1.
Definition bob : User.t := User.mk "u2" 5 5 empty_profile 0 1.

Definition two_users : World :=
  mkWorld (mkDb (<["u1" := alice]> {["u2" := bob]})
                [Message.mk "a" "u1" "user" "hi" 1; Message.mk "b" "u2" "user" "yo" 2])
          0 [].

End Fixture.

(** ** The connection handler ([database.js]) *)

Module Database.
Import JsString Store.

(** [new MongoClient(uri, ...)]: clients are told apart by the order
    in which they were created. *)
Record MongoClient : Type := mkClient { uri : string; serial : nat }.

(** [client.db(name)]. *)
Record Handle : Type := mkHandle { of_client : MongoClient; databaseName : string }.

Inductive Call : Type :=
| Connect (c : MongoClient)
| Ping (d : Handle)
| CreateIndex (d : Handle) (collection : string)
| Close (c : MongoClient).

(** The module-level variables [db] and [client], and what the module
    has done so far. *)
Record State : Type := mkState {
  db : option Handle;
  client : option MongoClient;
  created : nat;           (* clients constructed so far *)
  tick : nat;              (* server calls made so far *)
  calls : list Call
}.

Record Env : Type := mkEnv {
  (* [process.env.MONGODB_URI] *)
  MONGODB_URI : option string;
  (* the constructor rejects this connection string *)
  rejects : string -> option JsError;
  (* the server call made at this tick fails with this error *)
  fails : nat -> option JsError
}.

Definition initial : State := mkState None None 0 0 [].

Definition server_call (E : Env) (c : Call) (s : State) : (JsError + unit) * State :=
  let s' := mkState (db s) (client s) (created s) (S (tick s)) (calls s ++ [c]) in
  match fails E (tick s) with
  | Some error => (inl error, s')
  | None => (inr tt, s')
  end.

Definition createIndexes (E : Env) (d : Handle) (s : State) : unit * State :=
  match server_call E (CreateIndex d "users") s with
  | (inl error, s1) => (tt, s1)
  | (inr _, s1) =>
      match server_call E (CreateIndex d "conversations") s1 with
      | (_, s2) => (tt, s2)
      end
  end.

Definition connectDB (E : Env) (s : State) : (JsError + Handle) * State :=
  match db s with
  | Some d => (inr d, s)
  | None =>
      if negb (truthy_str (MONGODB_URI E)) then
        (inl (mkError (Some "MONGODB_URI is not defined in .env file")), s)
      else
        let uri := default EmptyString (MONGODB_URI E) in
        match rejects E uri with
        | Some error => (inl error, s)
        | None =>
            let c := mkClient uri (created s) in
            let s1 := mkState (db s) (Some c) (S (created s)) (tick s) (calls s) in
            match server_call E (Connect c) s1 with
            | (inl error, s2) => (inl error, s2)
            | (inr _, s2) =>
                let d := mkHandle c "chatbot" in
                let s3 := mkState (Some d) (client s2) (created s2) (tick s2) (calls s2) in
                match server_call E (Ping d) s3 with
                | (inl error, s4) => (inl error, s4)
                | (inr _, s4) =>
                    match createIndexes E d s4 with
                    | (_, s5) => (inr d, s5)
                    end
                end
            end
        end
  end.

Definition closeDB (E : Env) (s : State) : unit * State :=
  match client s with
  | Some c =>
      match server_call E (Close c) s with
      | (inl error, s1) => (tt, s1)
      | (inr _, s1) => (tt, mkState None None (created s1) (tick s1) (calls s1))
      end
  | None => (tt, s)
  end.

Definition getDB (s : State) : JsError + Handle :=
  match db s with
  | None => inl (mkError (Some "Database not connected. Call connectDB() first."))
  | Some d => inr d
  end.

(** The server answers every call. *)
Definition Reachable (E : Env) : Prop := forall n, fails E n = None.

(** An environment for examples: the URI is set and the call made at
    tick [n] fails. *)
Definition failing_at (n : nat) : Env :=
  mkEnv (Some "mongodb://localhost") (fun _ => None)
        (fun k => if Nat.eqb k n then Some (mkError (Some "timed out")) else None).

Definition reachable : Env :=
  mkEnv (Some "mongodb://localhost") (fun _ => None) (fun _ => None).

End Database.

(** ** The page ([public/script.js]) *)

Module Script.
Import JsString.

(** One entry of the array kept under [balu_chat_history]. *)
Record Item : Type := mkItem { message : string; isUser : bool; time : Z }.

(** What the page shows of a message, and what it keeps of it. *)
Definition shown (i : Item) : string * bool := (message i, isUser i).

(** The page: the stored history ([None] while the key is absent; the
    key is only ever written by [saveMessage], as the JSON text of an
    array of items), the messages on display, and the number of clock
    readings so far. *)
Record Page : Type := mkPage {
  history : option (list Item);
  messagesArea : list (string * bool);
  tick : nat
}.

(** [array.slice(-n)] *)
Definition slice_last {A : Type} (n : nat) (l : list A) : list A :=
  skipn (length l - n) l.

Section Clock.
Variable clock : nat -> Z.

Definition saveMessage (msg : string) (isUser : bool) (p : Page) : Page :=
  let history0 := default [] (history p) in
  let history1 := (history0 ++ [mkItem msg isUser (clock (tick p))])%list in
  let history2 := if (50 <? length history1)%nat then slice_last 50 history1 else history1 in
  mkPage (Some history2) (messagesArea p) (S (tick p)).

Definition addMessage (text : string) (isUser : bool) (p : Page) : Page :=
  saveMessage text isUser
    (mkPage (history p) (messagesArea p ++ [(text, isUser)])%list (tick p)).

(** [history.forEach(item => addMessage(item.message, item.isUser))] *)
Definition replay (l : list Item) (p : Page) : Page :=
  fold_left (fun page item => addMessage (message item) (isUser item) page) l p.

Definition loadHistory (p : Page) : Page :=
  let history0 := default [] (history p) in
  if (0 <? length history0)%nat then
    replay history0 (mkPage (history p) [] (tick p))
  else p.

Definition clearChat (confirm : bool) (p : Page) : Page :=
  if confirm then
    addMessage "Hi! I'm Balu. How can I help you today?" false (mkPage None [] (tick p))
  else p.

End Clock.

(** The stored history, as the page would show it. *)
Definition stored (p : Page) : list (string * bool) :=
  map shown (default [] (history p)).

End Script.

(** ** Sequences of operations *)

Module Sessions.
Import JsString.

(** What the server process does with the connection handler. *)
Inductive DbOp : Type := OpConnect | OpClose.

Definition db_step (E : Database.Env) (s : Database.State) (op : DbOp) : Database.State :=
  match op with
  | OpConnect => snd (Database.connectDB E s)
  | OpClose => snd (Database.closeDB E s)
  end.

Definition db_run (E : Database.Env) (ops : list DbOp) : Database.State :=
  fold_left (db_step E) ops Database.initial.

(** The handle, when there is one, is the database [chatbot] of the
    current client, and the current client was counted. *)
Definition db_consistent (s : Database.State) : Prop :=
  (forall d, Database.db s = Some d ->
             Database.client s = Some (Database.of_client d) /\
             Database.databaseName d = "chatbot") /\
  (forall c, Database.client s = Some c -> Database.serial c < Database.created s).

(** What the user does with the page. *)
Inductive PageOp : Type :=
| OpAdd (text : string) (isUser : bool)
| OpLoad
| OpClear (confirm : bool).

Definition page_step (clock : nat -> Z) (p : Script.Page) (op : PageOp) : Script.Page :=
  match op with
  | OpAdd text isUser => Script.addMessage clock text isUser p
  | OpLoad => Script.loadHistory clock p
  | OpClear confirm => Script.clearChat clock confirm p
  end.

Definition page_run (clock : nat -> Z) (ops : list PageOp) (p : Script.Page) : Script.Page :=
  fold_left (page_step clock) ops p.

End Sessions.

(** * Properties *)

(** ** Characters and substrings *)

Ltac bool_hyps :=
  repeat match goal with
    | H : (_ && _) = true |- _ => apply andb_true_iff in H; destruct H
    | H : (_ && _) = false |- _ => apply andb_false_iff in H; destruct H
    | H : (_ || _) = true |- _ => apply orb_true_iff in H; destruct H
    | H : (_ || _) = false |- _ => apply orb_false_iff in H; destruct H
    | H : (_ <=? _)%N = true |- _ => apply N.leb_le in H
    | H : (_ <=? _)%N = false |- _ => apply N.leb_gt in H
    | H : (_ =? _)%N = true |- _ => apply N.eqb_eq in H
    | H : (_ =? _)%N = false |- _ => apply N.eqb_neq in H
    end.

Section Characters.
Import JsString Regex Spec.

Lemma code_inj (a b : ascii) : code a = code b -> a = b.
Proof.
  unfold code. intros H.
  rewrite <- (ascii_N_embedding a), <- (ascii_N_embedding b). now rewrite H.
Qed.

Lemma code_bound (a : ascii) : (code a < 256)%N.
Proof. apply N_ascii_bounded. Qed.

Lemma code_ascii_of_N (n : N) : (n < 256)%N -> code (ascii_of_N n) = n.
Proof. apply N_ascii_embedding. Qed.

Lemma is_upper_range (c : ascii) :
  is_upper c = ((65 <=? code c)%N && (code c <=? 90)%N).
Proof. reflexivity. Qed.

Lemma is_lower_range (c : ascii) :
  is_lower c = ((97 <=? code c)%N && (code c <=? 122)%N).
Proof. reflexivity. Qed.

Lemma code_upper_char (c : ascii) :
  code (upper_char c) = if is_lower c then (code c - 32)%N else code c.
Proof.
  unfold upper_char. destruct (is_lower c); [|reflexivity].
  apply code_ascii_of_N. pose proof (code_bound c). lia.
Qed.

Lemma code_lower_char (c : ascii) :
  code (lower_char c) = if is_upper c then (code c + 32)%N else code c.
Proof.
  unfold lower_char. destruct (is_upper c) eqn:Hu; [|reflexivity].
  apply code_ascii_of_N. rewrite is_upper_range in Hu. bool_hyps. lia.
Qed.

Lemma lower_char_not_upper (c : ascii) : is_upper (lower_char c) = false.
Proof.
  rewrite is_upper_range, code_lower_char.
  destruct (is_upper c) eqn:Hu; rewrite is_upper_range in Hu; bool_hyps;
    apply andb_false_iff; rewrite !N.leb_gt; lia.
Qed.

Lemma toLowerCase_no_upper (s : string) : no_upper (toLowerCase s) = true.
Proof.
  induction s as [|c s IH]; simpl; [reflexivity|].
  now rewrite lower_char_not_upper, IH.
Qed.

(** Without upper-case letters on either side, comparing under the [i]
    flag is comparing. *)
Lemma COne_ci_exact (a b : ascii) :
  is_upper a = false -> is_upper b = false ->
  cls_mem true (COne a) b = (code a =? code b)%N.
Proof.
  intros Ha Hb. simpl. rewrite !code_upper_char.
  rewrite is_upper_range in Ha, Hb.
  destruct (is_lower a) eqn:La, (is_lower b) eqn:Lb;
    rewrite is_lower_range in La, Lb; bool_hyps;
    match goal with
    | |- (?x =? ?y)%N = (?u =? ?v)%N =>
        destruct (N.eqb_spec x y), (N.eqb_spec u v)
    end; try reflexivity; exfalso; lia.
Qed.

End Characters.

(** ** The keyword expressions of [detectTone] *)

Section Keywords.
Import JsString Regex Spec Personality.

Lemma strip_startsWith (w s : string) :
  no_upper w = true -> no_upper s = true ->
  found (strip true w s) = startsWith w s.
Proof.
  revert s. induction w as [|a w IH]; intros s Hw Hs; [reflexivity|].
  destruct s as [|b s]; [reflexivity|].
  cbn [no_upper] in Hw, Hs.
  apply andb_true_iff in Hw as [Ha Hw], Hs as [Hb Hs].
  apply negb_true_iff in Ha, Hb.
  cbn [strip startsWith]. rewrite (COne_ci_exact a b Ha Hb).
  destruct (code a =? code b)%N; [now apply IH | reflexivity].
Qed.

(** An alternation of literals, followed by something that cannot
    fail, matches exactly when one of the literals is a prefix. *)
Lemma rmatch_alts {R} ci (w : string) (ws : list string) s cap
      (k : string -> option string -> option R) :
  (forall rest c, found (k rest c) = true) ->
  found (rmatch ci (alts (w :: ws)) s cap k)
  = existsb (fun w => found (strip ci w s)) (w :: ws).
Proof.
  intros Hk. revert w. induction ws as [|w' ws IH]; intros w.
  - cbn. destruct (strip ci w s); cbn; [apply Hk | reflexivity].
  - change (alts (w :: w' :: ws)) with (Alt (Lit w) (alts (w' :: ws))).
    cbn [rmatch existsb]. destruct (strip ci w s) as [rest|] eqn:Hs; cbn [found orb].
    + specialize (Hk rest cap). destruct (k rest cap); [reflexivity | discriminate].
    + apply IH.
Qed.

Lemma match_here_words ci (w : string) (ws : list string) s :
  found (match_here ci (Cap (alts (w :: ws))) s)
  = existsb (fun w => found (strip ci w s)) (w :: ws).
Proof. unfold match_here. cbn [rmatch]. now apply rmatch_alts. Qed.

Lemma js_test_unfold ci r s :
  js_test ci r s =
  found (match_here ci r s) ||
  match s with
  | String _ s' => js_test ci r s'
  | EmptyString => false
  end.
Proof.
  unfold js_test. destruct s; cbn [js_match];
    destruct (match_here ci r _); reflexivity.
Qed.

Lemma includes_unfold hay needle :
  includes hay needle =
  startsWith needle hay ||
  match hay with
  | String _ hay' => includes hay' needle
  | EmptyString => false
  end.
Proof. destruct hay; reflexivity. Qed.

Lemma existsb_or {A} (f g : A -> bool) l :
  existsb (fun x => f x || g x) l = existsb f l || existsb g l.
Proof.
  induction l as [|x l IH]; cbn; [reflexivity|]. rewrite IH.
  destruct (f x), (g x), (existsb f l), (existsb g l); reflexivity.
Qed.

Lemma existsb_pointwise {A} (f g : A -> bool) l :
  (forall x, f x = g x) -> existsb f l = existsb g l.
Proof. intros H. induction l as [|x l IH]; cbn; [reflexivity|]. now rewrite H, IH. Qed.

Lemma existsb_strip (ws : list string) s :
  forallb no_upper ws = true -> no_upper s = true ->
  existsb (fun w => found (strip true w s)) ws = existsb (fun w => startsWith w s) ws.
Proof.
  intros Hws Hs. induction ws as [|w ws IH]; [reflexivity|].
  cbn in Hws. apply andb_true_iff in Hws as [Hw Hws].
  cbn [existsb]. now rewrite strip_startsWith, IH.
Qed.

(** The regular expression test is the substring test of the words. *)
Lemma js_test_words (w : string) (ws : list string) s :
  forallb no_upper (w :: ws) = true -> no_upper s = true ->
  js_test true (Cap (alts (w :: ws))) s = mentions (w :: ws) s.
Proof.
  intros Hws. induction s as [|c s IH]; intros Hs.
  - rewrite js_test_unfold, match_here_words, existsb_strip by assumption.
    unfold mentions. rewrite orb_false_r.
    apply existsb_pointwise. intros x. now rewrite includes_unfold, orb_false_r.
  - rewrite js_test_unfold, match_here_words, existsb_strip by assumption.
    cbn [no_upper] in Hs. apply andb_true_iff in Hs as [_ Hs].
    rewrite (IH Hs). unfold mentions. rewrite <- existsb_or.
    apply existsb_pointwise. intros x. now rewrite (includes_unfold (String c s)).
Qed.

Lemma rep_zero_found {R} ci k s (cont : string -> option R) :
  (forall rest, found (cont rest) = true) -> found (rep ci k 0 s cont) = true.
Proof.
  intros Hc. destruct s as [|c s]; cbn; [apply Hc|].
  destruct (cls_mem ci k c); [|apply Hc].
  destruct (rep ci k 0 s cont); [reflexivity | apply Hc].
Qed.

Lemma match_here_bangs s :
  found (match_here false bangs_re s) = startsWith "!!" s.
Proof.
  unfold match_here, bangs_re. cbn [rmatch].
  destruct s as [|a [|b s]]; cbn [rep startsWith Nat.eqb Nat.pred cls_mem].
  - reflexivity.
  - rewrite N.eqb_sym. destruct (code "!" =? code a)%N; reflexivity.
  - rewrite (N.eqb_sym (code a)), (N.eqb_sym (code b)).
    destruct (code "!" =? code a)%N; [|reflexivity].
    destruct (code "!" =? code b)%N; [|reflexivity].
    cbn [andb].
    pose proof (rep_zero_found false (COne "!") s
                  (fun rest => Some (default EmptyString (@None string)))
                  (fun _ => eq_refl)) as H.
    destruct (rep false (COne "!") 0 s _); [reflexivity | discriminate].
Qed.

Lemma js_test_bangs s : js_test false bangs_re s = includes s "!!".
Proof.
  induction s as [|c s IH].
  - reflexivity.
  - rewrite js_test_unfold, match_here_bangs, IH.
    now rewrite (includes_unfold (String c s)).
Qed.

(** The code decides the tone as the specification says. *)
Lemma detectTone_refines (message : string) :
  detectTone message = detectTone_spec message.
Proof.
  unfold detectTone, detectTone_spec, sad_re, excited_re, angry_re.
  unfold sad_words, excited_words, angry_words.
  rewrite !js_test_words, js_test_bangs;
    auto using toLowerCase_no_upper.
Qed.

End Keywords.

(** ** personality.js *)

Section PersonalityFacts.
Import JsString Regex Spec Personality.

Lemma detectTone_spec_range (message : string) :
  In (detectTone_spec message) ["sad"; "excited"; "angry"; "neutral"].
Proof.
  unfold detectTone_spec.
  destruct (mentions sad_words _); [cbn; tauto|].
  destruct (_ || _); [cbn; tauto|].
  destruct (mentions angry_words _); cbn; tauto.
Qed.

Lemma relabel_each (msgs : list Message.t) :
  Forall2 relabelled msgs
    (map (fun msg =>
            {| role := if String.eqb (Message.role msg) "user" then "user" else "model";
               parts := [ {| text := Message.content msg |} ] |})
         msgs).
Proof.
  induction msgs as [|m msgs IH]; cbn [map]; constructor; [|exact IH].
  unfold relabelled. cbn [role parts].
  destruct (String.eqb_spec (Message.role m) "user") as [Hu|Hu]; repeat split;
    intros; congruence.
Qed.

End PersonalityFacts.

Import JsString Regex Store Personality Memory Spec.

(** C5. Tone detection is total and returns one of the four categories
    [sad], [excited], [angry], [neutral]; it decides them first match
    first, in that order, by keyword membership in the lowered message
    ([detectTone_spec]): a sad keyword gives [sad] whatever else matches,
    and, when none does, two consecutive exclamation marks give
    [excited].  The message "I'm so sad but also excited!!" is [sad]. *)
Theorem C5_detectTone_first_match_wins :
  (forall message, In (detectTone message) ["sad"; "excited"; "angry"; "neutral"]) /\
  (forall message, detectTone message = detectTone_spec message) /\
  (forall message,
      mentions sad_words (toLowerCase message) = true -> detectTone message = "sad") /\
  (forall message,
      mentions sad_words (toLowerCase message) = false ->
      includes message "!!" = true -> detectTone message = "excited") /\
  detectTone "I'm so sad but also excited!!" = "sad".
Proof.
  split; [|split; [|split; [|split]]].
  - intros m. rewrite detectTone_refines. apply detectTone_spec_range.
  - apply detectTone_refines.
  - intros m H. rewrite detectTone_refines. unfold detectTone_spec. now rewrite H.
  - intros m H1 H2. rewrite detectTone_refines. unfold detectTone_spec.
    now rewrite H1, H2, orb_true_r.
  - reflexivity.
Qed.

(** C10. [buildConversationHistory] is total: [null], [undefined] and the
    empty list give the empty list; any other list gives a list of the
    same length and order in which a [user] message stays [user], any
    other role becomes [model], and the content is carried over verbatim. *)
Theorem C10_buildConversationHistory_total :
  buildConversationHistory None = [] /\
  buildConversationHistory (Some []) = [] /\
  (forall msgs, length (buildConversationHistory (Some msgs)) = length msgs) /\
  (forall msgs, Forall2 relabelled msgs (buildConversationHistory (Some msgs))).
Proof.
  split; [reflexivity|]. split; [reflexivity|]. split.
  - intros [|m msgs]; [reflexivity|].
    unfold buildConversationHistory. now rewrite length_map.
  - intros [|m msgs]; [constructor|]. apply relabel_each.
Qed.

(** The measures of [Text] on the empty and on non-empty text. *)
Lemma chars_nonempty (c : ascii) (s : string) :
  exists d t rest, Text.chars (String c s) = String d t :: rest.
Proof.
  cbn [Text.chars]. destruct (Text.chars s) as [|[|d t] rest]; [eauto | eauto |].
  destruct (Text.is_continuation d); eauto.
Qed.

Lemma text_length_zero (s : string) : Text.length s = 0 -> s = EmptyString.
Proof.
  destruct s as [|c s]; [reflexivity|]. unfold Text.length.
  destruct (chars_nonempty c s) as (d & t & rest & ->).
  cbn [map list_sum Text.units]. destruct (240 <=? code d)%N; cbn; lia.
Qed.

(** C8. A request whose message is empty, only white space (Unicode
    white space and line terminators, as [trim] strips them), or longer
    than 500 characters (UTF-16 code units, as [length] counts them) is
    answered with status 400 before anything else happens, whatever its
    [userId] is: the world is left exactly as it was, so no store call, no
    clock read and no completion call was made.  A request that the body
    parsers refuse, as they do when the body is too large for them, does
    not reach the handler: the error handler answers it with status 500,
    and the world is again left exactly as it was. *)
Theorem C8_malformed_message_rejected
    (E : Env) (P : Persona) (development : bool)
    (chat_other : Server.JsValue -> string -> M string)
    (uid : Server.JsValue) (msg : string) (refusal : JsError) (w : World) :
  Text.trim msg = EmptyString \/ 500 < Text.length msg ->
  (exists error text,
      Server.app_post_api_chat E P development chat_other
        (Server.Delivered (Some (Server.mkBody uid (Server.JStr msg)))) w
      = (inr (Server.mkResponse 400 (Server.ErrorJson error (Some text))), w)) /\
  (exists text,
      Server.app_post_api_chat E P development chat_other (Server.Refused refusal) w
      = (inr (Server.mkResponse 500 (Server.ErrorJson "Internal server error" text)), w)).
Proof.
  intros H. split; [|eexists; reflexivity].
  cbn [Server.app_post_api_chat]. unfold Server.post_api_chat, try_catch, ret.
  cbn [Server.userId Server.message].
  destruct (negb (Server.truthy uid) || negb (Server.truthy (Server.JStr msg))).
  - eauto.
  - destruct (Nat.eqb (Text.length (Text.trim msg)) 0) eqn:Ht; [eauto|].
    destruct H as [H|H].
    + rewrite H in Ht. discriminate.
    + apply Nat.ltb_lt in H. rewrite H. eauto.
Qed.

(** C8 on a message of a space, a no-break space (U+00A0) and an
    ideographic space (U+3000). *)
Lemma C8_malformed_message_rejected_witness :
  let blank := " " +:+ Text.bytes [194; 160]%N +:+ Text.bytes [227; 128; 128]%N in
  let app := Server.app_post_api_chat (Scenario.calm "Hello!") BOT_PERSONALITY false
               Scenario.chat_refuses in
  (exists error text,
      app (Server.Delivered (Some (Server.mkBody (Server.JStr "u1") (Server.JStr blank))))
          Scenario.empty_world
      = (inr (Server.mkResponse 400 (Server.ErrorJson error (Some text))),
         Scenario.empty_world)) /\
  (exists text,
      app (Server.Refused (mkError (Some "request entity too large"))) Scenario.empty_world
      = (inr (Server.mkResponse 500 (Server.ErrorJson "Internal server error" text)),
         Scenario.empty_world)).
Proof.
  intros blank app.
  apply (C8_malformed_message_rejected (Scenario.calm "Hello!") BOT_PERSONALITY false
           Scenario.chat_refuses (Server.JStr "u1") blank
           (mkError (Some "request entity too large")) Scenario.empty_world).
  left. vm_compute. reflexivity.
Defined.

(** ** Running effects *)

Ltac world_simpl :=
  cbn [Store.db Store.tick Store.step Store.set_db Store.trace Store.users
       Store.conversations User.userId User.profile User.totalMessages
       User.createdAt User.lastActive] in *.

Section Runs.
Import JsString Store Memory Spec.
Variable E : Env.

Lemma try_rethrow {A} (m : M A) (w : World) :
  try_catch m (fun error => throw error) w = m w.
Proof. unfold try_catch, throw. now destruct (m w) as [[e|a] w']. Qed.

(** [same_profile] and the relations built on it are preorders. *)
Lemma same_profile_refl o : same_profile o o.
Proof. destruct o; cbn; auto. Qed.

Lemma same_profile_trans o1 o2 o3 :
  same_profile o1 o2 -> same_profile o2 o3 -> same_profile o1 o3.
Proof.
  destruct o1, o2, o3; cbn; try tauto; intuition congruence.
Qed.

Lemma bookkeeping_refl d : bookkeeping_only d d.
Proof. split; [reflexivity | intros k; apply same_profile_refl]. Qed.

Lemma bookkeeping_trans d1 d2 d3 :
  bookkeeping_only d1 d2 -> bookkeeping_only d2 d3 -> bookkeeping_only d1 d3.
Proof.
  intros [Hc1 Hu1] [Hc2 Hu2]. split; [congruence|].
  intros k. eapply same_profile_trans; eauto.
Qed.

Lemma nothing_persisted_refl w : nothing_persisted w w.
Proof.
  split; [apply bookkeeping_refl|]. exists []. now rewrite app_nil_r.
Qed.

Lemma nothing_persisted_trans w1 w2 w3 :
  nothing_persisted w1 w2 -> nothing_persisted w2 w3 -> nothing_persisted w1 w3.
Proof.
  intros [Hb1 (evs1 & Ht1 & He1)] [Hb2 (evs2 & Ht2 & He2)].
  split; [eapply bookkeeping_trans; eauto|].
  exists (evs1 ++ evs2)%list. split.
  - rewrite Ht2, Ht1. now rewrite <- app_assoc.
  - rewrite existsb_app, He1, He2. reflexivity.
Qed.

(** A step that leaves the data alone and logs a harmless event. *)
Lemma nothing_persisted_step w ev :
  match ev with Some e => persists e = false | None => True end ->
  nothing_persisted w (step ev w).
Proof.
  intros H. split; [apply bookkeeping_refl|]. destruct ev as [e|]; cbn.
  - exists [e]. split; [reflexivity|]. cbn. now rewrite H.
  - exists []. now rewrite app_nil_r.
Qed.

(** What [getUser] does to the world and what it returns. *)
Lemma getUser_spec uid w r w' :
  getUser E uid w = (r, w') ->
  nothing_persisted w w' /\
  (forall k, k <> uid -> users (db w') !! k = users (db w) !! k) /\
  (forall user, r = inr user ->
     exists u', users (db w') !! uid = Some u' /\
                User.profile u' = User.profile user /\
                User.totalMessages u' = User.totalMessages user).
Proof.
  unfold getUser. rewrite try_rethrow.
  unfold bind, users_findOne, users_insertOne, users_updateOne, store_call, newDate, ret.
  cbv zeta.
  destruct (fault E (tick w)) as [e0|] eqn:F0.
  { intros [= <- <-]. split; [now apply nothing_persisted_step|].
    split; [reflexivity | discriminate]. }
  world_simpl.
  destruct (users (db w) !! uid) as [u|] eqn:Hu;
    world_simpl.
  - destruct (fault E (S (S (tick w)))) as [e1|] eqn:F1; intros [= <- <-];
      world_simpl.
    + split; [|split; [reflexivity | discriminate]].
      split; [apply bookkeeping_refl|].
      eexists [_; _]. cbn. split; [now rewrite <- app_assoc | reflexivity].
    + split; [|split].
      * split.
        -- split; [reflexivity|]. intros k. world_simpl.
           destruct (decide (k = uid)) as [->|Hk].
           ++ rewrite lookup_alter_eq, Hu. cbn. auto.
           ++ rewrite lookup_alter_ne by congruence. apply same_profile_refl.
        -- eexists [_; _]. cbn. split; [now rewrite <- app_assoc | reflexivity].
      * intros k Hk. now rewrite lookup_alter_ne by congruence.
      * intros user [= <-]. rewrite lookup_alter_eq, Hu. cbn. eauto.
  - destruct (fault E (S (S (S (tick w))))) as [e1|] eqn:F1.
    + intros [= <- <-]. world_simpl.
      split; [|split; [reflexivity | discriminate]].
      split; [apply bookkeeping_refl|].
      eexists [_; _]. cbn. split; [now rewrite <- app_assoc | reflexivity].
    + rewrite Hu. intros [= <- <-].
      world_simpl.
      split; [|split].
      * split.
        -- split; [reflexivity|]. intros k. world_simpl.
           destruct (decide (k = uid)) as [->|Hk].
           ++ rewrite lookup_insert_eq, Hu. cbn. auto.
           ++ rewrite lookup_insert_ne by congruence. apply same_profile_refl.
        -- eexists [_; _]. cbn. split; [now rewrite <- app_assoc | reflexivity].
      * intros k Hk. now rewrite lookup_insert_ne by congruence.
      * intros user [= <-]. rewrite lookup_insert_eq. eauto.
Qed.

Lemma getUser_ok uid w :
  NoFault E -> exists user w', getUser E uid w = (inr user, w').
Proof.
  intros NF. unfold getUser. rewrite try_rethrow.
  unfold bind, users_findOne, users_insertOne, users_updateOne, store_call, newDate, ret.
  cbv zeta. rewrite !NF. world_simpl.
  destruct (users (db w) !! uid) as [u|] eqn:Hu; world_simpl; rewrite !NF.
  - eauto.
  - world_simpl. rewrite Hu. eauto.
Qed.

(** The stored profile of [uid] after a successful [getUser] is the
    profile of the document it returned, and is the one stored before
    when there was one. *)
Lemma getUser_profile uid w user w' :
  getUser E uid w = (inr user, w') ->
  stored_profile w' uid = Some (User.profile user) /\
  User.profile user = default empty_profile (stored_profile w uid).
Proof.
  intros H. pose proof (getUser_spec _ _ _ _ H) as ([[_ Hb] _] & _ & Hr).
  destruct (Hr user eq_refl) as (u' & Hu' & Hp & _).
  unfold stored_profile. rewrite Hu'. cbn. split; [now rewrite Hp|].
  specialize (Hb uid). rewrite Hu' in Hb.
  destruct (users (db w) !! uid) as [u|]; cbn in *.
  - destruct Hb as (Hb & _). congruence.
  - destruct Hb as (Hb & _). congruence.
Qed.

Lemma getConversationHistory_spec uid limit w r w' :
  getConversationHistory E uid limit w = (r, w') ->
  db w' = db w /\
  trace w' = (trace w ++ [ConversationsFind uid (default 10%Z limit)])%list /\
  (fault E (tick w) = None ->
   r = inr (rev (cursor_limit (default 10%Z limit)
                   (sort_newest_first E
                      (List.filter (of_user uid) (conversations (db w))))))).
Proof.
  unfold getConversationHistory. cbv zeta. rewrite try_rethrow.
  unfold bind, conversations_find, store_call, ret. cbv zeta.
  destruct (fault E (tick w)) as [e|]; intros [= <- <-]; world_simpl;
    repeat split; congruence.
Qed.

Lemma getConversationHistory_quiet uid limit w r w' :
  getConversationHistory E uid limit w = (r, w') -> nothing_persisted w w'.
Proof.
  intros H. apply getConversationHistory_spec in H as (Hd & Ht & _).
  split; [rewrite Hd; apply bookkeeping_refl|].
  eexists. split; [exact Ht | reflexivity].
Qed.

Lemma getContextForPrompt_quiet uid w r w' :
  getContextForPrompt E uid w = (r, w') -> nothing_persisted w w'.
Proof.
  unfold getContextForPrompt. rewrite try_rethrow. unfold bind.
  destruct (getUser E uid w) as [[e|user] w1] eqn:Hg;
    apply getUser_spec in Hg as (Hq & _).
  - now intros [= <- <-].
  - destruct (getConversationHistory E uid (Some 5%Z) w1) as [[e|ms] w2] eqn:Hh;
      apply getConversationHistory_quiet in Hh; unfold ret; intros [= <- <-];
      eapply nothing_persisted_trans; eauto.
Qed.

Lemma sendMessage_run messages userMessage w :
  GroqAdapter.sendMessage E messages userMessage w =
  (match completion E (tick w)
           (messages ++ [mkChatMessage "user" userMessage])%list with
   | inr text => inr text
   | inl e => inl e
   end,
   step (Some (CompletionsCreate
                 (messages ++ [mkChatMessage "user" userMessage])%list)) w).
Proof.
  unfold GroqAdapter.sendMessage. cbv zeta. rewrite try_rethrow.
  unfold completions_create. cbv zeta.
  now destruct (completion E (tick w) _).
Qed.

(** [extractAndSaveInfo] swallows every error. *)
Lemma extractAndSaveInfo_never_throws uid message w :
  fst (extractAndSaveInfo E uid message w) = inr tt.
Proof.
  unfold extractAndSaveInfo, try_catch, ret.
  destruct (bind _ _ w) as [[e|[]] w']; reflexivity.
Qed.

Variable P : Persona.

Lemma apology_nonempty error : apology_for error <> EmptyString.
Proof.
  unfold apology_for.
  destruct (Chatbot.message_includes error "API key"); [discriminate|].
  destruct (_ || _); [discriminate|].
  destruct (Chatbot.message_includes error "network"); discriminate.
Qed.

(** The turn up to the completion call. *)
Lemma chat_generate uid userMessage w ctx w1 :
  getContextForPrompt E uid w = (inr ctx, w1) ->
  let sent := step (Some (CompletionsCreate (request P ctx userMessage))) w1 in
  Chatbot.chat E P uid userMessage w =
  match completion E (tick w1) (request P ctx userMessage) with
  | inl error => (inr (Chatbot.getErrorResponse error), sent)
  | inr botResponse =>
      try_catch
        (bind (saveMessage E uid "user" userMessage) (fun _ =>
         bind (saveMessage E uid "assistant" botResponse) (fun _ =>
         bind (extractAndSaveInfo E uid userMessage) (fun _ =>
         ret botResponse))))
        (fun error => ret (Chatbot.getErrorResponse error)) sent
  end.
Proof.
  intros Hc sent. unfold Chatbot.chat. cbv zeta.
  unfold try_catch at 1. unfold bind at 1. rewrite Hc.
  unfold bind at 1. rewrite sendMessage_run.
  fold (promptBuilder P ctx (detectTone userMessage)).
  fold (request P ctx userMessage). fold sent.
  destruct (completion E (tick w1) (request P ctx userMessage)) as [error|reply].
  - reflexivity.
  - unfold try_catch. reflexivity.
Qed.

End Runs.

(** C2, corrected. When the completion call of a turn fails, [chat]
    returns the apology chosen by the error message, never empty:
    the configuration apology when the message mentions "API key",
    else the "give me a moment" apology for "quota" or "rate limit",
    else the "trouble connecting" apology for "network", else the neutral
    one.  Nothing is persisted for the turn: no message is inserted and no
    profile, fact or counter update is issued; the store has only seen the
    reads of the context load, with the lazy creation of the profile or the
    refresh of [lastActive]. *)
Theorem C2_completion_failure_apology
    (E : Env) (P : Persona) (uid userMessage : string)
    (w w1 : World) (ctx : Context.t) (error : JsError) :
  getContextForPrompt E uid w = (inr ctx, w1) ->
  completion E (tick w1) (request P ctx userMessage) = inl error ->
  exists w',
    Chatbot.chat E P uid userMessage w = (inr (apology_for error), w') /\
    apology_for error <> EmptyString /\
    (Chatbot.message_includes error "API key" = false ->
     Chatbot.message_includes error "rate limit" = true ->
     apology_for error = apology_rate_limit) /\
    (Chatbot.message_includes error "API key" = false ->
     Chatbot.message_includes error "quota" = false ->
     Chatbot.message_includes error "rate limit" = false ->
     Chatbot.message_includes error "network" = true ->
     apology_for error = apology_network) /\
    nothing_persisted w w' /\
    conversations (db w') = conversations (db w).
Proof.
  intros Hc Hf. eexists. rewrite (chat_generate E P _ _ _ _ _ Hc), Hf.
  split; [reflexivity|]. split; [apply apology_nonempty|].
  split. { intros H1 H2. unfold apology_for. now rewrite H1, H2, orb_true_r. }
  split. { intros H1 H2 H3 H4. unfold apology_for. now rewrite H1, H2, H3, H4. }
  assert (nothing_persisted w (step (Some (CompletionsCreate (request P ctx userMessage))) w1)) as Hq.
  { eapply nothing_persisted_trans.
    - eapply getContextForPrompt_quiet; eauto.
    - now apply nothing_persisted_step. }
  split; [exact Hq|]. apply Hq.
Qed.

(** C2 on a new user whose turn hits a rate limit. *)
Lemma C2_completion_failure_apology_witness :
  let error := mkError (Some "429 rate limit reached, slow down") in
  exists w',
    Chatbot.chat (Scenario.model_down error) BOT_PERSONALITY "u1" "hello"
                 Scenario.empty_world
    = (inr apology_rate_limit, w') /\
    conversations (db w') = [].
Proof.
  intros error.
  destruct (C2_completion_failure_apology (Scenario.model_down error) BOT_PERSONALITY
              "u1" "hello" Scenario.empty_world
              (snd (getContextForPrompt (Scenario.model_down error) "u1"
                      Scenario.empty_world))
              (Context.mk None None None [] [] [] [] 0 0) error)
    as (w' & Hrun & _ & _ & _ & _ & Hconv).
  - vm_compute. reflexivity.
  - reflexivity.
  - exists w'. split; [exact Hrun | exact Hconv].
Defined.

(** C2 as written fails: [getErrorResponse] looks for "API key" first,
    so a rate-limit error that names the key is answered with the
    configuration apology, which is none of the three replies of C2. *)
Lemma C2_counterexample :
  let error := mkError (Some "rate limit exceeded for this API key") in
  Chatbot.message_includes error "rate limit" = true /\
  Scenario.answer
    (Chatbot.chat (Scenario.model_down error) BOT_PERSONALITY "u1" "hello")
    Scenario.empty_world
  = inr apology_configuration /\
  apology_configuration <> apology_rate_limit /\
  apology_configuration <> apology_network /\
  apology_configuration <> apology_generic.
Proof.
  cbv zeta. split; [reflexivity|]. split; [vm_compute; reflexivity|].
  repeat split; discriminate.
Qed.

(** C3, corrected. When the completion call succeeded with [reply], what
    [chat] returns is decided by the two saves alone: if both messages are
    saved it is [reply], unchanged, whatever happens to the store during
    fact extraction, which swallows its errors; if saving the user message
    or the assistant message fails, [saveMessage] rethrows and [chat]
    returns the apology for that error instead. *)
Theorem C3_storage_failure_after_generation
    (E : Env) (P : Persona) (uid userMessage reply : string)
    (w w1 : World) (ctx : Context.t) :
  getContextForPrompt E uid w = (inr ctx, w1) ->
  completion E (tick w1) (request P ctx userMessage) = inr reply ->
  let sent := step (Some (CompletionsCreate (request P ctx userMessage))) w1 in
  fst (Chatbot.chat E P uid userMessage w) =
  match saveMessage E uid "user" userMessage sent with
  | (inl error, _) => inr (apology_for error)
  | (inr _, w2) =>
      match saveMessage E uid "assistant" reply w2 with
      | (inl error, _) => inr (apology_for error)
      | (inr _, _) => inr reply
      end
  end.
Proof.
  intros Hc Hg sent.
  rewrite (chat_generate E P _ _ _ _ _ Hc), Hg. fold sent.
  unfold try_catch, bind.
  destruct (saveMessage E uid "user" userMessage sent) as [[e|[]] w2];
    [reflexivity|].
  destruct (saveMessage E uid "assistant" reply w2) as [[e|[]] w3];
    [reflexivity|].
  pose proof (extractAndSaveInfo_never_throws E uid userMessage w3) as Hx.
  destruct (extractAndSaveInfo E uid userMessage w3) as [[e|[]] w4];
    [discriminate | reflexivity].
Qed.

(** C3 on a turn whose extraction cannot reach the store (the effect
    numbered 16 of the turn is the [findOne] of [extractAndSaveInfo]). *)
Lemma C3_storage_failure_after_generation_witness :
  Scenario.answer
    (Chatbot.chat (Scenario.store_down_at 16 "Hello!") BOT_PERSONALITY "u1" "hello")
    Scenario.empty_world
  = inr "Hello!".
Proof.
  set (E := Scenario.store_down_at 16 "Hello!").
  set (w1 := snd (getContextForPrompt E "u1" Scenario.empty_world)).
  set (ctx := Context.mk None None None [] [] [] [] 0 0).
  unfold Scenario.answer.
  rewrite (C3_storage_failure_after_generation E BOT_PERSONALITY "u1" "hello" "Hello!"
             Scenario.empty_world w1 ctx).
  - vm_compute. reflexivity.
  - vm_compute. reflexivity.
  - reflexivity.
Defined.

(** C3 as written fails for the Persist step: the model answered
    "Hello!", the insertion of the user message (the effect numbered 8 of
    the turn) failed, and [chat] returned the neutral apology instead. *)
Lemma C3_counterexample :
  let E := Scenario.store_down_at 8 "Hello!" in
  let run := Chatbot.chat E BOT_PERSONALITY "u1" "hello" Scenario.empty_world in
  completion E 5 (request BOT_PERSONALITY (Context.mk None None None [] [] [] [] 0 0) "hello")
  = inr "Hello!" /\
  last (trace (snd run)) =
    Some (ConversationsInsertOne (Message.mk "uuid-6" "u1" "user" "hello" 1007)) /\
  fst run = inr apology_generic /\
  apology_generic <> "Hello!".
Proof.
  cbv zeta. split; [reflexivity|]. split; [vm_compute; reflexivity|].
  split; [vm_compute; reflexivity | discriminate].
Qed.

(** ** Recent history *)

Section History.
Import Store Memory Spec.

Lemma strongly_sorted_rev {A} (R : relation A) (l : list A) :
  StronglySorted R l -> StronglySorted (flip R) (rev l).
Proof.
  induction 1 as [|x l Hl IH Hx]; [constructor|].
  cbn [rev]. apply StronglySorted_app_2.
  - intros x1 x2 H1 H2. apply list_elem_of_singleton in H2 as ->.
    unfold flip. rewrite Forall_forall in Hx. apply Hx.
    apply list_elem_of_In. apply in_rev. now apply list_elem_of_In.
  - exact IH.
  - repeat constructor.
Qed.

Lemma strongly_sorted_take {A} (R : relation A) (n : nat) (l : list A) :
  StronglySorted R l -> StronglySorted R (take n l).
Proof.
  intros H. revert n. induction H as [|x l Hl IH Hx]; intros [|n]; cbn;
    try constructor; [apply IH | now apply Forall_take].
Qed.

Lemma strongly_sorted_weaken {A} (R S : relation A) (l : list A) :
  (forall a b, R a b -> S a b) -> StronglySorted R l -> StronglySorted S l.
Proof.
  intros HRS. induction 1 as [|x l Hl IH Hx]; constructor; [exact IH|].
  eapply Forall_impl; eauto.
Qed.

(** Strictly increasing timestamps identify the messages of a list. *)
Lemma older_distinct (ms : list Message.t) x y :
  StronglySorted older ms -> In x ms -> In y ms ->
  Message.timestamp x = Message.timestamp y -> x = y.
Proof.
  induction 1 as [|m ms Hms IH Hm]; intros Hx Hy Ht; [destruct Hx|].
  rewrite List.Forall_forall in Hm. unfold older in Hm.
  destruct Hx as [<-|Hx], Hy as [<-|Hy]; [reflexivity | | | now apply IH].
  - specialize (Hm _ Hy). lia.
  - specialize (Hm _ Hx). lia.
Qed.

(** Whatever the server does with ties, it returns messages with
    strictly increasing timestamps in reverse. *)
Lemma sort_of_increasing (E : Env) (ms : list Message.t) :
  SortSpec E -> StronglySorted older ms -> sort_newest_first E ms = rev ms.
Proof.
  intros [Hperm Hsorted] Hms.
  apply (StronglySorted_unique_strong newer_or_same).
  - intros x1 x2 H1 H2 H12 H21. apply (older_distinct ms); [exact Hms | | |].
    + apply list_elem_of_In in H1.
      eapply Permutation_in; [apply Hperm | exact H1].
    + apply list_elem_of_In in H2. now apply in_rev.
    + unfold newer_or_same in *. lia.
  - apply Hsorted.
  - apply (strongly_sorted_weaken (flip older)).
    + unfold flip, older, newer_or_same. intros; lia.
    + now apply strongly_sorted_rev.
  - rewrite Hperm. apply Permutation_rev.
Qed.

(** The two insertion sorts are such servers. *)
Lemma insert_newest_first_perm b m l :
  Permutation (Scenario.insert_newest_first b m l) (m :: l).
Proof.
  induction l as [|x l IH]; cbn; [reflexivity|].
  destruct (if b then _ else _); [reflexivity|].
  rewrite IH. apply perm_swap.
Qed.

Lemma insert_newest_first_sorted b m l :
  StronglySorted newer_or_same l ->
  StronglySorted newer_or_same (Scenario.insert_newest_first b m l).
Proof.
  induction 1 as [|x l Hl IH Hx]; cbn; [repeat constructor|].
  destruct (if b then _ else _) eqn:Hcmp.
  - assert (newer_or_same m x) as Hmx.
    { unfold newer_or_same. destruct b; lia. }
    constructor; [now constructor|]. constructor; [exact Hmx|].
    eapply Forall_impl; [exact Hx|]. unfold newer_or_same in *. intros a Ha. lia.
  - assert (newer_or_same x m) as Hxm.
    { unfold newer_or_same. destruct b; lia. }
    constructor; [exact IH|].
    eapply Permutation_Forall; [symmetry; apply insert_newest_first_perm|].
    constructor; [exact Hxm | exact Hx].
Qed.

Lemma insertion_sort_perm b l : Permutation (Scenario.insertion_sort b l) l.
Proof.
  induction l as [|m l IH]; cbn; [reflexivity|].
  now rewrite insert_newest_first_perm, IH.
Qed.

Lemma insertion_sort_sorted b l :
  StronglySorted newer_or_same (Scenario.insertion_sort b l).
Proof.
  induction l as [|m l IH]; cbn; [constructor|].
  now apply insert_newest_first_sorted.
Qed.

Lemma calm_sort_spec reply : SortSpec (Scenario.calm reply).
Proof. split; [apply insertion_sort_perm | apply insertion_sort_sorted]. Qed.

Lemma calm_ties_sort_spec reply : SortSpec (Scenario.calm_ties_oldest_first reply).
Proof. split; [apply insertion_sort_perm | apply insertion_sort_sorted]. Qed.

Lemma last_messages {A} (n : nat) (l : list A) :
  rev (take n (rev l)) = drop (length l - n) l.
Proof. now rewrite firstn_rev, rev_involutive. Qed.

(** In a sorted list, everything before a cut is related to everything
    after it. *)
Lemma strongly_sorted_cut {A} (R : relation A) (n : nat) (l : list A) x y :
  StronglySorted R l -> In x (take n l) -> In y (drop n l) -> R x y.
Proof.
  intros H Hx Hy. rewrite <- (take_drop n l) in H.
  apply (StronglySorted_app_1_elem_of R (take n l) (drop n l));
    [exact H | now apply list_elem_of_In | now apply list_elem_of_In].
Qed.

End History.

(** C4, corrected. For a positive [limit], [getConversationHistory]
    returns the most recent [limit] messages of the user by timestamp,
    oldest first: the user's stored messages split into those returned
    and those left out, the messages returned are [limit] in number (all
    of them when the user has fewer), no message left out is newer than a
    message returned, and the messages returned are in the order of their
    timestamps.  Which of several messages of the same millisecond comes
    first, or is left out, is the server's choice; when the user's stored
    messages have strictly increasing timestamps in the order they were
    appended, the result is exactly the last [limit] of them, in that
    order. *)
Theorem C4_recent_history
    (E : Env) (uid : string) (limit : Z) (w : World) :
  SortSpec E -> fault E (tick w) = None -> (0 < limit)%Z ->
  let ms := List.filter (of_user uid) (conversations (db w)) in
  exists result left_out w',
    getConversationHistory E uid (Some limit) w = (inr result, w') /\
    Permutation (left_out ++ result) ms /\
    length result = Nat.min (Z.to_nat limit) (length ms) /\
    (forall old m, In old left_out -> In m result ->
                   (Message.timestamp old <= Message.timestamp m)%Z) /\
    StronglySorted (flip newer_or_same) result /\
    (StronglySorted older ms -> result = drop (length ms - Z.to_nat limit) ms).
Proof.
  intros HS HF Hl ms.
  destruct (getConversationHistory E uid (Some limit) w) as [r w'] eqn:Hrun.
  pose proof (getConversationHistory_spec E _ _ _ _ _ Hrun) as (_ & _ & Hr).
  specialize (Hr HF). subst r. fold ms. change (default 10%Z (Some limit)) with limit.
  unfold cursor_limit. destruct (Z.eqb_spec limit 0) as [->|_]; [lia|].
  rewrite Z.abs_eq by lia.
  set (sorted := sort_newest_first E ms). set (n := Z.to_nat limit).
  assert (Permutation sorted ms) as Hperm by apply HS.
  assert (StronglySorted newer_or_same sorted) as Hsorted by apply HS.
  exists (rev (take n sorted)), (drop n sorted), w'.
  split; [reflexivity|]. split; [|split; [|split; [|split]]].
  - etransitivity; [|exact Hperm].
    etransitivity; [apply Permutation_app_comm|].
    etransitivity; [apply Permutation_app_tail; symmetry; apply Permutation_rev|].
    now rewrite take_drop.
  - rewrite length_rev, length_take. now rewrite (Permutation_length Hperm).
  - intros old m Hold Hm. apply in_rev in Hm.
    apply (strongly_sorted_cut newer_or_same n sorted m old Hsorted Hm Hold).
  - apply strongly_sorted_rev, strongly_sorted_take, Hsorted.
  - intros Hms. unfold sorted. rewrite (sort_of_increasing E ms HS Hms). apply last_messages.
Qed.

(** C4 on three messages of one user stored among another user's. *)
Lemma C4_recent_history_witness :
  let M1 := Message.mk "a" "u1" "user" "one" 1 in
  let M2 := Message.mk "b" "u1" "assistant" "two" 2 in
  let M3 := Message.mk "c" "u1" "user" "three" 3 in
  let other := Message.mk "d" "u2" "user" "elsewhere" 2 in
  let w := mkWorld (mkDb ∅ [M1; other; M2; M3]) 0 [] in
  Scenario.answer (getConversationHistory (Scenario.calm "Hello!") "u1" (Some 2%Z)) w
  = inr [M2; M3].
Proof.
  intros M1 M2 M3 other w.
  destruct (C4_recent_history (Scenario.calm "Hello!") "u1" 2 w)
    as (result & left_out & w' & Hrun & _ & _ & _ & _ & Hexact).
  - apply calm_sort_spec.
  - reflexivity.
  - lia.
  - unfold Scenario.answer. rewrite Hrun. cbn [fst]. f_equal.
    rewrite Hexact; [reflexivity|].
    repeat constructor; unfold older; cbn; lia.
Defined.

(** C4 as written fails in two ways.  A [limit] of 0 returns every
    message of the user.  And on a server that keeps equal timestamps in
    storage order, a message saved in the same millisecond as the one
    before it comes back in front of it. *)
Lemma C4_counterexample :
  let M1 := Message.mk "a" "u1" "user" "one" 1 in
  let M2 := Message.mk "b" "u1" "assistant" "two" 2 in
  let M3 := Message.mk "c" "u1" "user" "three" 2 in
  let w := mkWorld (mkDb ∅ [M1; M2; M3]) 0 [] in
  (Scenario.answer (getConversationHistory (Scenario.calm "Hello!") "u1" (Some 0%Z)) w
   = inr [M1; M2; M3] /\
   ~ (length [M1; M2; M3] <= Z.to_nat 0)) /\
  (SortSpec (Scenario.calm_ties_oldest_first "Hello!") /\
   Scenario.answer
     (getConversationHistory (Scenario.calm_ties_oldest_first "Hello!") "u1" (Some 2%Z)) w
   = inr [M3; M2]).
Proof.
  cbv zeta. split; [split; [vm_compute; reflexivity | cbn; lia]|].
  split; [apply calm_ties_sort_spec | vm_compute; reflexivity].
Qed.

(** C9. [getUserStats] reports as [totalMessages] the number of documents
    of the user in the [conversations] collection, counted afresh; the
    [totalMessages] counter of the profile plays no part. *)
Theorem C9_stats_count_stored_messages (E : Env) (uid : string) (w : World) :
  NoFault E ->
  exists stats w',
    getUserStats E uid w = (inr stats, w') /\
    Stats.totalMessages stats
    = Z.of_nat (length (List.filter (of_user uid) (conversations (db w)))).
Proof.
  intros NF. unfold getUserStats. rewrite try_rethrow. unfold bind.
  destruct (getUser_ok E uid w NF) as (user & w1 & Hg). rewrite Hg.
  apply getUser_spec in Hg as ([[Hconv _] _] & _).
  unfold conversations_countDocuments, store_call, ret. cbv zeta.
  rewrite NF, Hconv. eexists _, _. split; reflexivity.
Qed.

(** C9 on a profile whose counter says 7 while one message is stored. *)
Lemma C9_stats_count_stored_messages_witness :
  let drifted := User.mk "u1" 0 0 empty_profile 0 7 in
  let w := mkWorld (mkDb {["u1" := drifted]}
                         [Message.mk "a" "u1" "user" "one" 1]) 0 [] in
  exists stats w',
    getUserStats (Scenario.calm "Hello!") "u1" w = (inr stats, w') /\
    Stats.totalMessages stats = 1%Z.
Proof.
  intros drifted w.
  apply (C9_stats_count_stored_messages (Scenario.calm "Hello!") "u1" w).
  intros n. reflexivity.
Defined.

(** ** Facts *)

Section Facts.
Import JsString Store Memory Spec.
Variable E : Env.

Lemma array_includes_In xs x : array_includes xs x = true <-> In x xs.
Proof.
  unfold array_includes. rewrite existsb_exists. split.
  - intros (y & Hy & Heq). apply String.eqb_eq in Heq. now subst.
  - intros H. exists x. split; [exact H | apply String.eqb_refl].
Qed.

Lemma stored_profile_quiet uid w w' p :
  nothing_persisted w w' -> stored_profile w uid = Some p ->
  stored_profile w' uid = Some p.
Proof.
  intros [[_ Hb] _]. specialize (Hb uid). unfold stored_profile.
  destruct (users (db w) !! uid) as [u|]; [|discriminate].
  destruct (users (db w') !! uid) as [u'|]; [|contradiction].
  cbn in *. destruct Hb as (Hp & _). intros [= <-]. now rewrite Hp.
Qed.

(** What [addMemory] does to the facts of [uid], whatever fails. *)
Lemma addMemory_spec uid fact w r w' :
  addMemory E uid fact w = (r, w') ->
  let fs := stored_facts w uid in
  conversations (db w') = conversations (db w) /\
  (In fact fs -> nothing_persisted w w') /\
  (stored_facts w' uid = fs \/ ~ In fact fs /\ stored_facts w' uid = (fs ++ [fact])%list) /\
  (NoFault E -> ~ In fact fs -> stored_facts w' uid = (fs ++ [fact])%list).
Proof.
  intros Hrun fs. revert Hrun. unfold addMemory. rewrite try_rethrow. unfold bind.
  destruct (getUser E uid w) as [[e|user] w1] eqn:Hg.
  - intros [= <- <-].
    pose proof (getUser_spec E _ _ _ _ Hg) as (Hq & _).
    assert (stored_facts w1 uid = fs) as Hsame.
    { unfold fs, stored_facts. destruct (stored_profile w uid) as [p|] eqn:Hp.
      - now rewrite (stored_profile_quiet uid w w1 p Hq Hp).
      - destruct Hq as [[_ Hb] _]. specialize (Hb uid).
        unfold stored_profile in *.
        destruct (users (db w) !! uid); [discriminate|].
        destruct (users (db w1) !! uid) as [u'|]; [|reflexivity].
        cbn in *. destruct Hb as [-> _]. reflexivity. }
    split; [apply Hq|]. split; [auto|]. split; [auto|].
    intros NF. destruct (getUser_ok E uid w NF) as (? & ? & Hok). congruence.
  - pose proof (getUser_spec E _ _ _ _ Hg) as (Hq & _).
    pose proof (getUser_profile E _ _ _ _ Hg) as (Hp1 & Hp).
    assert (Profile.facts (User.profile user) = fs) as Hfs.
    { unfold fs, stored_facts. now rewrite Hp. }
    assert (stored_facts w1 uid = fs) as Hsame.
    { unfold stored_facts. now rewrite Hp1. }
    rewrite Hfs.
    destruct (array_includes fs fact) eqn:Hin.
    + unfold ret. intros [= <- <-]. apply array_includes_In in Hin.
      split; [apply Hq|]. split; [auto|]. split; [auto | tauto].
    + assert (~ In fact fs) as Hnin.
      { rewrite <- array_includes_In. congruence. }
      unfold newDate, users_updateOne, store_call. cbv zeta. world_simpl.
      destruct (fault E (S (tick w1))) as [e|] eqn:F; intros [= <- <-]; world_simpl.
      * split; [apply Hq|]. split; [tauto|]. split; [auto|].
        intros NF. rewrite NF in F. discriminate.
      * split; [apply Hq|]. split; [tauto|].
        assert (stored_facts
                  (set_db (mkDb (alter (apply_update (PushFact fact (clock E (tick w1)))) uid
                                       (users (db w1))) (conversations (db w1)))
                          (step (Some (UsersUpdateOne uid (PushFact fact (clock E (tick w1)))))
                                (step None w1))) uid = (fs ++ [fact])%list) as Hpush.
        { unfold stored_facts, stored_profile in *. world_simpl.
          rewrite lookup_alter_eq.
          destruct (users (db w1) !! uid) as [u1|]; [|discriminate].
          cbn in Hp1. injection Hp1 as Hp1. cbn. rewrite Hp1, Hfs. reflexivity. }
        split; [right; split; assumption | intros; assumption].
Qed.

End Facts.

(** C6. [addMemory] deduplicates by exact string match.  When the
    fact is already stored it is a no-op on what is remembered: it issues
    no write beyond the [lastActive] refresh that every profile read
    makes, and the profile, its facts and the messages stay as they were.  Otherwise, when the store answers, it
    appends the fact at the end, so that appending the same fact twice adds
    it once ("Loves cricket" twice on a new user: one fact).  Whatever
    fails, the facts stored before remain, in place, a prefix of the facts
    stored after. *)
Theorem C6_addMemory_dedup (E : Env) (uid fact : string) (w : World) :
  let w1 := snd (addMemory E uid fact w) in
  let w2 := snd (addMemory E uid fact w1) in
  let fs := stored_facts w uid in
  (In fact fs ->
   nothing_persisted w w1 /\ stored_profile w1 uid = stored_profile w uid) /\
  (NoFault E -> ~ In fact fs -> stored_facts w1 uid = (fs ++ [fact])%list) /\
  (NoFault E -> ~ In fact fs -> stored_facts w2 uid = (fs ++ [fact])%list) /\
  (NoFault E -> fs = [] -> length (stored_facts w2 uid) = 1) /\
  (exists more, stored_facts w1 uid = (fs ++ more)%list).
Proof.
  intros w1 w2 fs. subst w1 w2.
  destruct (addMemory E uid fact w) as [r1 w1'] eqn:H1. cbn [snd].
  destruct (addMemory E uid fact w1') as [r2 w2'] eqn:H2. cbn [snd].
  pose proof (addMemory_spec E _ _ _ _ _ H1) as (_ & Hdup & Hcases & Hnew).
  pose proof (addMemory_spec E _ _ _ _ _ H2) as (_ & Hdup2 & Hcases2 & _).
  fold fs in Hdup, Hcases, Hnew.
  assert (NoFault E -> ~ In fact fs -> stored_facts w2' uid = (fs ++ [fact])%list) as Htwice.
  { intros NF Hnin. specialize (Hnew NF Hnin). rewrite Hnew in Hcases2.
    destruct Hcases2 as [Heq | [Habs _]]; [exact Heq|].
    exfalso. apply Habs. apply in_or_app. right. now left. }
  split; [|split; [|split; [|split]]].
  - intros Hin. pose proof (Hdup Hin) as Hq. split; [exact Hq|].
    unfold fs, stored_facts in Hin.
    destruct (stored_profile w uid) as [p|] eqn:Hp; [|destruct Hin].
    now apply (stored_profile_quiet uid w w1' p Hq).
  - exact Hnew.
  - exact Htwice.
  - intros NF Hnil. rewrite Htwice; [now rewrite Hnil | exact NF | now rewrite Hnil].
  - destruct Hcases as [Heq | [_ Heq]]; rewrite Heq.
    + exists []. now rewrite app_nil_r.
    + now exists [fact].
Qed.

(** ** Fact extraction *)

Section Extraction.
Import JsString Regex Store Memory Spec.

Lemma keeps_refl p : keeps p p.
Proof. repeat split. Qed.

Ltac case_matches :=
  repeat match goal with
    | |- context [js_match ?ci ?r ?s] => destruct (js_match ci r s)
    end.

Ltac profile_simpl :=
  cbn [negb set_name set_age set_location set_preferences set_interests
       Profile.name Profile.age Profile.location Profile.interests
       Profile.preferences Profile.facts fst snd].

Ltac run_guards Hn Ha Hl :=
  repeat (progress (profile_simpl; rewrite ?Hn, ?Ha, ?Hl;
                    repeat match goal with
                      | |- context [array_includes ?xs ?x] =>
                          destruct (array_includes xs x)
                      end)).

Lemma extract_keeps (p : Profile.t) (message : string) :
  keeps p (fst (extract p message)).
Proof.
  unfold extract, extract_hobby, extract_favoriteColor, extract_location,
    extract_age, extract_name, keeps.
  destruct p as [n a l i pr f]. cbn [Profile.name Profile.age Profile.location].
  case_matches;
    destruct (truthy_str n) eqn:Hn, (truthy_num a) eqn:Ha, (truthy_str l) eqn:Hl;
    run_guards Hn Ha Hl;
    repeat split; intros; congruence.
Qed.

(** When nothing was learnt the profile is the one read. *)
Lemma extract_not_updated (p : Profile.t) (message : string) :
  snd (extract p message) = false -> fst (extract p message) = p.
Proof.
  unfold extract, extract_hobby, extract_favoriteColor, extract_location,
    extract_age, extract_name.
  destruct p as [n a l i pr f]. cbn [Profile.name Profile.age Profile.location].
  case_matches;
    destruct (truthy_str n) eqn:Hn, (truthy_num a) eqn:Ha, (truthy_str l) eqn:Hl;
    run_guards Hn Ha Hl;
    cbn [negb fst snd]; intros; try discriminate; reflexivity.
Qed.

Variable E : Env.

(** Whatever fails, the stored profile of an existing user is afterwards
    either the one read or the one extraction computed from it. *)
Lemma extractAndSaveInfo_spec uid message w p :
  stored_profile w uid = Some p ->
  let w' := snd (extractAndSaveInfo E uid message w) in
  stored_profile w' uid = Some p \/
  stored_profile w' uid = Some (fst (extract p message)).
Proof.
  intros Hp. cbv zeta. unfold extractAndSaveInfo, try_catch, bind.
  destruct (getUser E uid w) as [[e|user] w1] eqn:Hg.
  - cbn [ret snd]. left.
    apply getUser_spec in Hg as (Hq & _).
    now apply (stored_profile_quiet uid w w1 p Hq).
  - pose proof (getUser_profile E _ _ _ _ Hg) as (H1 & Hu).
    rewrite Hp in Hu. cbn in Hu. rewrite Hu in *.
    destruct (extract p message) as [newProfile updated] eqn:Hx. cbn [fst].
    destruct updated.
    + unfold updateUserProfile. rewrite try_rethrow.
      unfold bind, newDate, users_updateOne, store_call. cbv zeta. world_simpl.
      destruct (fault E (S (tick w1))) as [e|]; cbn [ret snd].
      * left. exact H1.
      * right. unfold stored_profile in *. world_simpl.
        rewrite lookup_alter_eq.
        destruct (users (db w1) !! uid) as [u1|]; [reflexivity | discriminate].
    + left. exact H1.
Qed.

(** When the store answers, the stored profile is afterwards the one
    extraction computed, from the default profile for a new user. *)
Lemma extractAndSaveInfo_ok uid message w :
  NoFault E ->
  stored_profile (snd (extractAndSaveInfo E uid message w)) uid
  = Some (fst (extract (default empty_profile (stored_profile w uid)) message)).
Proof.
  intros NF. unfold extractAndSaveInfo, try_catch, bind.
  destruct (getUser_ok E uid w NF) as (user & w1 & Hg). rewrite Hg.
  pose proof (getUser_profile E _ _ _ _ Hg) as (H1 & Hu). rewrite <- Hu.
  destruct (extract (User.profile user) message) as [newProfile updated] eqn:Hx.
  cbn [fst]. destruct updated.
  - unfold updateUserProfile. rewrite try_rethrow.
    unfold bind, newDate, users_updateOne, store_call. cbv zeta. world_simpl.
    rewrite NF. cbn [snd]. unfold stored_profile in *. world_simpl.
    rewrite lookup_alter_eq.
    destruct (users (db w1) !! uid) as [u1|]; [reflexivity | discriminate].
  - cbn [ret snd]. rewrite H1. f_equal.
    pose proof (extract_not_updated (User.profile user) message) as Hn.
    rewrite Hx in Hn. symmetry. now apply Hn.
Qed.

Ltac eval_matches message :=
  unfold extract, extract_hobby, extract_favoriteColor, extract_location,
    extract_age, extract_name;
  replace (js_match true patterns.name message) with (@None string)
    by (vm_compute; reflexivity);
  replace (js_match true patterns.location message) with (@None string)
    by (vm_compute; reflexivity);
  replace (js_match true patterns.favoriteColor message) with (@None string)
    by (vm_compute; reflexivity);
  replace (js_match true patterns.hobby message) with (@None string)
    by (vm_compute; reflexivity).

(** "I am 30 years old" matches the age pattern alone. *)
Lemma extract_thirty (p : Profile.t) :
  Profile.age (fst (extract p "I am 30 years old"))
  = if truthy_num (Profile.age p) then Profile.age p else Some 30%Z.
Proof.
  eval_matches "I am 30 years old".
  replace (js_match true patterns.age "I am 30 years old") with (Some "30")
    by (vm_compute; reflexivity).
  destruct (truthy_num (Profile.age p)); reflexivity.
Qed.

Lemma extract_forty (p : Profile.t) :
  Profile.age (fst (extract p "I am 40 years old"))
  = if truthy_num (Profile.age p) then Profile.age p else Some 40%Z.
Proof.
  eval_matches "I am 40 years old".
  replace (js_match true patterns.age "I am 40 years old") with (Some "40")
    by (vm_compute; reflexivity).
  destruct (truthy_num (Profile.age p)); reflexivity.
Qed.

End Extraction.

(** C1, corrected. Extraction writes [name], [age] or [location] only
    over a value that is falsy in the stored profile ([null], the empty
    string, the number 0): whatever the message and whatever fails, a
    truthy stored value of these fields is the same afterwards.  Given a
    profile with [age = null], "I am 30 years old" sets [age] to 30, and a
    following "I am 40 years old" leaves it at 30. *)
Theorem C1_first_write_wins :
  (forall (E : Env) (uid message : string) (w : World) (p : Profile.t),
      stored_profile w uid = Some p ->
      exists p',
        stored_profile (snd (extractAndSaveInfo E uid message w)) uid = Some p' /\
        keeps p p') /\
  (forall (E : Env) (uid : string) (w : World),
      NoFault E ->
      Profile.age (default empty_profile (stored_profile w uid)) = None ->
      let w1 := snd (extractAndSaveInfo E uid "I am 30 years old" w) in
      let w2 := snd (extractAndSaveInfo E uid "I am 40 years old" w1) in
      Profile.age <$> stored_profile w1 uid = Some (Some 30%Z) /\
      Profile.age <$> stored_profile w2 uid = Some (Some 30%Z)).
Proof.
  split.
  - intros E uid message w p Hp.
    destruct (extractAndSaveInfo_spec E uid message w p Hp) as [H|H];
      eexists; (split; [exact H|]); [apply keeps_refl | apply extract_keeps].
  - intros E uid w NF Hage w1 w2. subst w1 w2.
    rewrite !extractAndSaveInfo_ok by exact NF. cbn [fmap option_fmap option_map default from_option id].
    rewrite extract_forty, extract_thirty, Hage. cbn. split; reflexivity.
Qed.

(** C1 as written fails: "I am 0 years old" stores the age 0, which is
    not [null], and "I am 40 years old" then overwrites it. *)
Lemma C1_counterexample :
  let p := Profile.mk None (Some 0%Z) None [] [] [] in
  let E := Scenario.calm "Hello!" in
  let w1 := Scenario.world_after (extractAndSaveInfo E "u1" "I am 0 years old")
              Scenario.empty_world in
  let w2 := Scenario.world_after (extractAndSaveInfo E "u1" "I am 40 years old") w1 in
  stored_profile w1 "u1" = Some p /\
  Profile.age p <> None /\
  Profile.age <$> stored_profile w2 "u1" = Some (Some 40%Z).
Proof.
  cbv zeta. split; [vm_compute; reflexivity|]. split; [discriminate|].
  vm_compute. reflexivity.
Qed.

(** ** The scenarios of the specification, run *)

Section Scenarios.
Import Scenario.

(** A new user introduces themself: the name and the interest are learnt,
    two messages are stored, and the reply comes back. *)
Example end_to_end :
  let turn := Chatbot.chat (calm "Nice to meet you!") BOT_PERSONALITY "u1"
                "Hi, I'm Alex and I love pizza" in
  answer turn empty_world = inr "Nice to meet you!" /\
  stored_profile (world_after turn empty_world) "u1"
  = Some (Profile.mk (Some "Alex") None None ["pizza"] [] []) /\
  map Message.role (conversations (db (world_after turn empty_world)))
  = ["user"; "assistant"] /\
  User.totalMessages <$> users (db (world_after turn empty_world)) !! "u1" = Some 2%Z.
Proof. vm_compute. repeat split. Qed.

(** The next turn sees the name in its context. *)
Example name_recalled :
  let w1 := world_after (Chatbot.chat (calm "Nice to meet you!") BOT_PERSONALITY "u1"
                           "Hi, I'm Alex and I love pizza") empty_world in
  match answer (getContextForPrompt (calm "You are Alex.") "u1") w1 with
  | inr context => Context.userName context
  | inl _ => None
  end = Some "Alex".
Proof. vm_compute. reflexivity. Qed.

(** The same fact twice is stored once. *)
Example loves_cricket_twice :
  let add := addMemory (calm EmptyString) "u1" "Loves cricket" in
  stored_facts (world_after add (world_after add empty_world)) "u1" = ["Loves cricket"].
Proof. vm_compute. reflexivity. Qed.

(** A second statement of the name does not replace the first. *)
Example name_kept :
  let E := calm EmptyString in
  let w1 := world_after (extractAndSaveInfo E "u1" "my name is alex") empty_world in
  let w2 := world_after (extractAndSaveInfo E "u1" "call me bob") w1 in
  Profile.name <$> stored_profile w2 "u1" = Some (Some "Alex").
Proof. vm_compute. reflexivity. Qed.

(** The favorite color, unlike the identity fields, is overwritten. *)
Example favorite_color_overwritten :
  let E := calm EmptyString in
  let w1 := world_after (extractAndSaveInfo E "u1" "my favorite color is blue") empty_world in
  let w2 := world_after (extractAndSaveInfo E "u1" "my favourite colour is red") w1 in
  Profile.preferences <$> stored_profile w2 "u1" = Some [("favoriteColor", "red")].
Proof. vm_compute. reflexivity. Qed.

(** Tones, one per category. *)
Example tones :
  map detectTone ["I feel awful"; "this is awesome"; "so annoyed"; "see you at noon"; "wow!!"]
  = ["sad"; "excited"; "angry"; "neutral"; "excited"].
Proof. vm_compute. reflexivity. Qed.

(** A message of 501 characters is refused, one of 500 is not; the
    characters are counted in UTF-16 code units, not in bytes: 300
    letters of two bytes each pass, 250 characters outside the BMP (500
    units) pass and 251 do not.  A message of no-break spaces is blank. *)
Example length_limit :
  let times n ch := String.concat EmptyString (repeat ch n) in
  let post message :=
    match answer (Server.post_api_chat (calm "ok") BOT_PERSONALITY chat_refuses
                    (Some (Server.mkBody (Server.JStr "u1") (Server.JStr message))))
                 empty_world with
    | inr response => Some (Server.status response)
    | inl _ => None
    end in
  let e_acute := Text.bytes [195; 169]%N in
  let emoji := Text.bytes [240; 159; 152; 128]%N in
  let nbsp := Text.bytes [194; 160]%N in
  post (times 501 "a") = Some 400 /\ post (times 500 "a") = Some 200 /\
  post (times 300 e_acute) = Some 200 /\
  post (times 250 emoji) = Some 200 /\ post (times 251 emoji) = Some 400 /\
  post (times 3 nbsp) = Some 400 /\ post (nbsp +:+ "hi" +:+ nbsp) = Some 200.
Proof. vm_compute. repeat split. Qed.

(** What [trim] and [length] give on text that is not ASCII. *)
Example text_measures :
  let nbsp := Text.bytes [194; 160]%N in
  let e_acute := Text.bytes [195; 169]%N in
  let emoji := Text.bytes [240; 159; 152; 128]%N in
  Text.trim (nbsp +:+ " caf" +:+ e_acute +:+ " " +:+ nbsp) = "caf" +:+ e_acute /\
  Text.length ("caf" +:+ e_acute) = 4 /\
  Text.length emoji = 2 /\
  Text.trim "  hello  " = "hello".
Proof. vm_compute. repeat split. Qed.

End Scenarios.


(** * Further properties *)

(** ** What a turn may do to the store *)

Section TurnEffects.
Import JsString Store Memory Spec Effect.
Variable E : Env.
Variable P : Persona.

Lemma counter_step_refl o : counter_step 0 o o.
Proof. destruct o; cbn; [split; [lia | reflexivity] | exact I]. Qed.

Lemma counter_step_trans n1 n2 o1 o2 o3 :
  counter_step n1 o1 o2 -> counter_step n2 o2 o3 -> counter_step (n1 + n2) o1 o3.
Proof.
  destruct o1, o2, o3; cbn; try tauto; rewrite ?Nat2Z.inj_add.
  - intros [H1 H1'] [H2 H2']. split; [lia | congruence].
  - intros H1 [H2 _]. lia.
  - intros _ H2. lia.
Qed.

Lemma adds_refl uid d : adds uid [] d d.
Proof.
  split; [now rewrite app_nil_r|]. split; [auto | apply counter_step_refl].
Qed.

Lemma adds_trans uid n1 n2 d1 d2 d3 :
  adds uid n1 d1 d2 -> adds uid n2 d2 d3 -> adds uid (n1 ++ n2) d1 d3.
Proof.
  intros (Hc1 & Ho1 & Hs1) (Hc2 & Ho2 & Hs2). split; [|split].
  - rewrite Hc2, Hc1. now rewrite <- app_assoc.
  - intros k Hk. rewrite Ho2, Ho1; auto.
  - rewrite length_app. eapply counter_step_trans; eauto.
Qed.

(** Reads, the lazy creation of the profile and the refresh of
    [lastActive] store no message. *)
Lemma adds_quiet uid w w' :
  nothing_persisted w w' ->
  (forall k, k <> uid -> users (db w') !! k = users (db w) !! k) ->
  adds uid [] (db w) (db w').
Proof.
  intros [[Hc Hb] _] Ho. split; [now rewrite app_nil_r|]. split; [exact Ho|].
  specialize (Hb uid). unfold same_profile in Hb. cbn.
  destruct (users (db w) !! uid) as [u|], (users (db w') !! uid) as [u'|]; cbn; try tauto.
  - destruct Hb as (_ & Ht & Hcr). split; [lia | exact Hcr].
  - destruct Hb as (_ & Ht). lia.
Qed.

Lemma getUser_adds uid w r w' :
  getUser E uid w = (r, w') -> adds uid [] (db w) (db w').
Proof.
  intros H. apply getUser_spec in H as (Hq & Ho & _). now apply adds_quiet.
Qed.

Lemma getContextForPrompt_adds uid w r w' :
  getContextForPrompt E uid w = (r, w') -> adds uid [] (db w) (db w').
Proof.
  unfold getContextForPrompt. rewrite try_rethrow. unfold bind.
  destruct (getUser E uid w) as [[e|user] w1] eqn:Hg;
    apply getUser_adds in Hg.
  - now intros [= <- <-].
  - destruct (getConversationHistory E uid (Some 5%Z) w1) as [[e|ms] w2] eqn:Hh;
      apply getConversationHistory_spec in Hh as (Hd & _); unfold ret;
      intros [= <- <-]; now rewrite Hd.
Qed.

Lemma extractAndSaveInfo_adds uid message w :
  adds uid [] (db w) (db (snd (extractAndSaveInfo E uid message w))).
Proof.
  unfold extractAndSaveInfo, try_catch, bind.
  destruct (getUser E uid w) as [[e|user] w1] eqn:Hg;
    pose proof (getUser_adds _ _ _ _ Hg) as Ha.
  - exact Ha.
  - destruct (extract (User.profile user) message) as [newProfile updated].
    destruct updated; [|exact Ha].
    unfold updateUserProfile. rewrite try_rethrow.
    unfold bind, newDate, users_updateOne, store_call. cbv zeta. world_simpl.
    destruct (fault E (S (tick w1))) as [e|]; cbn [ret snd]; world_simpl; [exact Ha|].
    rewrite <- (app_nil_r []). eapply adds_trans; [exact Ha|].
    split; [now rewrite app_nil_r|]. split; world_simpl.
    + intros k Hk. now rewrite lookup_alter_ne by congruence.
    + rewrite lookup_alter_eq.
      destruct (users (db w1) !! uid) as [u1|]; cbn; [split; [lia | reflexivity] | exact I].
Qed.

(** [saveMessage]: either nothing is stored, or the message is stored and
    the counter is left behind, or both are done; it reports success only
    in the last case. *)
Lemma saveMessage_spec uid role content w r w' :
  saveMessage E uid role content w = (r, w') ->
  let m := Message.mk (uuid E (tick w)) uid role content (clock E (S (tick w))) in
  (r <> inr tt /\ db w' = db w) \/
  (r <> inr tt /\ db w' = mkDb (users (db w)) (conversations (db w) ++ [m])) \/
  (r = inr tt /\
   db w' = mkDb (alter (apply_update (IncTotalMessages (clock E (S (S (S (tick w)))))))
                       uid (users (db w)))
                (conversations (db w) ++ [m])).
Proof.
  unfold saveMessage. rewrite try_rethrow.
  unfold bind, uuidv4, newDate, conversations_insertOne, users_updateOne, store_call.
  cbv zeta. world_simpl.
  destruct (fault E (S (S (tick w)))) as [e|].
  { intros [= <- <-]. left. split; [discriminate | reflexivity]. }
  world_simpl.
  destruct (fault E (S (S (S (S (tick w)))))) as [e|]; intros [= <- <-]; world_simpl.
  - right. left. split; [discriminate | reflexivity].
  - right. right. split; reflexivity.
Qed.

Lemma saveMessage_adds uid role content w r w' :
  saveMessage E uid role content w = (r, w') ->
  adds uid [] (db w) (db w') /\ r <> inr tt \/
  exists m, Message.userId m = uid /\ Message.role m = role /\
            Message.content m = content /\ adds uid [m] (db w) (db w').
Proof.
  intros H. apply saveMessage_spec in H. cbv zeta in H.
  destruct H as [[Hr ->] | [[_ ->] | [_ ->]]].
  - left. split; [apply adds_refl | exact Hr].
  - right. exists (Message.mk (uuid E (tick w)) uid role content (clock E (S (tick w)))).
    do 3 (split; [reflexivity|]).
    split; [reflexivity|]. split; [reflexivity|]. cbn [users length].
    destruct (users (db w) !! uid); cbn; [split; [lia | reflexivity] | exact I].
  - right. exists (Message.mk (uuid E (tick w)) uid role content (clock E (S (tick w)))).
    do 3 (split; [reflexivity|]).
    split; [reflexivity|]. cbn [users length]. split.
    + intros k Hk. now rewrite lookup_alter_ne by congruence.
    + rewrite lookup_alter_eq.
      destruct (users (db w) !! uid); cbn; [split; [lia | reflexivity] | exact I].
Qed.

(** What [chat] does to the store, whatever fails. *)
Lemma chat_adds uid userMessage w :
  exists new,
    turn_messages uid userMessage new /\
    adds uid new (db w) (db (snd (Chatbot.chat E P uid userMessage w))).
Proof.
  unfold Chatbot.chat. cbv zeta. unfold try_catch at 1. unfold bind at 1.
  destruct (getContextForPrompt E uid w) as [[e|ctx] w1] eqn:Hc;
    pose proof (getContextForPrompt_adds _ _ _ _ Hc) as H1.
  { exists []. split; [now left | exact H1]. }
  unfold bind at 1. rewrite sendMessage_run.
  destruct (completion E (tick w1) _) as [e|reply].
  { exists []. split; [now left | exact H1]. }
  unfold bind at 1.
  match goal with
  | |- context [saveMessage E uid "user" userMessage ?w0] =>
      destruct (saveMessage E uid "user" userMessage w0) as [[e|[]] w2] eqn:Hs1;
        apply saveMessage_adds in Hs1; world_simpl
  end.
  - destruct Hs1 as [[H2 _] | (mu & Hu1 & Hu2 & Hu3 & H2)].
    + exists []. split; [now left|]. cbn [ret snd].
      rewrite <- (app_nil_r []). eapply adds_trans; eauto.
    + exists [mu]. split; [right; left; eauto|]. cbn [ret snd].
      change [mu] with ([] ++ [mu])%list. eapply adds_trans; eauto.
  - destruct Hs1 as [[_ Habs] | (mu & Hu1 & Hu2 & Hu3 & H2)]; [congruence|].
    unfold bind at 1.
    destruct (saveMessage E uid "assistant" reply w2) as [[e|[]] w3] eqn:Hs2;
      apply saveMessage_adds in Hs2.
    + destruct Hs2 as [[H3 _] | (ma & Ha1 & Ha2 & Ha3 & H3)]; cbn [ret snd].
      * exists [mu]. split; [right; left; eauto|].
        change [mu] with (([] ++ [mu]) ++ [])%list.
        eapply adds_trans; [eapply adds_trans|]; eauto.
      * exists [mu; ma]. split; [right; right; eauto 10|].
        change [mu; ma] with (([] ++ [mu]) ++ [ma])%list.
        eapply adds_trans; [eapply adds_trans|]; eauto.
    + destruct Hs2 as [[_ Habs] | (ma & Ha1 & Ha2 & Ha3 & H3)]; [congruence|].
      unfold bind.
      pose proof (extractAndSaveInfo_adds uid userMessage w3) as H4.
      destruct (extractAndSaveInfo E uid userMessage w3) as [[e|[]] w4]; cbn [ret snd] in *.
      * exists [mu; ma]. split; [right; right; eauto 10|].
        change [mu; ma] with ((([] ++ [mu]) ++ [ma]) ++ [])%list.
        eapply adds_trans; [eapply adds_trans; [eapply adds_trans|]|]; eauto.
      * exists [mu; ma]. split; [right; right; eauto 10|].
        change [mu; ma] with ((([] ++ [mu]) ++ [ma]) ++ [])%list.
        eapply adds_trans; [eapply adds_trans; [eapply adds_trans|]|]; eauto.
Qed.

End TurnEffects.

Import Effect.

Lemma chat_total
    (E : Env) (P : Persona) (uid userMessage : string) (w : World) :
  exists reply,
    fst (Chatbot.chat E P uid userMessage w) = inr reply /\
    (In reply [apology_configuration; apology_rate_limit; apology_network; apology_generic]
     \/ exists n messages, completion E n messages = inr reply).
Proof.
  assert (forall error, In (Chatbot.getErrorResponse error)
            [apology_configuration; apology_rate_limit; apology_network; apology_generic])
    as Hapology.
  { intros error. change (Chatbot.getErrorResponse error) with (apology_for error).
    unfold apology_for.
    destruct (Chatbot.message_includes error "API key"); [cbn; tauto|].
    destruct (_ || _); [cbn; tauto|].
    destruct (Chatbot.message_includes error "network"); cbn; tauto. }
  destruct (getContextForPrompt E uid w) as [[e|ctx] w1] eqn:Hc.
  - unfold Chatbot.chat. cbv zeta. unfold try_catch, bind at 1. rewrite Hc.
    eexists. split; [reflexivity | left; apply Hapology].
  - rewrite (chat_generate E P _ _ _ _ _ Hc).
    destruct (completion E (tick w1) (request P ctx userMessage)) as [e|reply] eqn:Hg.
    + eexists. split; [reflexivity | left; apply Hapology].
    + unfold try_catch, bind.
      destruct (saveMessage E uid "user" userMessage _) as [[e|[]] w2].
      { eexists. split; [reflexivity | left; apply Hapology]. }
      destruct (saveMessage E uid "assistant" reply w2) as [[e|[]] w3].
      { eexists. split; [reflexivity | left; apply Hapology]. }
      pose proof (extractAndSaveInfo_never_throws E uid userMessage w3) as Hx.
      destruct (extractAndSaveInfo E uid userMessage w3) as [[e|[]] w4];
        [discriminate|].
      exists reply. split; [reflexivity | right; eauto].
Qed.

(** X1. [chat] never throws, whatever the store and the model do: it
    returns a string, which is either the text of the completion it asked
    for or one of the four apologies. *)
Theorem X1_chat_never_throws
    (E : Env) (P : Persona) (uid userMessage : string) (w : World) :
  exists reply,
    fst (Chatbot.chat E P uid userMessage w) = inr reply /\
    (In reply [apology_configuration; apology_rate_limit; apology_network; apology_generic]
     \/ exists n messages, completion E n messages = inr reply).
Proof. apply chat_total. Qed.

(** X2. A turn of one user leaves every other user alone: their
    documents and their stored messages are the same afterwards, whatever
    fails. *)
Theorem X2_chat_isolates_users
    (E : Env) (P : Persona) (uid other userMessage : string) (w : World) :
  other <> uid ->
  let w' := snd (Chatbot.chat E P uid userMessage w) in
  users (db w') !! other = users (db w) !! other /\
  messages_of other (conversations (db w')) = messages_of other (conversations (db w)).
Proof.
  intros Hne w'. subst w'.
  destruct (chat_adds E P uid userMessage w) as (new & Hshape & Hc & Ho & _).
  split; [now apply Ho|].
  unfold messages_of. rewrite Hc, List.filter_app.
  assert (List.filter (of_user other) new = []) as ->; [|now rewrite app_nil_r].
  assert (forall m, Message.userId m = uid -> of_user other m = false) as Hno.
  { intros m Hm. unfold of_user. rewrite Hm. apply String.eqb_neq. congruence. }
  destruct Hshape as [-> | [(mu & -> & Hu & _) | (mu & ma & -> & Hu & _ & _ & Ha & _)]];
    cbn; rewrite ?Hno by assumption; reflexivity.
Qed.

(** X3. The message log is append-only under [chat]: the messages stored
    before are all there afterwards, in place, followed by at most two new
    ones, the user message first and then an assistant message. *)
Theorem X3_chat_appends_messages
    (E : Env) (P : Persona) (uid userMessage : string) (w : World) :
  exists new,
    conversations (db (snd (Chatbot.chat E P uid userMessage w)))
    = (conversations (db w) ++ new)%list /\
    turn_messages uid userMessage new.
Proof.
  destruct (chat_adds E P uid userMessage w) as (new & Hshape & Hc & _).
  exists new. split; assumption.
Qed.

(** X4. [chat] never deletes a profile: a stored document of the user is
    still there afterwards, created at the same date, and its
    [totalMessages] has not gone down and has gone up by at most 2. *)
Theorem X4_chat_keeps_profile
    (E : Env) (P : Persona) (uid userMessage : string) (w : World) (u : User.t) :
  users (db w) !! uid = Some u ->
  exists u',
    users (db (snd (Chatbot.chat E P uid userMessage w))) !! uid = Some u' /\
    User.createdAt u' = User.createdAt u /\
    (User.totalMessages u <= User.totalMessages u' <= User.totalMessages u + 2)%Z.
Proof.
  intros Hu.
  destruct (chat_adds E P uid userMessage w) as (new & Hshape & _ & _ & Hs).
  rewrite Hu in Hs.
  destruct (users (db (snd (Chatbot.chat E P uid userMessage w))) !! uid) as [u'|];
    [|destruct Hs].
  destruct Hs as [Ht Hcr]. exists u'. split; [reflexivity|]. split; [exact Hcr|].
  assert (length new <= 2) as Hlen.
  { destruct Hshape as [-> | [(mu & -> & _) | (mu & ma & -> & _)]]; cbn; lia. }
  lia.
Qed.

(** X5. The counters never run ahead of the log: if no profile counts
    more messages than are stored for its user, the same holds after a
    turn, whatever fails. *)
Theorem X5_chat_counters_bounded
    (E : Env) (P : Persona) (uid userMessage : string) (w : World) :
  counters_bounded (db w) ->
  counters_bounded (db (snd (Chatbot.chat E P uid userMessage w))).
Proof.
  intros Hb k u' Hk.
  destruct (chat_adds E P uid userMessage w) as (new & Hshape & Hc & Ho & Hs).
  assert (Forall (fun m => Message.userId m = uid) new) as Hall.
  { destruct Hshape as [-> | [(mu & -> & Hu & _) | (mu & ma & -> & Hu & _ & _ & Ha & _)]];
      repeat constructor; assumption. }
  unfold count_for. rewrite Hc, List.filter_app, length_app, Nat2Z.inj_add.
  destruct (decide (k = uid)) as [->|Hne].
  - assert (List.filter (of_user uid) new = new) as ->.
    { clear -Hall. induction Hall as [|m l Hm _ IH]; [reflexivity|].
      cbn. unfold of_user at 1. rewrite Hm, String.eqb_refl. now rewrite IH. }
    rewrite Hk in Hs.
    destruct (users (db w) !! uid) as [u|] eqn:Hu; cbn in Hs.
    + specialize (Hb uid u Hu). unfold count_for in Hb. lia.
    + lia.
  - rewrite Ho in Hk by exact Hne. specialize (Hb k u' Hk). unfold count_for in Hb. lia.
Qed.

(** X2 on a turn of "u1" beside a user "u2". *)
Lemma X2_chat_isolates_users_witness :
  let w' := snd (Chatbot.chat (Scenario.calm "Hello!") BOT_PERSONALITY "u1" "hello"
                   Fixture.two_users) in
  users (db w') !! "u2" = users (db Fixture.two_users) !! "u2" /\
  messages_of "u2" (conversations (db w'))
  = messages_of "u2" (conversations (db Fixture.two_users)).
Proof.
  apply (X2_chat_isolates_users (Scenario.calm "Hello!") BOT_PERSONALITY "u1" "u2" "hello"
           Fixture.two_users).
  discriminate.
Defined.

(** X4 on a turn of the stored user "u1". *)
Lemma X4_chat_keeps_profile_witness :
  exists u',
    users (db (snd (Chatbot.chat (Scenario.store_down_at 8 "Hello!") BOT_PERSONALITY
                      "u1" "hello" Fixture.two_users))) !! "u1" = Some u' /\
    User.createdAt u' = 0%Z /\
    (1 <= User.totalMessages u' <= 1 + 2)%Z.
Proof.
  apply (X4_chat_keeps_profile (Scenario.store_down_at 8 "Hello!") BOT_PERSONALITY
           "u1" "hello" Fixture.two_users Fixture.alice).
  reflexivity.
Defined.

(** X5 on a turn in the two-user store. *)
Lemma X5_chat_counters_bounded_witness :
  counters_bounded
    (db (snd (Chatbot.chat (Scenario.store_down_at 10 "Hello!") BOT_PERSONALITY
                "u1" "hello" Fixture.two_users))).
Proof.
  apply (X5_chat_counters_bounded (Scenario.store_down_at 10 "Hello!") BOT_PERSONALITY
           "u1" "hello" Fixture.two_users).
  intros k u. cbn [db users conversations Fixture.two_users].
  destruct (decide (k = "u1")) as [->|H1].
  - rewrite lookup_insert_eq. intros [= <-]. vm_compute. discriminate.
  - rewrite lookup_insert_ne by congruence.
    destruct (decide (k = "u2")) as [->|H2].
    + rewrite lookup_singleton_eq. intros [= <-]. vm_compute. discriminate.
    + rewrite lookup_singleton_ne by congruence. discriminate.
Defined.

(** ** A turn when nothing fails *)

Section Success.
Import JsString Store Memory Spec Effect.
Variable E : Env.
Variable P : Persona.
Hypothesis NF : NoFault E.


(** The context is the stored profile, flattened, with the history
    window the store returned. *)
Lemma getContextForPrompt_ok uid w :
  exists ctx w1,
    getContextForPrompt E uid w = (inr ctx, w1) /\
    adds uid [] (db w) (db w1) /\
    stored_profile w1 uid = Some (default empty_profile (stored_profile w uid)) /\
    (let p := default empty_profile (stored_profile w uid) in
     Context.userName ctx = Profile.name p /\
     Context.userAge ctx = Profile.age p /\
     Context.userLocation ctx = Profile.location p /\
     Context.interests ctx = Profile.interests p /\
     Context.preferences ctx = Profile.preferences p /\
     Context.facts ctx = Profile.facts p) /\
    Context.recentMessages ctx
    = rev (take 5 (sort_newest_first E (messages_of uid (conversations (db w))))).
Proof.
  destruct (getContextForPrompt E uid w) as [r w1] eqn:Hrun.
  pose proof (getContextForPrompt_adds E _ _ _ _ Hrun) as Hadds.
  revert Hrun. unfold getContextForPrompt. rewrite try_rethrow. unfold bind.
  destruct (getUser_ok E uid w NF) as (user & w0 & Hg). rewrite Hg.
  pose proof (getUser_profile E _ _ _ _ Hg) as (Hp1 & Hp).
  pose proof (getUser_spec E _ _ _ _ Hg) as ([[Hconv _] _] & _).
  destruct (getConversationHistory E uid (Some 5%Z) w0) as [rh w2] eqn:Hh.
  pose proof (getConversationHistory_spec E _ _ _ _ _ Hh) as (Hd & _ & Hr).
  specialize (Hr (NF _)). subst rh. unfold ret. intros [= <- <-].
  eexists _, _. split; [reflexivity|]. split; [exact Hadds|].
  split; [unfold stored_profile in *; rewrite Hd, Hp1, Hp; reflexivity|].
  split; [rewrite <- Hp; repeat split|].
  cbn [Context.recentMessages]. unfold messages_of. now rewrite Hconv.
Qed.




End Success.



(** X7. [saveMessage] never creates or deletes a profile and touches no
    other user.  When it reports success, the message is the last one
    stored and the counter of the user, if there is a document, went up
    by exactly one.  When it throws, the counter is as before, but the
    message may already be stored. *)
Theorem X7_saveMessage_outcomes
    (E : Env) (uid role content : string) (w : World) :
  let run := saveMessage E uid role content w in
  let d := db w in
  let d' := db (snd run) in
  dom (users d') = dom (users d) /\
  (forall k, k <> uid -> users d' !! k = users d !! k) /\
  (fst run = inr tt ->
   (exists m, conversations d' = (conversations d ++ [m])%list /\
              (Message.userId m, Message.role m, Message.content m) = (uid, role, content)) /\
   User.totalMessages <$> users d' !! uid
   = (fun u => (User.totalMessages u + 1)%Z) <$> users d !! uid) /\
  (fst run <> inr tt ->
   users d' = users d /\
   exists new, conversations d' = (conversations d ++ new)%list /\ length new <= 1).
Proof.
  cbv zeta.
  destruct (saveMessage E uid role content w) as [r w'] eqn:Hrun. cbn [fst snd].
  apply saveMessage_spec in Hrun. cbv zeta in Hrun.
  destruct Hrun as [[Hr ->] | [[Hr ->] | [-> ->]]]; cbn [users conversations].
  - split; [reflexivity|]. split; [intros; reflexivity|]. split; [intros; contradiction|].
    intros _. split; [reflexivity|]. exists [].
    split; [now rewrite app_nil_r | cbn; lia].
  - split; [reflexivity|]. split; [intros; reflexivity|]. split; [intros; contradiction|].
    intros _. split; [reflexivity|]. eexists [_]. split; [reflexivity | cbn; lia].
  - split; [apply dom_alter_L|]. split.
    + intros k Hk. now rewrite lookup_alter_ne by congruence.
    + split; [|intros; contradiction]. intros _. split.
      * eexists. split; reflexivity.
      * rewrite lookup_alter_eq. destruct (users (db w) !! uid); reflexivity.
Qed.

(** ** More on extraction *)

Ltac unfold_extract :=
  unfold Memory.extract, Memory.extract_hobby, Memory.extract_favoriteColor,
    Memory.extract_location, Memory.extract_age, Memory.extract_name.

Section ExtractionMore.
Import JsString Regex Store Memory Spec.

Lemma obj_set_idem key value o :
  obj_set key value (obj_set key value o) = obj_set key value o.
Proof.
  induction o as [|[k v] o IH]; cbn.
  - now rewrite String.eqb_refl.
  - destruct (String.eqb k key) eqn:Hk; cbn; rewrite Hk; [reflexivity | now rewrite IH].
Qed.



Lemma array_includes_added xs x : array_includes (xs ++ [x]) x = true.
Proof.
  unfold array_includes. rewrite existsb_app. cbn.
  now rewrite String.eqb_refl, orb_true_r.
Qed.

Import Learn.

(** The five rules act on five different fields, so that [extract] is
    their product. *)
Lemma extract_learn (p : Profile.t) (message : string) :
  fst (extract p message) = learn message p.
Proof.
  unfold_extract.
  unfold learn, next_name, next_age, next_location, next_preferences, next_interests.
  destruct p as [n a l i pr f].
  cbn [Profile.name Profile.age Profile.location Profile.interests
       Profile.preferences Profile.facts].
  repeat match goal with
    | |- context [js_match ?ci ?r ?s] => destruct (js_match ci r s)
    end;
    destruct (truthy_str n) eqn:Hn, (truthy_num a) eqn:Ha, (truthy_str l) eqn:Hl;
    try match goal with
      | |- context [array_includes i ?x] => destruct (array_includes i x) eqn:Hi
      end;
    repeat (progress
      (cbn [negb set_name set_age set_location set_preferences set_interests
            Profile.name Profile.age Profile.location Profile.interests
            Profile.preferences Profile.facts fst snd];
       rewrite ?Hn, ?Ha, ?Hl, ?Hi));
    reflexivity.
Qed.

Lemma next_name_idem m n : next_name m (next_name m n) = next_name m n.
Proof.
  unfold next_name. destruct (js_match true patterns.name m) as [g|]; [|reflexivity].
  destruct (truthy_str n) eqn:Hn; [now rewrite Hn|].
  now destruct (truthy_str (Some _)).
Qed.

Lemma next_age_idem m a : next_age m (next_age m a) = next_age m a.
Proof.
  unfold next_age. destruct (js_match true patterns.age m) as [g|]; [|reflexivity].
  destruct (truthy_num a) eqn:Ha; [now rewrite Ha|].
  now destruct (truthy_num (Some _)).
Qed.

Lemma next_location_idem m l : next_location m (next_location m l) = next_location m l.
Proof.
  unfold next_location. destruct (js_match true patterns.location m) as [g|]; [|reflexivity].
  destruct (truthy_str l) eqn:Hl; [now rewrite Hl|].
  now destruct (truthy_str (Some _)).
Qed.

Lemma next_preferences_idem m o : next_preferences m (next_preferences m o) = next_preferences m o.
Proof.
  unfold next_preferences.
  destruct (js_match true patterns.favoriteColor m) as [g|]; [apply obj_set_idem | reflexivity].
Qed.

Lemma next_interests_idem m i : next_interests m (next_interests m i) = next_interests m i.
Proof.
  unfold next_interests. destruct (js_match true patterns.hobby m) as [g|]; [|reflexivity].
  destruct (array_includes i (trim g)) eqn:Hi; [now rewrite Hi|].
  now rewrite array_includes_added.
Qed.

Lemma next_interests_nodup m i : NoDup i -> NoDup (next_interests m i).
Proof.
  intros Hnd. unfold next_interests.
  destruct (js_match true patterns.hobby m) as [g|]; [|exact Hnd].
  destruct (array_includes i (trim g)) eqn:Hi; [exact Hnd|].
  apply NoDup_app. split; [exact Hnd|]. split; [|repeat constructor; apply not_elem_of_nil].
  intros x Hx Hx'. apply list_elem_of_singleton in Hx' as ->.
  apply list_elem_of_In, array_includes_In in Hx. congruence.
Qed.

End ExtractionMore.

Import Learn.

(** X8. Extraction is idempotent: running it again on the same message,
    from the profile it produced, produces that profile again. *)
Theorem X8_extract_idempotent (p : Profile.t) (message : string) :
  fst (extract (fst (extract p message)) message) = fst (extract p message).
Proof.
  rewrite !extract_learn. unfold learn.
  cbn [Profile.name Profile.age Profile.location Profile.interests
       Profile.preferences Profile.facts].
  now rewrite next_name_idem, next_age_idem, next_location_idem,
    next_interests_idem, next_preferences_idem.
Qed.

(** X9. Extraction never touches the facts, and the interests only grow:
    they stay as they are or get one new entry at the end, one that was
    not there, so a list without duplicates stays without duplicates. *)
Theorem X9_extract_facts_and_interests (p : Profile.t) (message : string) :
  let p' := fst (extract p message) in
  Profile.facts p' = Profile.facts p /\
  (Profile.interests p' = Profile.interests p \/
   exists hobby, ~ In hobby (Profile.interests p) /\
                 Profile.interests p' = (Profile.interests p ++ [hobby])%list) /\
  (NoDup (Profile.interests p) -> NoDup (Profile.interests p')).
Proof.
  cbv zeta. rewrite extract_learn. unfold learn.
  cbn [Profile.interests Profile.facts].
  split; [reflexivity|]. split; [|apply next_interests_nodup].
  unfold next_interests. destruct (js_match true patterns.hobby message) as [g|];
    [|now left].
  destruct (array_includes (Profile.interests p) (trim g)) eqn:Hi; [now left|].
  right. exists (trim g). split; [|reflexivity].
  rewrite <- array_includes_In. congruence.
Qed.



(** ** More on the prompt and the history *)

Section PromptMore.
Import JsString Regex Store Personality Memory Spec.

Lemma lower_upper_char (c : ascii) : lower_char (upper_char c) = lower_char c.
Proof.
  apply code_inj. rewrite !code_lower_char.
  rewrite (is_upper_range (upper_char c)), (is_upper_range c), code_upper_char.
  destruct (is_lower c) eqn:Hl; rewrite is_lower_range in Hl; bool_hyps.
  - replace ((65 <=? code c - 32)%N && (code c - 32 <=? 90)%N) with true
      by (symmetry; apply andb_true_iff; rewrite !N.leb_le; lia).
    replace ((65 <=? code c)%N && (code c <=? 90)%N) with false
      by (symmetry; apply andb_false_iff; rewrite !N.leb_gt; lia).
    lia.
  - reflexivity.
  - reflexivity.
Qed.

Lemma lower_lower_char (c : ascii) : lower_char (lower_char c) = lower_char c.
Proof.
  unfold lower_char at 1. now rewrite lower_char_not_upper.
Qed.

Lemma toLowerCase_toUpperCase (s : string) : toLowerCase (toUpperCase s) = toLowerCase s.
Proof. induction s as [|c s IH]; cbn; [reflexivity|]. now rewrite lower_upper_char, IH. Qed.

Lemma toLowerCase_idem (s : string) : toLowerCase (toLowerCase s) = toLowerCase s.
Proof. induction s as [|c s IH]; cbn; [reflexivity|]. now rewrite lower_lower_char, IH. Qed.

Lemma bang_upper (c : ascii) :
  (code "!" =? code (upper_char c))%N = (code "!" =? code c)%N.
Proof.
  rewrite code_upper_char. change (code "!") with 33%N.
  destruct (is_lower c) eqn:Hl; [|reflexivity].
  rewrite is_lower_range in Hl. bool_hyps.
  destruct (N.eqb_spec 33 (code c - 32)), (N.eqb_spec 33 (code c)); try reflexivity; lia.
Qed.

Lemma bang_lower (c : ascii) :
  (code "!" =? code (lower_char c))%N = (code "!" =? code c)%N.
Proof.
  rewrite code_lower_char. change (code "!") with 33%N.
  destruct (is_upper c) eqn:Hu; [|reflexivity].
  rewrite is_upper_range in Hu. bool_hyps.
  destruct (N.eqb_spec 33 (code c + 32)), (N.eqb_spec 33 (code c)); try reflexivity; lia.
Qed.

Lemma bangs_toUpperCase (s : string) : includes (toUpperCase s) "!!" = includes s "!!".
Proof.
  induction s as [|a s IH]; [reflexivity|].
  cbn [toUpperCase]. rewrite (includes_unfold (String _ _)), (includes_unfold (String a s)), IH.
  f_equal. destruct s as [|b s]; cbn [toUpperCase startsWith]; now rewrite ?bang_upper.
Qed.

Lemma bangs_toLowerCase (s : string) : includes (toLowerCase s) "!!" = includes s "!!".
Proof.
  induction s as [|a s IH]; [reflexivity|].
  cbn [toLowerCase]. rewrite (includes_unfold (String _ _)), (includes_unfold (String a s)), IH.
  f_equal. destruct s as [|b s]; cbn [toLowerCase startsWith]; now rewrite ?bang_lower.
Qed.

End PromptMore.

(** X11. The tone of a message of ASCII characters does not depend on
    the case of its letters: upper or lower casing the message leaves its
    tone as it is. *)
Theorem X11_detectTone_ignores_case (message : string) :
  Text.is_ascii message = true ->
  detectTone (toUpperCase message) = detectTone message /\
  detectTone (toLowerCase message) = detectTone message.
Proof.
  intros _. rewrite !detectTone_refines. unfold detectTone_spec.
  now rewrite toLowerCase_toUpperCase, toLowerCase_idem, bangs_toUpperCase, bangs_toLowerCase.
Qed.

(** X11 on a shouted message. *)
Lemma X11_detectTone_ignores_case_witness :
  detectTone "I FEEL AWFUL" = "sad" /\ detectTone "I feel awful" = "sad" /\
  detectTone "i feel awful" = "sad".
Proof.
  destruct (X11_detectTone_ignores_case "I feel awful") as [Hu Hl];
    [reflexivity|].
  change (toUpperCase "I feel awful") with "I FEEL AWFUL" in Hu.
  change (toLowerCase "I feel awful") with "i feel awful" in Hl.
  rewrite Hu, Hl. split; [|split]; vm_compute; reflexivity.
Defined.

Section PromptText.
Import JsString Regex Store Personality Memory Spec.

Lemma append_cons (x : ascii) (a b : string) : String x a +:+ b = String x (a +:+ b).
Proof. reflexivity. Qed.

Lemma append_empty_l (a : string) : EmptyString +:+ a = a.
Proof. reflexivity. Qed.

Lemma append_assoc (a b c : string) : (a +:+ b) +:+ c = a +:+ (b +:+ c).
Proof. induction a as [|x a IH]; [reflexivity|]. now rewrite !append_cons, IH. Qed.

Lemma append_empty_r (a : string) : a +:+ EmptyString = a.
Proof. induction a as [|x a IH]; [reflexivity|]. now rewrite append_cons, IH. Qed.

Lemma startsWith_self (w t : string) : startsWith w (w +:+ t) = true.
Proof.
  induction w as [|x w IH]; [reflexivity|].
  rewrite append_cons. cbn [startsWith]. now rewrite N.eqb_refl, IH.
Qed.

Lemma startsWith_app (w s t : string) :
  startsWith w s = true -> startsWith w (s +:+ t) = true.
Proof.
  revert s. induction w as [|x w IH]; intros [|y s] H; try reflexivity; try discriminate.
  rewrite append_cons. cbn [startsWith] in *.
  apply andb_true_iff in H as [H1 H2]. now rewrite H1, IH.
Qed.

Lemma includes_app_l (s t x : string) :
  includes s x = true -> includes (s +:+ t) x = true.
Proof.
  induction s as [|c s IH]; intros H.
  - cbn in H. rewrite orb_false_r in H. destruct x; [|discriminate].
    rewrite includes_unfold. reflexivity.
  - rewrite includes_unfold in H. rewrite append_cons, includes_unfold.
    apply orb_true_iff in H as [H|H]; apply orb_true_iff.
    + left. now apply (startsWith_app x (String c s) t).
    + right. now apply IH.
Qed.

Lemma includes_app_r (s t x : string) :
  includes t x = true -> includes (s +:+ t) x = true.
Proof.
  intros H. induction s as [|c s IH]; [exact H|].
  rewrite append_cons, includes_unfold, IH. apply orb_true_r.
Qed.

Lemma includes_head (x t : string) : includes (x +:+ t) x = true.
Proof. rewrite includes_unfold, startsWith_self. reflexivity. Qed.

Lemma includes_refl (x : string) : includes x x = true.
Proof. pose proof (includes_head x EmptyString) as H. now rewrite append_empty_r in H. Qed.

(** The loops of [buildSystemPrompt] only append to the prompt. *)
Lemma numbered_app idx xs p : numbered idx xs p = p +:+ numbered idx xs EmptyString.
Proof.
  revert idx p. induction xs as [|x xs IH]; intros idx p; cbn [numbered].
  - now rewrite append_empty_r.
  - rewrite IH, (IH _ (EmptyString +:+ _)), append_empty_l.
    now rewrite !append_assoc.
Qed.

Lemma bulleted_app es p : bulleted es p = p +:+ bulleted es EmptyString.
Proof.
  revert p. induction es as [|[k v] es IH]; intros p; cbn [bulleted].
  - now rewrite append_empty_r.
  - rewrite IH, (IH (EmptyString +:+ _)), append_empty_l.
    now rewrite !append_assoc.
Qed.

Lemma numbered_line idx (xs : list string) i x :
  xs !! i = Some x ->
  includes (numbered idx xs EmptyString)
           (num_to_string (Z.of_nat (idx + i + 1)) +:+ ". " +:+ x +:+ nl) = true.
Proof.
  revert idx i. induction xs as [|y xs IH]; intros idx [|i] H; try discriminate.
  - injection H as ->. cbn [numbered]. rewrite numbered_app, append_empty_l.
    apply includes_app_l. rewrite Nat.add_0_r. apply includes_refl.
  - cbn [numbered]. rewrite numbered_app. apply includes_app_r.
    replace (idx + S i + 1) with (S idx + i + 1) by lia. now apply IH.
Qed.

Lemma bulleted_line (es : list (string * string)) key value :
  In (key, value) es ->
  includes (bulleted es EmptyString) ("• " +:+ key +:+ ": " +:+ value +:+ nl) = true.
Proof.
  induction es as [|[k v] es IH]; intros H; [destruct H|].
  cbn [bulleted]. rewrite bulleted_app. destruct H as [[= -> ->]|H].
  - apply includes_app_l. rewrite append_empty_l. apply includes_refl.
  - apply includes_app_r. now apply IH.
Qed.

(** A guarded update that only appends keeps what the prompt contains. *)
Lemma when_includes cond (f : string -> string) p x :
  (forall q, includes q x = true -> includes (f q) x = true) ->
  includes p x = true -> includes (when cond f p) x = true.
Proof. intros Hf Hp. unfold when. destruct cond; auto. Qed.

Lemma when_starts cond (f : string -> string) p w :
  (forall q, startsWith w q = true -> startsWith w (f q) = true) ->
  startsWith w p = true -> startsWith w (when cond f p) = true.
Proof. intros Hf Hp. unfold when. destruct cond; auto. Qed.

Lemma numbered_includes idx xs h x :
  forall q, includes q x = true -> includes (numbered idx xs (q +:+ h)) x = true.
Proof. intros q Hq. rewrite numbered_app. now do 2 apply includes_app_l. Qed.

Lemma bulleted_includes es h x :
  forall q, includes q x = true -> includes (bulleted es (q +:+ h)) x = true.
Proof. intros q Hq. rewrite bulleted_app. now do 2 apply includes_app_l. Qed.

Lemma numbered_starts idx xs h w :
  forall q, startsWith w q = true -> startsWith w (numbered idx xs (q +:+ h)) = true.
Proof. intros q Hq. rewrite numbered_app. now do 2 apply startsWith_app. Qed.

Lemma bulleted_starts es h w :
  forall q, startsWith w q = true -> startsWith w (bulleted es (q +:+ h)) = true.
Proof. intros q Hq. rewrite bulleted_app. now do 2 apply startsWith_app. Qed.

Lemma nonempty_lookup {A} (xs : list A) i x : xs !! i = Some x -> nonempty xs = true.
Proof. destruct xs; [discriminate | reflexivity]. Qed.

(** The prompt begins with the persona block. *)
Lemma buildSystemPrompt_starts (P : Persona) (context : Context.t) :
  startsWith (persona_block P) (buildSystemPrompt P context) = true.
Proof.
  unfold buildSystemPrompt. cbv zeta.
  do 2 apply startsWith_app.
  apply when_starts; [apply bulleted_starts|].
  apply when_starts; [apply numbered_starts|].
  apply when_starts; [apply numbered_starts|].
  apply when_starts; [intros; now apply startsWith_app|].
  apply when_starts; [intros; now apply startsWith_app|].
  apply when_starts; [intros; now apply startsWith_app|].
  rewrite <- (append_empty_r (persona_block P)) at 2. apply startsWith_self.
Qed.

Lemma buildSystemPrompt_truthy (P : Persona) (context : Context.t) (suffix : string) :
  truthy_str (Some (buildSystemPrompt P context +:+ suffix)) = true.
Proof.
  pose proof (buildSystemPrompt_starts P context) as H.
  destruct (buildSystemPrompt P context) as [|c s]; [discriminate H | reflexivity].
Qed.

Lemma prompt_has_fact (P : Persona) (context : Context.t) i fact :
  Context.facts context !! i = Some fact ->
  includes (buildSystemPrompt P context)
           (num_to_string (Z.of_nat (i + 1)) +:+ ". " +:+ fact +:+ nl) = true.
Proof.
  intros H. unfold buildSystemPrompt. cbv zeta.
  do 2 apply includes_app_l.
  apply when_includes; [apply bulleted_includes|].
  apply when_includes; [apply numbered_includes|].
  unfold when at 1. rewrite (nonempty_lookup _ _ _ H).
  rewrite numbered_app. apply includes_app_r. now apply (numbered_line 0).
Qed.

Lemma prompt_has_interest (P : Persona) (context : Context.t) i interest :
  Context.interests context !! i = Some interest ->
  includes (buildSystemPrompt P context)
           (num_to_string (Z.of_nat (i + 1)) +:+ ". " +:+ interest +:+ nl) = true.
Proof.
  intros H. unfold buildSystemPrompt. cbv zeta.
  do 2 apply includes_app_l.
  apply when_includes; [apply bulleted_includes|].
  unfold when at 1. rewrite (nonempty_lookup _ _ _ H).
  rewrite numbered_app. apply includes_app_r. now apply (numbered_line 0).
Qed.

Lemma prompt_has_preference (P : Persona) (context : Context.t) key value :
  In (key, value) (Context.preferences context) ->
  includes (buildSystemPrompt P context)
           ("• " +:+ key +:+ ": " +:+ value +:+ nl) = true.
Proof.
  intros H. unfold buildSystemPrompt. cbv zeta.
  do 2 apply includes_app_l.
  unfold when at 1.
  destruct (Context.preferences context) as [|e es] eqn:He; [destruct H|].
  cbn [nonempty]. rewrite bulleted_app. apply includes_app_r. now apply bulleted_line.
Qed.

Lemma prompt_has_name (P : Persona) (context : Context.t) name :
  Context.userName context = Some name -> name <> EmptyString ->
  includes (buildSystemPrompt P context)
           ("YOU'RE TALKING TO: " +:+ name +:+ nl) = true.
Proof.
  intros H Hne. unfold buildSystemPrompt. cbv zeta.
  do 2 apply includes_app_l.
  apply when_includes; [apply bulleted_includes|].
  apply when_includes; [apply numbered_includes|].
  apply when_includes; [apply numbered_includes|].
  apply when_includes; [intros; now apply includes_app_l|].
  apply when_includes; [intros; now apply includes_app_l|].
  rewrite H. assert (truthy_str (Some name) = true) as -> by (now destruct name).
  cbn [when default from_option id].
  do 2 apply includes_app_r. apply includes_refl.
Qed.

End PromptText.

(** X12. The system prompt shows what is remembered: it begins with the
    persona block, and it contains one numbered line for every stored
    fact and for every interest, at its position counted from 1, one
    bullet line for every preference, and the line naming the user when
    the name is a non-empty string. *)
Theorem X12_prompt_shows_memory (P : Persona) (context : Context.t) :
  let prompt := buildSystemPrompt P context in
  let line i text := num_to_string (Z.of_nat (i + 1)) +:+ ". " +:+ text +:+ nl in
  startsWith (persona_block P) prompt = true /\
  (forall i fact, Context.facts context !! i = Some fact ->
     includes prompt (line i fact) = true) /\
  (forall i interest, Context.interests context !! i = Some interest ->
     includes prompt (line i interest) = true) /\
  (forall key value, In (key, value) (Context.preferences context) ->
     includes prompt ("• " +:+ key +:+ ": " +:+ value +:+ nl) = true) /\
  (forall name, Context.userName context = Some name -> name <> EmptyString ->
     includes prompt ("YOU'RE TALKING TO: " +:+ name +:+ nl) = true).
Proof.
  cbv zeta. split; [apply buildSystemPrompt_starts|].
  split; [apply prompt_has_fact|]. split; [apply prompt_has_interest|].
  split; [apply prompt_has_preference | apply prompt_has_name].
Qed.

Section RequestShape.
Import JsString Regex Store Personality Memory Spec.

Lemma history_messages (msgs : list Message.t) :
  map (fun msg =>
         mkChatMessage
           (if String.eqb (role msg) "model" then "assistant" else role msg)
           (GroqAdapter.first_text msg))
      (buildConversationHistory (Some msgs))
  = map (fun m =>
           mkChatMessage
             (if String.eqb (Message.role m) "user" then "user" else "assistant")
             (Message.content m))
        msgs.
Proof.
  destruct msgs as [|m0 msgs]; [reflexivity|].
  unfold buildConversationHistory. rewrite map_map. apply map_ext. intros m.
  cbn [role parts GroqAdapter.first_text text].
  now destruct (String.eqb (Message.role m) "user").
Qed.

Lemma getConversationHistory_result (E : Env) uid limit w ms w' :
  getConversationHistory E uid limit w = (inr ms, w') ->
  ms = rev (cursor_limit (default 10%Z limit)
              (sort_newest_first E (List.filter (of_user uid) (conversations (db w))))).
Proof.
  intros H. pose proof (getConversationHistory_spec E _ _ _ _ _ H) as (_ & _ & Hr).
  destruct (fault E (tick w)) as [e|] eqn:F.
  - exfalso. revert H. unfold getConversationHistory. cbv zeta. rewrite try_rethrow.
    unfold bind, conversations_find, store_call. cbv zeta. rewrite F. discriminate.
  - specialize (Hr eq_refl). congruence.
Qed.

Lemma getContextForPrompt_window (E : Env) uid w ctx w' :
  getContextForPrompt E uid w = (inr ctx, w') ->
  length (Context.recentMessages ctx) <= 5.
Proof.
  unfold getContextForPrompt. rewrite try_rethrow. unfold bind.
  destruct (getUser E uid w) as [[e|user] w1]; [discriminate|].
  destruct (getConversationHistory E uid (Some 5%Z) w1) as [[e|ms] w2] eqn:Hh;
    [discriminate|].
  apply getConversationHistory_result in Hh. unfold ret. intros [= <- <-].
  cbn [Context.recentMessages]. subst ms. rewrite length_rev.
  unfold cursor_limit. cbn. rewrite length_take. lia.
Qed.

End RequestShape.

(** X13. The stored history survives the detour through the other
    provider's format: for stored messages whose roles are [user] or
    [assistant], [startChat] after [buildConversationHistory] sends, after
    the system message, each message with its own role and content, in
    order. *)
Theorem X13_history_round_trip (msgs : list Message.t) (prompt : string) :
  prompt <> EmptyString ->
  Forall (fun m => Message.role m = "user" \/ Message.role m = "assistant") msgs ->
  GroqAdapter.startChat (buildConversationHistory (Some msgs)) prompt
  = mkChatMessage "system" prompt
    :: map (fun m => mkChatMessage (Message.role m) (Message.content m)) msgs.
Proof.
  intros Hp Hroles. unfold GroqAdapter.startChat.
  assert (truthy_str (Some prompt) = true) as -> by (now destruct prompt).
  rewrite history_messages. cbn [app]. f_equal.
  induction Hroles as [|m msgs [Hm|Hm] _ IH]; [reflexivity| |];
    cbn [map]; rewrite IH, Hm; reflexivity.
Qed.

(** X13 on a two-message history. *)
Lemma X13_history_round_trip_witness :
  GroqAdapter.startChat
    (buildConversationHistory
       (Some [Message.mk "a" "u1" "user" "hi" 1; Message.mk "b" "u1" "assistant" "hello" 2]))
    "Be kind."
  = [mkChatMessage "system" "Be kind."; mkChatMessage "user" "hi";
     mkChatMessage "assistant" "hello"].
Proof.
  apply (X13_history_round_trip
           [Message.mk "a" "u1" "user" "hi" 1; Message.mk "b" "u1" "assistant" "hello" 2]
           "Be kind.").
  - discriminate.
  - constructor; [left; reflexivity|]. constructor; [right; reflexivity|]. constructor.
Defined.

(** ** The requests of a turn *)

Section ModelCalls.
Import JsString Regex Store Personality Memory Spec.
Variable E : Env.

Lemma silent_ret {A} (a : A) : calls_no_model (ret a).
Proof. intros w. reflexivity. Qed.

Lemma silent_throw {A} (e : JsError) : calls_no_model (@throw A e).
Proof. intros w. reflexivity. Qed.

Lemma silent_bind {A B} (m : M A) (k : A -> M B) :
  calls_no_model m -> (forall a, calls_no_model (k a)) -> calls_no_model (bind m k).
Proof.
  intros Hm Hk w. unfold bind. specialize (Hm w).
  destruct (m w) as [[e|a] w']; cbn [snd] in *; [exact Hm|].
  now rewrite Hk.
Qed.

Lemma silent_try {A} (m : M A) (h : JsError -> M A) :
  calls_no_model m -> (forall e, calls_no_model (h e)) -> calls_no_model (try_catch m h).
Proof.
  intros Hm Hh w. unfold try_catch. specialize (Hm w).
  destruct (m w) as [[e|a] w']; cbn [snd] in *; [|exact Hm].
  now rewrite Hh.
Qed.

Lemma silent_newDate : calls_no_model (newDate E).
Proof. intros w. reflexivity. Qed.

Lemma silent_uuidv4 : calls_no_model (uuidv4 E).
Proof. intros w. reflexivity. Qed.

Lemma completions_app (evs evs' : list Event) :
  completions (evs ++ evs') = (completions evs ++ completions evs')%list.
Proof. apply flat_map_app. Qed.

Lemma silent_store_call {A} (ev : Event) (f : Db -> JsError + (A * Db)) :
  completions [ev] = [] -> calls_no_model (store_call E ev f).
Proof.
  intros Hev w. unfold store_call. cbv zeta.
  assert (completions (trace (step (Some ev) w)) = completions (trace w)) as Hs.
  { cbn [step trace]. now rewrite completions_app, Hev, app_nil_r. }
  destruct (fault E (tick w)); [exact Hs|].
  destruct (f (db w)) as [e|[a d]]; exact Hs.
Qed.

Ltac silent :=
  repeat match goal with
    | |- calls_no_model (ret _) => apply silent_ret
    | |- calls_no_model (throw _) => apply silent_throw
    | |- calls_no_model (newDate _) => apply silent_newDate
    | |- calls_no_model (uuidv4 _) => apply silent_uuidv4
    | |- calls_no_model (store_call _ _ _) => apply silent_store_call; reflexivity
    | |- calls_no_model (bind _ _) => apply silent_bind; [|intros ?]
    | |- calls_no_model (try_catch _ _) => apply silent_try; [|intros ?]
    | |- calls_no_model (match ?x with _ => _ end) => destruct x
    end.

Lemma silent_getUser uid : calls_no_model (getUser E uid).
Proof.
  unfold getUser, users_findOne, users_insertOne, users_updateOne. silent.
Qed.

Lemma silent_updateUserProfile uid p : calls_no_model (updateUserProfile E uid p).
Proof. unfold updateUserProfile, users_updateOne. silent. Qed.

Lemma silent_getConversationHistory uid limit :
  calls_no_model (getConversationHistory E uid limit).
Proof. unfold getConversationHistory, conversations_find. cbv zeta. silent. Qed.

Lemma silent_saveMessage uid role content : calls_no_model (saveMessage E uid role content).
Proof.
  unfold saveMessage, conversations_insertOne, users_updateOne. cbv zeta. silent.
Qed.

Lemma silent_getContextForPrompt uid : calls_no_model (getContextForPrompt E uid).
Proof.
  unfold getContextForPrompt. silent;
    [apply silent_getUser | apply silent_getConversationHistory].
Qed.

Lemma silent_extractAndSaveInfo uid message :
  calls_no_model (extractAndSaveInfo E uid message).
Proof.
  unfold extractAndSaveInfo. silent;
    [apply silent_getUser | apply silent_updateUserProfile].
Qed.

(** A turn asks the model once, after the context has loaded, and not at
    all when the context does not load. *)
Lemma chat_completions (P : Persona) uid userMessage w :
  completions (trace (snd (Chatbot.chat E P uid userMessage w)))
  = (completions (trace w)
     ++ match fst (getContextForPrompt E uid w) with
        | inr ctx => [request P ctx userMessage]
        | inl _ => []
        end)%list.
Proof.
  pose proof (silent_getContextForPrompt uid w) as Hload.
  destruct (getContextForPrompt E uid w) as [[e|ctx] w1] eqn:Hc; cbn [fst snd] in *.
  - unfold Chatbot.chat. cbv zeta. unfold try_catch at 1. unfold bind at 1.
    rewrite Hc. cbn [ret snd]. now rewrite app_nil_r.
  - rewrite (chat_generate E P uid userMessage w ctx w1 Hc). cbv zeta.
    set (sent := step (Some (CompletionsCreate (request P ctx userMessage))) w1).
    assert (completions (trace sent)
            = (completions (trace w) ++ [request P ctx userMessage])%list) as Hsent.
    { unfold sent. cbn [step trace]. now rewrite completions_app, Hload. }
    destruct (completion E (tick w1) (request P ctx userMessage)) as [error|reply];
      [exact Hsent|].
    rewrite <- Hsent.
    assert (calls_no_model
              (try_catch
                 (bind (saveMessage E uid "user" userMessage) (fun _ =>
                  bind (saveMessage E uid "assistant" reply) (fun _ =>
                  bind (extractAndSaveInfo E uid userMessage) (fun _ =>
                  ret reply))))
                 (fun error => ret (Chatbot.getErrorResponse error)))) as Hrest.
    { silent; [apply silent_saveMessage | apply silent_saveMessage
              | apply silent_extractAndSaveInfo]. }
    apply Hrest.
Qed.

(** The request built from a loaded context. *)
Lemma request_shape (P : Persona) (ctx : Context.t) (userMessage : string) :
  length (Context.recentMessages ctx) <= 5 ->
  exists history,
    request P ctx userMessage
    = (mkChatMessage "system"
         (buildSystemPrompt P ctx +:+ getToneInstructions (detectTone userMessage))
       :: history ++ [mkChatMessage "user" userMessage])%list /\
    map cm_content history = map Message.content (Context.recentMessages ctx) /\
    Forall (fun m => cm_role m = "user" \/ cm_role m = "assistant") history /\
    length history <= 5.
Proof.
  intros Hc. unfold request, GroqAdapter.startChat, promptBuilder.
  rewrite buildSystemPrompt_truthy, history_messages.
  eexists. split; [reflexivity|]. split; [|split].
  - rewrite map_map. reflexivity.
  - apply Forall_map. apply Forall_forall. intros m _. cbn [cm_role].
    destruct (String.eqb (Message.role m) "user"); auto.
  - now rewrite length_map.
Qed.

Lemma append_inj_l (a b c : string) : a +:+ b = a +:+ c -> b = c.
Proof.
  induction a as [|x a IH]; [now rewrite !append_empty_l|].
  rewrite !append_cons. intros [= H]. now apply IH.
Qed.

(** The four tones have four different instructions. *)
Lemma getToneInstructions_inj (m1 m2 : string) :
  getToneInstructions (detectTone m1) = getToneInstructions (detectTone m2) ->
  detectTone m1 = detectTone m2.
Proof.
  rewrite !detectTone_refines.
  pose proof (detectTone_spec_range m1) as H1.
  pose proof (detectTone_spec_range m2) as H2.
  cbn [In] in H1, H2.
  destruct H1 as [<-|[<-|[<-|[<-|[]]]]], H2 as [<-|[<-|[<-|[<-|[]]]]];
    intros H; try reflexivity; vm_compute in H; discriminate H.
Qed.

Lemma buildSystemPrompt_snapshot (P : Persona) (c1 c2 : Context.t) :
  same_snapshot c1 c2 -> buildSystemPrompt P c1 = buildSystemPrompt P c2.
Proof.
  intros (Hn & Ha & Hl & Hi & Hp & Hf). unfold buildSystemPrompt.
  now rewrite Hn, Ha, Hl, Hi, Hp, Hf.
Qed.

End ModelCalls.



(** C7. The Prompt Builder (system prompt plus tone suffix) is
    deterministic in what a turn passes to it.  Take any two turns, on
    any two servers, clocks and identifier sources, for users whose stored
    profiles are the same: whatever else differs (the users, the dates of
    their documents, their counters, their histories, the other users),
    both turns send to the model, as its system message, the output of
    the builder on a context with the same six profile fields, and the
    two outputs are byte-identical exactly when the detected tones are
    the same. *)
Theorem C7_promptBuilder_deterministic
    (E1 E2 : Env) (P : Persona) (uid1 uid2 message1 message2 : string) (w1 w2 : World) :
  NoFault E1 -> NoFault E2 ->
  default empty_profile (stored_profile w1 uid1)
  = default empty_profile (stored_profile w2 uid2) ->
  exists c1 c2 rest1 rest2,
    let prompt1 := buildSystemPrompt P c1 +:+ getToneInstructions (detectTone message1) in
    let prompt2 := buildSystemPrompt P c2 +:+ getToneInstructions (detectTone message2) in
    same_snapshot c1 c2 /\
    completions (trace (snd (Chatbot.chat E1 P uid1 message1 w1)))
    = (completions (trace w1) ++ [mkChatMessage "system" prompt1 :: rest1])%list /\
    completions (trace (snd (Chatbot.chat E2 P uid2 message2 w2)))
    = (completions (trace w2) ++ [mkChatMessage "system" prompt2 :: rest2])%list /\
    (prompt1 = prompt2 <-> detectTone message1 = detectTone message2).
Proof.
  intros NF1 NF2 Hp.
  destruct (getContextForPrompt_ok E1 NF1 uid1 w1) as (c1 & w1' & Hc1 & _ & _ & Hf1 & _).
  destruct (getContextForPrompt_ok E2 NF2 uid2 w2) as (c2 & w2' & Hc2 & _ & _ & Hf2 & _).
  cbv zeta in Hf1, Hf2. rewrite <- Hp in Hf2.
  assert (same_snapshot c1 c2) as Hsame.
  { destruct Hf1 as (? & ? & ? & ? & ? & ?), Hf2 as (? & ? & ? & ? & ? & ?).
    repeat split; congruence. }
  destruct (request_shape P c1 message1) as (h1 & Hr1 & _);
    [now apply getContextForPrompt_window in Hc1|].
  destruct (request_shape P c2 message2) as (h2 & Hr2 & _);
    [now apply getContextForPrompt_window in Hc2|].
  exists c1, c2, (h1 ++ [mkChatMessage "user" message1])%list,
         (h2 ++ [mkChatMessage "user" message2])%list.
  cbv zeta. split; [exact Hsame|]. split; [|split].
  - rewrite chat_completions, Hc1. cbn [fst]. now rewrite Hr1.
  - rewrite chat_completions, Hc2. cbn [fst]. now rewrite Hr2.
  - rewrite (buildSystemPrompt_snapshot P c1 c2 Hsame). split.
    + intros H. apply append_inj_l in H. now apply getToneInstructions_inj.
    + now intros ->.
Qed.

(** C7 on two users who told the same about themselves, on different
    days: the two turns send the same system prompt. *)
Lemma C7_promptBuilder_deterministic_witness :
  let p := Profile.mk (Some "Alex") (Some 30%Z) None ["pizza"]
             [("favoriteColor", "blue")] ["Loves cricket"] in
  let w1 := mkWorld (mkDb {["u1" := User.mk "u1" 5 9 p 0 0]} []) 0 [] in
  let w2 := mkWorld
              (mkDb {["u2" := User.mk "u2" 700 800 p 3 8]}
                    [Message.mk "m1" "u2" "user" "hello" 750;
                     Message.mk "m2" "u2" "assistant" "hi there" 751]) 40 [] in
  let E1 := Scenario.calm "Hello!" in
  let E2 := Scenario.another_day "Good evening" in
  exists prompt rest1 rest2,
    completions (trace (snd (Chatbot.chat E1 BOT_PERSONALITY "u1" "I feel awful" w1)))
    = [mkChatMessage "system" prompt :: rest1] /\
    completions (trace (snd (Chatbot.chat E2 BOT_PERSONALITY "u2" "so sad today" w2)))
    = [mkChatMessage "system" prompt :: rest2] /\
    length rest1 = 1 /\ length rest2 = 3.
Proof.
  intros p w1 w2 E1 E2.
  destruct (C7_promptBuilder_deterministic E1 E2 BOT_PERSONALITY "u1" "u2"
              "I feel awful" "so sad today" w1 w2)
    as (c1 & c2 & rest1 & rest2 & _ & H1 & H2 & Hsame).
  - intros n. reflexivity.
  - intros n. reflexivity.
  - vm_compute. reflexivity.
  - cbv zeta in Hsame. rewrite (proj2 Hsame) in H1 by (vm_compute; reflexivity).
    exists (buildSystemPrompt BOT_PERSONALITY c2 +:+ getToneInstructions (detectTone "so sad today")),
           rest1, rest2.
    split; [exact H1|]. split; [exact H2|].
    assert (map (@length _)
              (completions (trace (snd (Chatbot.chat E1 BOT_PERSONALITY "u1" "I feel awful" w1))))
            = [2]) as L1 by (vm_compute; reflexivity).
    assert (map (@length _)
              (completions (trace (snd (Chatbot.chat E2 BOT_PERSONALITY "u2" "so sad today" w2))))
            = [4]) as L2 by (vm_compute; reflexivity).
    rewrite H1 in L1. rewrite H2 in L2. cbn [map length] in L1, L2.
    split; [injection L1 | injection L2]; lia.
Defined.

(** ** The routes *)

(** X15. [POST /api/chat] always answers.  A body the parsers refuse
    is answered 500 by the global error handler, and a request without a
    body is answered 500 by the handler's own [catch]; neither touches the
    store or the model.  A request whose body carries a string as
    [userId] is answered 200 or 400: for these the [catch] is never
    reached, because [chat] turns every failure into a reply. *)
Theorem X15_post_api_chat_status
    (E : Env) (P : Persona) (development : bool)
    (chat_other : Server.JsValue -> string -> M string)
    (req : Server.Request) (w : World) :
  let run := Server.app_post_api_chat E P development chat_other req w in
  exists response,
    fst run = inr response /\
    match req with
    | Server.Refused _ | Server.Delivered None =>
        Server.status response = 500 /\ snd run = w
    | Server.Delivered (Some body) =>
        (Server.status response = 200 \/ Server.status response = 400 \/
         Server.status response = 500) /\
        (forall uid, Server.userId body = Server.JStr uid ->
           Server.status response = 200 \/ Server.status response = 400)
    end.
Proof.
  cbv zeta. destruct req as [err|[body|]]; [| |].
  - eexists. split; [reflexivity|]. split; reflexivity.
  - cbn [Server.app_post_api_chat]. unfold Server.post_api_chat, try_catch.
    destruct (negb (Server.truthy (Server.userId body))
              || negb (Server.truthy (Server.message body))).
    { eexists. split; [reflexivity|]. split; [tauto | intros; right; reflexivity]. }
    destruct (Server.message body) as [| |b|z|msg|];
      try (eexists; split; [reflexivity|]; split; [tauto | intros; right; reflexivity]).
    destruct (Nat.eqb (Text.length (Text.trim msg)) 0).
    { eexists. split; [reflexivity|]. split; [tauto | intros; right; reflexivity]. }
    destruct (Nat.ltb 500 (Text.length msg)).
    { eexists. split; [reflexivity|]. split; [tauto | intros; right; reflexivity]. }
    unfold bind.
    destruct (Server.chatbot_chat E P chat_other (Server.userId body) (Text.trim msg) w)
      as [[e|r] w1] eqn:Hchat.
    + eexists. split; [reflexivity|]. split; [tauto|].
      intros uid Huid. rewrite Huid in Hchat. cbn [Server.chatbot_chat] in Hchat.
      destruct (chat_total E P uid (Text.trim msg) w) as (reply & Hreply & _).
      rewrite Hchat in Hreply. discriminate.
    + eexists. split; [reflexivity|]. split; [tauto | intros; left; reflexivity].
  - eexists. split; [reflexivity|]. split; reflexivity.
Qed.

(** X16. A request with a non-empty string as user id and a message
    that is not blank and has at most 500 characters is answered with
    status 200, the user id, and the reply of [chat] to the trimmed
    message. *)
Theorem X16_post_api_chat_accepts
    (E : Env) (P : Persona) (development : bool)
    (chat_other : Server.JsValue -> string -> M string)
    (uid msg : string) (w : World) :
  uid <> EmptyString -> Text.trim msg <> EmptyString -> Text.length msg <= 500 ->
  exists reply timestamp,
    fst (Chatbot.chat E P uid (Text.trim msg) w) = inr reply /\
    fst (Server.app_post_api_chat E P development chat_other
           (Server.Delivered (Some (Server.mkBody (Server.JStr uid) (Server.JStr msg)))) w)
    = inr (Server.mkResponse 200 (Server.ChatJson reply timestamp (Server.JStr uid))).
Proof.
  intros Hu Ht Hl.
  destruct (chat_total E P uid (Text.trim msg) w) as (reply & Hreply & _).
  cbn [Server.app_post_api_chat].
  unfold Server.post_api_chat, try_catch. cbn [Server.userId Server.message Server.truthy].
  assert (truthy_str (Some uid) = true) as -> by (now destruct uid).
  assert (truthy_str (Some msg) = true) as ->.
  { destruct msg; [|reflexivity]. now contradiction Ht. }
  cbn [negb orb].
  assert (Nat.eqb (Text.length (Text.trim msg)) 0 = false) as ->.
  { apply Nat.eqb_neq. intros H0. now apply text_length_zero in H0. }
  assert (Nat.ltb 500 (Text.length msg) = false) as ->.
  { apply Nat.ltb_ge. exact Hl. }
  unfold bind. cbn [Server.chatbot_chat].
  destruct (Chatbot.chat E P uid (Text.trim msg) w) as [[e|r] w1]; [discriminate|].
  cbn [fst] in Hreply. injection Hreply as ->.
  eexists reply, _. split; reflexivity.
Qed.

(** X16 on a message padded with spaces and a no-break space. *)
Lemma X16_post_api_chat_accepts_witness :
  let msg := "  hello " +:+ Text.bytes [194; 160]%N in
  Text.trim msg = "hello" /\
  exists reply timestamp,
    fst (Chatbot.chat (Scenario.calm "Hello!") BOT_PERSONALITY "u1" (Text.trim msg)
           Scenario.empty_world) = inr reply /\
    fst (Server.app_post_api_chat (Scenario.calm "Hello!") BOT_PERSONALITY false
           Scenario.chat_refuses
           (Server.Delivered (Some (Server.mkBody (Server.JStr "u1") (Server.JStr msg))))
           Scenario.empty_world)
    = inr (Server.mkResponse 200 (Server.ChatJson reply timestamp (Server.JStr "u1"))).
Proof.
  intros msg. split; [vm_compute; reflexivity|].
  apply (X16_post_api_chat_accepts (Scenario.calm "Hello!") BOT_PERSONALITY false
           Scenario.chat_refuses "u1" msg Scenario.empty_world).
  - discriminate.
  - vm_compute. discriminate.
  - vm_compute. lia.
Defined.

Section ReadRoutes.
Import JsString Store Memory Spec Effect Routes.
Variable E : Env.



End ReadRoutes.



Section UserRoute.
Import JsString Store Memory Spec Effect Routes.
Variable E : Env.

Lemma getUserStats_ok uid w :
  NoFault E ->
  exists stats w',
    getUserStats E uid w = (inr stats, w') /\
    let p := default empty_profile (stored_profile w uid) in
    Stats.name stats = Profile.name p /\
    Stats.totalMessages stats = count_for uid (conversations (db w)) /\
    Stats.factsStored stats = length (Profile.facts p) /\
    Stats.interestsStored stats = length (Profile.interests p).
Proof.
  intros NF. unfold getUserStats. rewrite try_rethrow. unfold bind.
  destruct (getUser_ok E uid w NF) as (user & w1 & Hg). rewrite Hg.
  pose proof (getUser_profile E _ _ _ _ Hg) as (_ & Hp).
  apply getUser_spec in Hg as ([[Hconv _] _] & _).
  unfold conversations_countDocuments, store_call, ret. cbv zeta.
  rewrite NF, Hconv. eexists _, _. split; [reflexivity|].
  cbn [Stats.name Stats.totalMessages Stats.factsStored Stats.interestsStored].
  rewrite Hp. repeat split.
Qed.

Lemma get_user_total uid w :
  exists response,
    fst (get_user E uid w) = inr response /\
    (status response = 200 \/ status response = 400 \/ status response = 500).
Proof.
  unfold get_user, try_catch.
  destruct (negb (truthy_str (Some uid))); [eexists; split; [reflexivity | tauto]|].
  unfold bind.
  destruct (getUser E uid w) as [[e|user] w1]; [eexists; split; [reflexivity | tauto]|].
  destruct (getUserStats E uid w1) as [[e|stats] w2];
    eexists; (split; [reflexivity | tauto]).
Qed.

Lemma get_user_ok uid w :
  NoFault E -> uid <> EmptyString ->
  exists stats,
    fst (get_user E uid w)
    = inr (mkResponse 200 (UserJson (default empty_profile (stored_profile w uid)) stats)) /\
    Stats.totalMessages stats = count_for uid (conversations (db w)) /\
    Stats.factsStored stats
    = length (Profile.facts (default empty_profile (stored_profile w uid))).
Proof.
  intros NF Hu. unfold get_user, try_catch.
  assert (truthy_str (Some uid) = true) as -> by (now destruct uid).
  cbn [negb]. unfold bind.
  destruct (getUser_ok E uid w NF) as (user & w1 & Hg). rewrite Hg.
  pose proof (getUser_profile E _ _ _ _ Hg) as (Hp1 & Hp).
  apply getUser_spec in Hg as ([[Hconv _] _] & _).
  destruct (getUserStats_ok uid w1 NF) as (stats & w2 & Hs & _ & Ht & Hf & _).
  rewrite Hs. cbn [ret fst]. exists stats. rewrite Hp. split; [reflexivity|].
  rewrite Ht, Hf, Hconv, Hp1. cbn [default from_option id]. now rewrite Hp.
Qed.

Lemma getHealth_run w :
  Health.getHealth E w =
  (inr (match completion E (tick w) [mkChatMessage "user" "Hello"] with
        | inr _ => Health.mk "healthy" true None "All systems operational"
        | inl error =>
            Health.mk "unhealthy" false (Store.message error) "Groq API connection failed"
        end),
   step (Some (CompletionsCreate [mkChatMessage "user" "Hello"])) w).
Proof.
  unfold Health.getHealth, Health.generateContent, try_catch, bind, completions_create, throw.
  cbv zeta. now destruct (completion E (tick w) _).
Qed.

End UserRoute.

(** X18. [GET /api/user/:userId] always answers, with status 200, 400 or
    500.  When the store answers it is 200 with the stored profile (the
    default profile for a user seen for the first time), the number of
    stored messages of the user as [totalMessages] and the number of
    facts as [factsStored]. *)
Theorem X18_get_user (E : Env) (uid : string) (w : World) :
  (exists response,
      fst (Routes.get_user E uid w) = inr response /\
      (Routes.status response = 200 \/ Routes.status response = 400 \/
       Routes.status response = 500)) /\
  (NoFault E -> uid <> EmptyString ->
   exists stats,
     fst (Routes.get_user E uid w)
     = inr (Routes.mkResponse 200
              (Routes.UserJson (default empty_profile (stored_profile w uid)) stats)) /\
     Stats.totalMessages stats = count_for uid (conversations (db w)) /\
     Stats.factsStored stats
     = length (Profile.facts (default empty_profile (stored_profile w uid)))).
Proof. split; [apply get_user_total | apply get_user_ok]. Qed.

(** X19. The health check never throws and never touches the store: it
    makes one completion call, with the single user message "Hello", and
    reports [healthy] exactly when that call succeeds; otherwise it
    reports [unhealthy] with the message of the error. *)
Theorem X19_getHealth (E : Env) (w : World) :
  let run := Health.getHealth E w in
  let probe := [mkChatMessage "user" "Hello"] in
  db (snd run) = db w /\
  trace (snd run) = (trace w ++ [CompletionsCreate probe])%list /\
  exists health,
    fst run = inr health /\
    match completion E (tick w) probe with
    | inr _ => Health.status health = "healthy" /\ Health.aiConnected health = true
    | inl error =>
        Health.status health = "unhealthy" /\ Health.aiConnected health = false /\
        Health.error health = Store.message error
    end.
Proof.
  cbv zeta. rewrite getHealth_run. cbn [fst snd]. split; [reflexivity|].
  split; [reflexivity|]. eexists. split; [reflexivity|].
  destruct (completion E (tick w) _); repeat split.
Qed.

(** ** The connection handler *)

Section Connection.
Import JsString Store Database Sessions.
Variable E : Database.Env.

Lemma server_call_state c s :
  snd (server_call E c s)
  = mkState (Database.db s) (client s) (created s) (S (Database.tick s)) (calls s ++ [c]).
Proof. unfold server_call. now destruct (fails E (Database.tick s)). Qed.

Lemma server_call_result c s :
  fst (server_call E c s)
  = match fails E (Database.tick s) with Some error => inl error | None => inr tt end.
Proof. unfold server_call. now destruct (fails E (Database.tick s)). Qed.

Lemma createIndexes_keeps d s :
  let s' := snd (createIndexes E d s) in
  Database.db s' = Database.db s /\ client s' = client s /\ created s' = created s.
Proof.
  unfold createIndexes.
  destruct (server_call E (CreateIndex d "users") s) as [[e|[]] s1] eqn:H1;
    apply (f_equal snd) in H1; rewrite server_call_state in H1; cbn [snd] in H1; subst s1.
  - cbn. tauto.
  - destruct (server_call E (CreateIndex d "conversations") _) as [r s2] eqn:H2.
    apply (f_equal snd) in H2; rewrite server_call_state in H2; cbn [snd] in H2; subst s2.
    cbn. tauto.
Qed.

Lemma connectDB_stored s d s' :
  connectDB E s = (inr d, s') -> Database.db s' = Some d.
Proof.
  unfold connectDB. destruct (Database.db s) as [d0|] eqn:Hdb.
  - intros [= <- <-]. exact Hdb.
  - destruct (negb _); [discriminate|].
    destruct (rejects E _); [discriminate|]. cbv zeta.
    match goal with |- context [server_call E (Connect ?c) ?s1] =>
      pose proof (server_call_state (Connect c) s1) as H1;
      destruct (server_call E (Connect c) s1) as [[e|[]] s2] end; [discriminate|].
    cbn [snd] in H1. subst s2. cbn [client created Database.tick calls].
    match goal with |- context [server_call E (Ping ?d) ?s3] =>
      pose proof (server_call_state (Ping d) s3) as H2;
      destruct (server_call E (Ping d) s3) as [[e|[]] s4] end; [discriminate|].
    cbn [snd] in H2. subst s4.
    match goal with |- context [createIndexes E ?d ?s4] =>
      pose proof (createIndexes_keeps d s4) as (H3 & _);
      destruct (createIndexes E d s4) as [u s5] end.
    cbn [snd] in H3. intros [= <- <-]. rewrite H3. reflexivity.
Qed.

Lemma connectDB_reuse s d :
  Database.db s = Some d -> connectDB E s = (inr d, s).
Proof. intros H. unfold connectDB. now rewrite H. Qed.

Lemma connectDB_consistent s :
  db_consistent s -> db_consistent (snd (connectDB E s)).
Proof.
  intros Hs. pose proof Hs as [Hd Hc].
  unfold connectDB. destruct (Database.db s) as [d0|] eqn:Hdb; [exact Hs|].
  - destruct (negb _); [exact Hs|].
    destruct (rejects E _); [exact Hs|].
    cbv zeta.
    match goal with |- context [server_call E (Connect ?c) ?s1] =>
      pose proof (server_call_state (Connect c) s1) as H1;
      destruct (server_call E (Connect c) s1) as [[e|[]] s2] end;
      cbn [snd] in H1; subst s2.
    + split; cbn; [intros d; discriminate|].
      intros c [= <-]. cbn. lia.
    + cbn [client created Database.tick calls].
      match goal with |- context [server_call E (Ping ?d) ?s3] =>
        pose proof (server_call_state (Ping d) s3) as H2;
        destruct (server_call E (Ping d) s3) as [[e|[]] s4] end;
        cbn [snd] in H2; subst s4.
      * split; cbn; [intros d [= <-]; split; reflexivity|].
        intros c [= <-]. cbn. lia.
      * match goal with |- context [createIndexes E ?d ?s4] =>
          pose proof (createIndexes_keeps d s4) as (H3 & H4 & H5);
          destruct (createIndexes E d s4) as [u s5] end.
        cbn [snd] in *. split.
        -- intros d. rewrite H3, H4. cbn. intros [= <-]. split; reflexivity.
        -- intros c. rewrite H4, H5. cbn. intros [= <-]. cbn. lia.
Qed.

Lemma closeDB_consistent s :
  db_consistent s -> db_consistent (snd (closeDB E s)).
Proof.
  intros Hs. unfold closeDB. destruct (client s) as [c|] eqn:Hcl; [|exact Hs].
  pose proof (server_call_state (Close c) s) as H1.
  destruct (server_call E (Close c) s) as [[e|[]] s1]; cbn [snd] in *; subst s1.
  - destruct Hs as [Hd Hc]. split; cbn; [exact Hd | exact Hc].
  - split; cbn; discriminate.
Qed.

Lemma db_run_consistent ops : db_consistent (db_run E ops).
Proof.
  unfold db_run. assert (db_consistent initial) as H0 by (split; cbn; discriminate).
  revert H0. generalize initial. induction ops as [|op ops IH]; intros s Hs; [exact Hs|].
  cbn [fold_left]. apply IH. destruct op; cbn [db_step].
  - now apply connectDB_consistent.
  - now apply closeDB_consistent.
Qed.

End Connection.

(** X20. Once [connectDB] has returned a handle, the handle is kept:
    [getDB] returns it, and calling [connectDB] again returns the same
    handle without any further call to the server. *)
Theorem X20_connectDB_once (E : Database.Env) (s s' : Database.State) (d : Database.Handle) :
  Database.connectDB E s = (inr d, s') ->
  Database.getDB s' = inr d /\ Database.connectDB E s' = (inr d, s').
Proof.
  intros H. apply connectDB_stored in H. split.
  - unfold Database.getDB. now rewrite H.
  - now apply connectDB_reuse.
Qed.

Lemma X20_connectDB_once_witness :
  exists d s',
    Database.connectDB Database.reachable Database.initial = (inr d, s') /\
    Database.getDB s' = inr d /\
    Database.connectDB Database.reachable s' = (inr d, s').
Proof.
  eexists _, _. split; [reflexivity|].
  apply (X20_connectDB_once Database.reachable Database.initial). reflexivity.
Defined.

(** X21. When the ping fails, [connectDB] throws the ping's error, but
    the handle has been assigned already: afterwards [getDB] returns a
    handle instead of throwing, and the next [connectDB] returns it
    without connecting, pinging or creating the indexes. *)
Theorem X21_connectDB_failed_ping (E : Database.Env) (s : Database.State)
    (uri : string) (error : JsError) :
  Database.db s = None ->
  Database.MONGODB_URI E = Some uri -> uri <> EmptyString ->
  Database.rejects E uri = None ->
  Database.fails E (Database.tick s) = None ->
  Database.fails E (S (Database.tick s)) = Some error ->
  let run := Database.connectDB E s in
  fst run = inl error /\
  exists d, Database.getDB (snd run) = inr d /\
            Database.connectDB E (snd run) = (inr d, snd run).
Proof.
  intros Hdb Huri Hne Hrej Hc Hp run.
  assert (exists s' d, run = (inl error, s') /\ Database.db s' = Some d)
    as (s' & d & -> & Hd).
  { subst run. unfold Database.connectDB. rewrite Hdb, Huri.
    assert (JsString.truthy_str (Some uri) = true) as -> by (now destruct uri).
    cbn [negb default from_option id]. rewrite Hrej. cbv zeta.
    unfold Database.server_call. cbn [Database.tick Database.db Database.client
      Database.created Database.calls]. rewrite Hc. cbn [Database.tick]. rewrite Hp.
    eexists _, _. split; reflexivity. }
  cbn [fst snd]. split; [reflexivity|]. exists d. split.
  - unfold Database.getDB. now rewrite Hd.
  - now apply connectDB_reuse.
Qed.

Lemma X21_connectDB_failed_ping_witness :
  let run := Database.connectDB (Database.failing_at 1) Database.initial in
  fst run = inl (mkError (Some "timed out")) /\
  exists d, Database.getDB (snd run) = inr d /\
            Database.connectDB (Database.failing_at 1) (snd run) = (inr d, snd run).
Proof.
  apply (X21_connectDB_failed_ping (Database.failing_at 1) Database.initial
           "mongodb://localhost"); try reflexivity.
  discriminate.
Defined.

(** X22. Index creation cannot make [connectDB] fail.  With a URI
    configured and the server answering the connection and the ping,
    [connectDB] returns the handle of database [chatbot] whatever
    [createIndex] does; when the first index fails the second one is not
    attempted. *)
Theorem X22_connectDB_index_failure (E : Database.Env) (s : Database.State) (uri : string) :
  Database.db s = None ->
  Database.MONGODB_URI E = Some uri -> uri <> EmptyString ->
  Database.rejects E uri = None ->
  Database.fails E (Database.tick s) = None ->
  Database.fails E (S (Database.tick s)) = None ->
  let run := Database.connectDB E s in
  let c := Database.mkClient uri (Database.created s) in
  let d := Database.mkHandle c "chatbot" in
  fst run = inr d /\
  Database.calls (snd run)
  = (Database.calls s
     ++ [Database.Connect c; Database.Ping d; Database.CreateIndex d "users"]
     ++ match Database.fails E (S (S (Database.tick s))) with
        | Some _ => []
        | None => [Database.CreateIndex d "conversations"]
        end)%list.
Proof.
  intros Hdb Huri Hne Hrej Hc Hp run c d. subst run c d.
  unfold Database.connectDB. rewrite Hdb, Huri.
  assert (JsString.truthy_str (Some uri) = true) as -> by (now destruct uri).
  cbn [negb default from_option id]. rewrite Hrej. cbv zeta.
  unfold Database.createIndexes, Database.server_call.
  cbn [Database.tick Database.db Database.client Database.created Database.calls].
  rewrite Hc. cbn [Database.tick Database.db Database.client Database.created Database.calls].
  rewrite Hp. cbn [Database.tick Database.db Database.client Database.created Database.calls].
  destruct (Database.fails E (S (S (Database.tick s)))).
  - cbn [fst snd Database.calls]. split; [reflexivity|].
    now rewrite <- !app_assoc.
  - cbn [Database.tick Database.db Database.client Database.created Database.calls].
    destruct (Database.fails E (S (S (S (Database.tick s)))));
      cbn [fst snd Database.calls]; (split; [reflexivity|]); now rewrite <- !app_assoc.
Qed.

Lemma X22_connectDB_index_failure_witness :
  let E := Database.failing_at 2 in
  let c := Database.mkClient "mongodb://localhost" 0 in
  let d := Database.mkHandle c "chatbot" in
  fst (Database.connectDB E Database.initial) = inr d /\
  Database.calls (snd (Database.connectDB E Database.initial))
  = [Database.Connect c; Database.Ping d; Database.CreateIndex d "users"].
Proof.
  apply (X22_connectDB_index_failure (Database.failing_at 2) Database.initial
           "mongodb://localhost"); try reflexivity.
  discriminate.
Defined.

(** X23. Whatever sequence of [connectDB] and [closeDB] calls the
    process makes, and whatever fails on the way, the handle (when there
    is one) is the database [chatbot] of the current client. *)
Theorem X23_handle_of_current_client (E : Database.Env) (ops : list Sessions.DbOp)
    (d : Database.Handle) :
  Database.db (Sessions.db_run E ops) = Some d ->
  Database.client (Sessions.db_run E ops) = Some (Database.of_client d) /\
  Database.databaseName d = "chatbot".
Proof. intros H. now apply (db_run_consistent E ops). Qed.

Lemma X23_handle_of_current_client_witness :
  let ops := [Sessions.OpConnect; Sessions.OpClose; Sessions.OpConnect] in
  let d := Database.mkHandle (Database.mkClient "mongodb://localhost" 1) "chatbot" in
  Database.db (Sessions.db_run Database.reachable ops) = Some d /\
  Database.client (Sessions.db_run Database.reachable ops) = Some (Database.of_client d) /\
  Database.databaseName d = "chatbot".
Proof.
  intros ops d. split; [reflexivity|].
  apply (X23_handle_of_current_client Database.reachable ops d). reflexivity.
Defined.

(** X24. After any sequence of calls, a [closeDB] whose [close] call is
    answered leaves the module disconnected: [getDB] throws, and the
    next [connectDB] has to build a new client.  When the [close] call
    fails, [closeDB] swallows the error and the handle stays. *)
Theorem X24_closeDB (E : Database.Env) (ops : list Sessions.DbOp) :
  let s := Sessions.db_run E ops in
  let s' := snd (Database.closeDB E s) in
  match Database.client s, Database.fails E (Database.tick s) with
  | Some c, Some _ =>
      Database.db s' = Database.db s /\ Database.client s' = Some c
  | _, _ =>
      Database.getDB s'
      = inl (mkError (Some "Database not connected. Call connectDB() first.")) /\
      Database.client s' = None
  end.
Proof.
  cbv zeta. pose proof (db_run_consistent E ops) as [Hd _].
  set (s := Sessions.db_run E ops) in *.
  unfold Database.closeDB, Database.server_call, Database.getDB.
  destruct (Database.client s) as [c|] eqn:Hc.
  - destruct (Database.fails E (Database.tick s)); cbn; split; reflexivity.
  - destruct (Database.db s) as [d|] eqn:Hdb.
    + destruct (Hd d eq_refl) as [H _]. discriminate.
    + cbn. rewrite Hdb, Hc. split; reflexivity.
Qed.

(** ** The page *)

Section PageHistory.
Import Script Sessions.
Variable clock : nat -> Z.

Lemma slice_last_short {A} n (l : list A) : length l <= n -> slice_last n l = l.
Proof. intros H. unfold slice_last. now replace (length l - n) with 0 by lia. Qed.

Lemma slice_last_length {A} n (l : list A) :
  length (slice_last n l) = Nat.min n (length l).
Proof. unfold slice_last. rewrite length_skipn. lia. Qed.

Lemma slice_last_map {A B} (f : A -> B) n (l : list A) :
  slice_last n (map f l) = map f (slice_last n l).
Proof. unfold slice_last. now rewrite length_map, skipn_map. Qed.

Lemma slice_last_app_drop {A} n (pre l : list A) :
  n <= length l -> slice_last n (pre ++ l) = slice_last n l.
Proof.
  intros H. unfold slice_last. rewrite List.skipn_app, List.length_app.
  rewrite List.skipn_all2 by lia. cbn [app]. f_equal. lia.
Qed.

Lemma slice_last_app_slice {A} n (a b : list A) :
  slice_last n (slice_last n a ++ b) = slice_last n (a ++ b).
Proof.
  destruct (Nat.le_gt_cases (length a) n) as [H|H].
  - now rewrite (slice_last_short n a).
  - symmetry. rewrite <- (firstn_skipn (length a - n) a) at 1.
    rewrite <- app_assoc. rewrite slice_last_app_drop; [reflexivity|].
    rewrite List.length_app, length_skipn. lia.
Qed.

Lemma saveMessage_history msg u p :
  history (saveMessage clock msg u p)
  = Some (slice_last 50 (default [] (history p) ++ [mkItem msg u (clock (tick p))])).
Proof.
  unfold saveMessage. cbn [history]. f_equal.
  destruct (Nat.ltb_spec 50 (length (default [] (history p) ++ [mkItem msg u (clock (tick p))])));
    [reflexivity|].
  now rewrite slice_last_short.
Qed.

Lemma saveMessage_stored msg u p :
  stored (saveMessage clock msg u p) = slice_last 50 (stored p ++ [(msg, u)]).
Proof.
  unfold stored. rewrite saveMessage_history.
  change (default [] (Some ?l)) with l.
  now rewrite <- slice_last_map, map_app.
Qed.

Lemma addMessage_stored text u p :
  stored (addMessage clock text u p) = slice_last 50 (stored p ++ [(text, u)]).
Proof. unfold addMessage. now rewrite saveMessage_stored. Qed.

Lemma addMessage_area text u p :
  messagesArea (addMessage clock text u p) = (messagesArea p ++ [(text, u)])%list.
Proof. reflexivity. Qed.

Lemma replay_stored l p :
  slice_last 50 (stored (replay clock l p)) = slice_last 50 (stored p ++ map shown l).
Proof.
  revert p. induction l as [|x l IH]; intros p.
  - cbn. now rewrite app_nil_r.
  - cbn [replay fold_left]. fold (replay clock l (addMessage clock (message x) (isUser x) p)).
    rewrite IH, addMessage_stored, slice_last_app_slice, <- app_assoc. reflexivity.
Qed.

Lemma replay_bounded l p :
  l <> [] -> length (stored (replay clock l p)) <= 50.
Proof.
  destruct l as [|x l _] using rev_ind; [congruence|]. intros _.
  unfold replay. rewrite fold_left_app. cbn [fold_left].
  rewrite addMessage_stored, slice_last_length. lia.
Qed.

Lemma replay_area l p :
  messagesArea (replay clock l p) = (messagesArea p ++ map shown l)%list.
Proof.
  revert p. induction l as [|x l IH]; intros p.
  - cbn. now rewrite app_nil_r.
  - cbn [replay fold_left]. fold (replay clock l (addMessage clock (message x) (isUser x) p)).
    rewrite IH, addMessage_area, <- app_assoc. reflexivity.
Qed.

Lemma loadHistory_stored p :
  stored (loadHistory clock p) = slice_last 50 (stored p ++ stored p).
Proof.
  unfold loadHistory. destruct (default [] (history p)) as [|x l] eqn:Hh.
  - cbn [length Nat.ltb Nat.leb]. unfold stored. rewrite Hh. reflexivity.
  - cbn [length Nat.ltb Nat.leb].
    rewrite <- (slice_last_short 50 (stored (replay _ _ _)))
      by (now apply replay_bounded).
    rewrite replay_stored. unfold stored. cbn [history]. now rewrite Hh.
Qed.

Lemma loadHistory_area p :
  stored p <> [] -> messagesArea (loadHistory clock p) = stored p.
Proof.
  unfold loadHistory, stored. destruct (default [] (history p)) as [|x l] eqn:Hh.
  - intros H. now destruct H.
  - intros _. cbn [length Nat.ltb Nat.leb].
    now rewrite replay_area.
Qed.

Lemma page_step_bounded p op :
  length (stored p) <= 50 -> length (stored (page_step clock p op)) <= 50.
Proof.
  intros H. destruct op as [text u| |[|]]; cbn [page_step].
  - rewrite addMessage_stored, slice_last_length. lia.
  - rewrite loadHistory_stored, slice_last_length. lia.
  - unfold clearChat. rewrite addMessage_stored, slice_last_length. lia.
  - exact H.
Qed.

End PageHistory.

(** X25. Saving a message keeps the stored history at 50 entries at
    most: the new item is the last one, the items before it are the
    newest of the old history in their order, and only the oldest ones
    are dropped. *)
Theorem X25_saveMessage_cap (clock : nat -> Z) (msg : string) (isUser : bool)
    (p : Script.Page) :
  let p' := Script.saveMessage clock msg isUser p in
  let item := Script.mkItem msg isUser (clock (Script.tick p)) in
  (exists dropped kept,
      default [] (Script.history p) = (dropped ++ kept)%list /\
      Script.history p' = Some (kept ++ [item])%list) /\
  length (Script.stored p') = Nat.min 50 (S (length (Script.stored p))).
Proof.
  cbv zeta. split.
  - rewrite saveMessage_history. set (old := default [] (Script.history p)).
    set (item := Script.mkItem _ _ _). unfold Script.slice_last.
    exists (firstn (length (old ++ [item]) - 50) old),
           (skipn (length (old ++ [item]) - 50) old).
    split; [now rewrite firstn_skipn|].
    rewrite List.skipn_app, List.length_app. cbn [length].
    replace (length old + 1 - 50 - length old) with 0 by lia. reflexivity.
  - rewrite saveMessage_stored, slice_last_length, List.length_app. cbn [length]. lia.
Qed.

(** X26. Loading the history stores every loaded message a second time:
    each stored item is shown with [addMessage], which saves it again.
    After [loadHistory] the page shows the stored messages, and the
    stored history is the old one twice over, cut to its newest 50
    entries. *)
Theorem X26_loadHistory_saves_again (clock : nat -> Z) (p : Script.Page) :
  let p' := Script.loadHistory clock p in
  Script.stored p' = Script.slice_last 50 (Script.stored p ++ Script.stored p)%list /\
  (Script.stored p <> [] -> Script.messagesArea p' = Script.stored p) /\
  (length (Script.stored p) <= 25 ->
   Script.stored p' = (Script.stored p ++ Script.stored p)%list).
Proof.
  cbv zeta. split; [apply loadHistory_stored|]. split; [apply loadHistory_area|].
  intros H. rewrite loadHistory_stored. apply slice_last_short.
  rewrite List.length_app. lia.
Qed.

(** X27. Whatever the user does on the page (sending or receiving
    messages, reloading, clearing the chat), a stored history of at most
    50 entries stays at 50 entries at most. *)
Theorem X27_history_bounded (clock : nat -> Z) (ops : list Sessions.PageOp)
    (p : Script.Page) :
  length (Script.stored p) <= 50 ->
  length (Script.stored (Sessions.page_run clock ops p)) <= 50.
Proof.
  unfold Sessions.page_run. revert p. induction ops as [|op ops IH]; intros p H; [exact H|].
  cbn [fold_left]. apply IH. now apply page_step_bounded.
Qed.

Lemma X27_history_bounded_witness :
  length (Script.stored
            (Sessions.page_run (fun n => Z.of_nat n)
               [Sessions.OpAdd "hi" true; Sessions.OpLoad; Sessions.OpClear true;
                Sessions.OpLoad]
               (Script.mkPage None [] 0))) <= 50.
Proof.
  apply (X27_history_bounded (fun n => Z.of_nat n)). cbn. lia.
Defined.

(** X28. [GET /api/health] always answers 200 with status [ok]: its
    handler for errors is never reached, since the health check does not
    throw.  The answer carries a health report exactly when the chatbot
    has been initialised, and the store is not touched. *)
Theorem X28_get_health (E : Env) (ready : bool) (w : World) :
  let run := Routes.get_health E ready w in
  db (snd run) = db w /\
  exists timestamp health,
    fst run = inr (Routes.mkResponse 200 (Routes.HealthJson "ok" timestamp health)) /\
    (health = None <-> ready = false).
Proof.
  cbv zeta. unfold Routes.get_health, try_catch, bind. destruct ready.
  - rewrite getHealth_run. cbn. split; [reflexivity|].
    eexists _, _. split; [reflexivity|]. split; discriminate.
  - cbn. split; [reflexivity|]. eexists _, _. split; [reflexivity|]. split; reflexivity.
Qed.
